(** * uart_probe: loopback probing of 8250-family UART FIFOs

    A shallow embedding of [uart_probe.c]: the four debugfs read handlers
    [rx_trig_probe_read], [rx_fifo_size_read], [tx_fifo_size_read] and
    [tx_trig_probe_read], run against an abstract port handle.

    The port is a state machine of an arbitrary state type [W]; the two
    function pointers [port->serial_in] and [port->serial_out] are its
    transition functions, and the kernel services the handlers call
    ([udelay], [mdelay], [cpu_relax], [jiffies], [msecs_to_jiffies],
    [tty_find_polling_driver]) are part of the same interface.  A handler
    threads the port state and the list of register writes it has issued;
    the two [while] loops without a static bound take fuel. *)

From Stdlib Require Import ZArith List String Ascii Bool Lia.
Import ListNotations.
Open Scope Z_scope.

Set Implicit Arguments.

(** ** Constants

    [FIFO_SIZE_MAX] is defined in uart_probe.c; the register offsets and bit
    masks are those of <linux/serial_reg.h>, the errno values those of
    <asm-generic/errno-base.h>.  Offsets are shared between registers:
    offset 0 is RX on read, TX on write and the divisor low byte while the
    DLAB bit of the line control is set; offset 1 is IER, or the divisor
    high byte under DLAB; offset 2 reads as IIR and writes to FCR. *)

Definition FIFO_SIZE_MAX : Z := 512.

Definition UART_RX  : Z := 0.
Definition UART_TX  : Z := 0.
Definition UART_DLL : Z := 0.
Definition UART_IER : Z := 1.
Definition UART_DLM : Z := 1.
Definition UART_IIR : Z := 2.
Definition UART_FCR : Z := 2.
Definition UART_LCR : Z := 3.
Definition UART_MCR : Z := 4.
Definition UART_LSR : Z := 5.

Definition UART_IER_RDI  : Z := 0x01.
Definition UART_IER_THRI : Z := 0x02.

Definition UART_IIR_NO_INT : Z := 0x01.
Definition UART_IIR_THRI   : Z := 0x02.
Definition UART_IIR_RDI    : Z := 0x04.

Definition UART_FCR_ENABLE_FIFO : Z := 0x01.
Definition UART_FCR_CLEAR_RCVR  : Z := 0x02.
Definition UART_FCR_CLEAR_XMIT  : Z := 0x04.
Definition UART_FCR_TRIGGER_1   : Z := 0x00.

Definition UART_LCR_WLEN8       : Z := 0x03.
Definition UART_LCR_CONF_MODE_A : Z := 0x80.

Definition UART_MCR_LOOP : Z := 0x10.

Definition UART_LSR_DR : Z := 0x01.
Definition UART_LSR_OE : Z := 0x02.

Definition ENODEV : Z := 19.
Definition EBUSY  : Z := 16.

(** ** Machine integers *)

(** Conversion to [unsigned char]. *)
Definition u8 (v : Z) : Z := v mod 256.

(** Conversion to [u32]. *)
Definition u32 (v : Z) : Z := v mod 2 ^ 32.

(** The largest [int]. *)
Definition INT_MAX : Z := 2 ^ 31 - 1.

(** [unsigned long] arithmetic of the jiffies counter (LP64). *)
Definition BITS_PER_LONG : Z := 64.
Definition ulong (v : Z) : Z := v mod 2 ^ BITS_PER_LONG.
Definition to_long (v : Z) : Z :=
  if ulong v <? 2 ^ (BITS_PER_LONG - 1) then ulong v
  else ulong v - 2 ^ BITS_PER_LONG.

(** [time_before(a, b)] is [((long)((a) - (b)) < 0)]. *)
Definition time_before (a b : Z) : bool := to_long (a - b) <? 0.

(** ** The port binding *)

(** [struct uart_8250_port]: the driver's shadow of the write-only FCR. *)
Record uart_8250_port := { fcr : Z }.

(** [struct uart_port]: whether the two accessors are set, the rated FIFO
    size, and the result of [up_to_u8250p]. *)
Record uart_port := {
  has_serial_in  : bool;
  has_serial_out : bool;
  fifosize       : Z;
  up_to_u8250p   : option uart_8250_port
}.

(** [struct tty_port] with the [uart_state] that contains it. *)
Record tty_port := {
  tty_port_initialized : bool;
  tty_port_users       : Z;
  state_uart_port      : option uart_port
}.

Record tty_driver := { ports : Z -> option tty_port }.

(** ** The machine the handlers run on *)

Class Machine (W : Type) := {
  serial_in  : Z -> W -> Z * W;
  serial_out : Z -> Z -> W -> W;
  udelay     : Z -> W -> W;
  mdelay     : Z -> W -> W;
  cpu_relax  : W -> W;
  jiffies    : W -> Z;
  msecs_to_jiffies : Z -> Z;
  tty_find_polling_driver : string -> option (tty_driver * Z)
}.

(** What a handler hands back: [return -errno], the text of ["%d\n"], or
    one of the fixed messages. *)
Inductive probe_result :=
| Errno (e : Z)
| Count (n : Z)
| Message (m : string).

Definition nl : string := String (ascii_of_nat 10) EmptyString.

Definition rx_trig_failed : string := "RX trigger test failed" ++ nl.
Definition rx_overflow_not_detected : string := "RX overflow not detected" ++ nl.
Definition tx_loopback_failed : string :=
  "TX loopback failed or no data received" ++ nl.

(** ** State and error monad *)

(** The port state and the register writes issued so far, oldest first. *)
Record st (W : Type) := mkSt { hw : W; wlog : list (Z * Z) }.

(** [None] is fuel exhaustion of an unbounded loop. *)
Definition M (W A : Type) : Type := st W -> option (A * st W).

Definition ret {W A} (a : A) : M W A := fun s => Some (a, s).

Definition bind {W A B} (m : M W A) (k : A -> M W B) : M W B :=
  fun s => match m s with
           | Some (a, s') => k a s'
           | None => None
           end.

Definition out_of_fuel {W A} : M W A := fun _ => None.

Declare Scope probe_scope.
Delimit Scope probe_scope with probe.
Notation "x <- m ;; k" := (bind m (fun x => k))
  (at level 61, m at next level, right associativity) : probe_scope.
Notation "m ;;; k" := (bind m (fun _ => k))
  (at level 61, right associativity) : probe_scope.
Open Scope probe_scope.

Section Probes.
Context {W : Type} {mach : Machine W}.

(** [port->serial_in(port, reg)] *)
Definition inb (reg : Z) : M W Z :=
  fun s => Some (fst (serial_in reg (hw s)),
                 mkSt (snd (serial_in reg (hw s))) (wlog s)).

(** [port->serial_out(port, reg, v)] *)
Definition outb (reg v : Z) : M W unit :=
  fun s => Some (tt, mkSt (serial_out reg v (hw s)) (wlog s ++ [(reg, v)])).

(** A kernel service that only lets time pass. *)
Definition pass (f : W -> W) : M W unit :=
  fun s => Some (tt, mkSt (f (hw s)) (wlog s)).

Definition read_jiffies : M W Z := fun s => Some (jiffies (hw s), s).

(** *** Port resolution (lines 91-120, repeated in each handler) *)

Definition resolve_port (selected_dev : string)
  : probe_result + (uart_port * uart_8250_port) :=
  match tty_find_polling_driver selected_dev with
  | None => inl (Errno (- ENODEV))
  | Some (driver, line) =>
    match ports driver line with
    | None => inl (Errno (- ENODEV))
    | Some tport =>
      match state_uart_port tport with
      | None => inl (Errno (- ENODEV))
      | Some port =>
        if negb (has_serial_in port) || negb (has_serial_out port)
        then inl (Errno (- ENODEV))
        else
          match up_to_u8250p port with
          | None => inl (Errno (- ENODEV))
          | Some u8250p =>
            if tty_port_initialized tport && (tty_port_users tport >? 0)
            then inl (Errno (- EBUSY))
            else inr (port, u8250p)
          end
      end
    end
  end.

(** *** Snapshot and restore *)

Record snapshot := {
  old_lcr : Z; old_fcr : Z; old_mcr : Z; old_dl : Z
}.

(** "Set baud to 115200": the divisor is read as
    [serial_in(UART_DLL) | (serial_in(UART_DLM) << 8)] into a [u32]. *)
Definition set_baud : M W Z :=
  outb UART_LCR UART_LCR_CONF_MODE_A ;;;
  dll <- inb UART_DLL ;;
  dlm <- inb UART_DLM ;;
  outb UART_DLL 1 ;;;
  outb UART_DLM 0 ;;;
  outb UART_LCR UART_LCR_WLEN8 ;;;
  ret (u32 (Z.lor dll (Z.shiftl dlm 8))).

(** "Restore prior port config" *)
Definition restore_config (snap : snapshot) : M W unit :=
  outb UART_FCR (old_fcr snap) ;;;
  outb UART_MCR (old_mcr snap) ;;;
  outb UART_LCR UART_LCR_CONF_MODE_A ;;;
  outb UART_DLL (Z.land (old_dl snap) 0xff) ;;;
  outb UART_DLM (Z.shiftr (old_dl snap) 8) ;;;
  outb UART_LCR (old_lcr snap).

(** "Drain RX FIFO":
    [while (serial_in(UART_LSR) & UART_LSR_DR) serial_in(UART_RX);] *)
Fixpoint drain_rx (fuel : nat) : M W unit :=
  match fuel with
  | O => out_of_fuel
  | S fuel' =>
    lsr <- inb UART_LSR ;;
    if Z.land lsr UART_LSR_DR =? 0 then ret tt
    else inb UART_RX ;;; drain_rx fuel'
  end.

(** *** rx_trig_probe_read *)

(** [!(iir & 0x01) && ((iir & 0x0E) == UART_IIR_RDI)] *)
Definition rdi_pending (iir : Z) : bool :=
  (Z.land iir 0x01 =? 0) && (Z.land iir 0x0E =? UART_IIR_RDI).

(** Lines 124-145: snapshot, loopback session, receive interrupt on. *)
Definition rx_trig_enter (u8250p : uart_8250_port) : M W snapshot :=
  lcr <- inb UART_LCR ;;
  let old_lcr := u8 lcr in
  let old_fcr := fcr u8250p in
  mcr <- inb UART_MCR ;;
  let old_mcr := u8 mcr in
  outb UART_FCR
    (Z.lor (Z.lor old_fcr UART_FCR_CLEAR_RCVR) UART_FCR_CLEAR_XMIT) ;;;
  outb UART_MCR (Z.lor old_mcr UART_MCR_LOOP) ;;;
  old_dl <- set_baud ;;
  outb UART_IER UART_IER_RDI ;;;
  ret {| old_lcr := old_lcr; old_fcr := old_fcr;
         old_mcr := old_mcr; old_dl := old_dl |}.

(** [for (trig = 1; trig < 256; trig++)]: [n] is the number of
    iterations left, 255 at entry; the value returned is that of [trig]
    after the loop. *)
Fixpoint rx_trig_loop (n : nat) (trig : Z) : M W Z :=
  match n with
  | O => ret trig
  | S n' =>
    outb UART_TX 0x55 ;;;
    pass (udelay 100) ;;;
    iir <- inb UART_IIR ;;
    if rdi_pending (u8 iir) then ret trig
    else rx_trig_loop n' (trig + 1)
  end.

Definition rx_trig_report (trig : Z) : probe_result :=
  if trig >=? 256 then Message rx_trig_failed else Count trig.

Definition rx_trig_body (fuel : nat) (u8250p : uart_8250_port)
  : M W probe_result :=
  snap <- rx_trig_enter u8250p ;;
  trig <- rx_trig_loop 255 1 ;;
  outb UART_IER 0x00 ;;;
  drain_rx fuel ;;;
  restore_config snap ;;;
  ret (rx_trig_report trig).

Definition rx_trig_probe_read (fuel : nat) (selected_dev : string)
  : M W probe_result :=
  match resolve_port selected_dev with
  | inl e => ret e
  | inr (_, u8250p) => rx_trig_body fuel u8250p
  end.

(** *** rx_fifo_size_read *)

(** Lines 246-263, shared verbatim with [tx_fifo_size_read] (352-369). *)
Definition fifo_size_enter (u8250p : uart_8250_port) : M W snapshot :=
  lcr <- inb UART_LCR ;;
  let old_lcr := u8 lcr in
  let old_fcr := fcr u8250p in
  mcr <- inb UART_MCR ;;
  let old_mcr := u8 mcr in
  outb UART_FCR
    (Z.lor (Z.lor UART_FCR_ENABLE_FIFO UART_FCR_CLEAR_RCVR)
           UART_FCR_CLEAR_XMIT) ;;;
  outb UART_MCR (Z.lor old_mcr UART_MCR_LOOP) ;;;
  old_dl <- set_baud ;;
  ret {| old_lcr := old_lcr; old_fcr := old_fcr;
         old_mcr := old_mcr; old_dl := old_dl |}.

(** [for (count_tx = 0; count_tx < FIFO_SIZE_MAX; count_tx++)]: [n] is
    the number of iterations left; the value returned is that of
    [rx_fifo_size] after the loop, which is initialised to 0 and only
    assigned before the [break]. *)
Fixpoint rx_fifo_loop (n : nat) (count_tx : Z) : M W Z :=
  match n with
  | O => ret 0
  | S n' =>
    outb UART_TX 0xff ;;;
    pass (mdelay 1) ;;;
    lsr <- inb UART_LSR ;;
    if Z.land (u8 lsr) UART_LSR_OE =? 0
    then rx_fifo_loop n' (count_tx + 1)
    else ret count_tx
  end.

Definition rx_fifo_report (rx_fifo_size : Z) : probe_result :=
  if rx_fifo_size =? 0 then Message rx_overflow_not_detected
  else Count rx_fifo_size.

Definition rx_fifo_body (u8250p : uart_8250_port) : M W probe_result :=
  snap <- fifo_size_enter u8250p ;;
  rx_fifo_size <- rx_fifo_loop (Z.to_nat FIFO_SIZE_MAX) 0 ;;
  restore_config snap ;;;
  ret (rx_fifo_report rx_fifo_size).

Definition rx_fifo_size_read (selected_dev : string) : M W probe_result :=
  match resolve_port selected_dev with
  | inl e => ret e
  | inr (_, u8250p) => rx_fifo_body u8250p
  end.

(** *** tx_fifo_size_read *)

(** "Fill TX FIFO": [for (i = 0; i < FIFO_SIZE_MAX; i++)], returning
    [tx_count]. *)
Fixpoint tx_fill (n : nat) (tx_count : Z) : M W Z :=
  match n with
  | O => ret tx_count
  | S n' => outb UART_TX 0xFF ;;; tx_fill n' (tx_count + 1)
  end.

(** "Count how many bytes we received":
    [while (time_before(jiffies, deadline) && rx_count < tx_count)]. *)
Fixpoint tx_fifo_count (fuel : nat) (deadline rx_count tx_count : Z)
  : M W Z :=
  match fuel with
  | O => out_of_fuel
  | S fuel' =>
    now <- read_jiffies ;;
    if time_before now deadline && (rx_count <? tx_count) then
      lsr <- inb UART_LSR ;;
      if Z.land (u8 lsr) UART_LSR_DR =? 0 then
        pass cpu_relax ;;;
        tx_fifo_count fuel' deadline rx_count tx_count
      else
        val <- inb UART_RX ;;
        if u8 val =? 0xFF
        then tx_fifo_count fuel' deadline (rx_count + 1) tx_count
        else tx_fifo_count fuel' deadline rx_count tx_count
    else ret rx_count
  end.

(** Lines 402-408.  [Message] names the literal the handler passes to
    [simple_read_from_buffer]; the length it passes with it is 42, which is
    more than the 39 characters of the literal and its NUL, so the bytes
    offered to the reader run past the literal. *)
Definition tx_fifo_report (rx_count : Z) : probe_result :=
  if rx_count =? 0 then Message tx_loopback_failed else Count rx_count.

(** The declaration [int line, i , rx_count, tx_count = 0;] initialises
    [tx_count] only: [rx_count] enters the counting loop with the
    indeterminate value of its stack slot, the parameter [rx_count] here. *)
Definition tx_fifo_body (fuel : nat) (rx_count : Z)
    (u8250p : uart_8250_port) : M W probe_result :=
  snap <- fifo_size_enter u8250p ;;
  tx_count <- tx_fill (Z.to_nat FIFO_SIZE_MAX) 0 ;;
  pass (mdelay 50) ;;;
  now <- read_jiffies ;;
  let deadline := ulong (now + msecs_to_jiffies 500) in
  rx_count <- tx_fifo_count fuel deadline rx_count tx_count ;;
  restore_config snap ;;;
  ret (tx_fifo_report rx_count).

Definition tx_fifo_size_read (fuel : nat) (rx_count : Z)
    (selected_dev : string) : M W probe_result :=
  match resolve_port selected_dev with
  | inl e => ret e
  | inr (_, u8250p) => tx_fifo_body fuel rx_count u8250p
  end.

(** *** tx_trig_probe_read *)

(** [!(iir & UART_IIR_NO_INT) && (iir & 0x0E) == UART_IIR_THRI] *)
Definition thri_pending (iir : Z) : bool :=
  (Z.land iir UART_IIR_NO_INT =? 0) && (Z.land iir 0x0E =? UART_IIR_THRI).

(** Lines 475-502.  Here the FIFO control value is not taken from the
    driver's shadow but read from the port at offset [UART_FCR]. *)
Definition tx_trig_enter (fuel : nat) : M W (snapshot * Z) :=
  lcr <- inb UART_LCR ;;
  let old_lcr := u8 lcr in
  outb UART_LCR 0x00 ;;;
  fcr <- inb UART_FCR ;;
  let old_fcr := u8 fcr in
  mcr <- inb UART_MCR ;;
  let old_mcr := u8 mcr in
  ier <- inb UART_IER ;;
  let old_ier := u8 ier in
  outb UART_FCR
    (Z.lor (Z.lor (Z.lor UART_FCR_ENABLE_FIFO UART_FCR_CLEAR_RCVR)
                  UART_FCR_CLEAR_XMIT) UART_FCR_TRIGGER_1) ;;;
  outb UART_MCR (Z.lor old_mcr UART_MCR_LOOP) ;;;
  drain_rx fuel ;;;
  old_dl <- set_baud ;;
  outb UART_IER UART_IER_THRI ;;;
  ret ({| old_lcr := old_lcr; old_fcr := old_fcr;
          old_mcr := old_mcr; old_dl := old_dl |}, old_ier).

(** "Fill THR, but don't overfill it!":
    [for (int i = 0; i <= port->fifosize; i++)], as a count of passes.
    [fifosize] is an [unsigned int] and [i] an [int]: the loop makes
    [fifosize + 1] passes as long as [fifosize < INT_MAX]; beyond that [i]
    overflows, and with [fifosize = UINT_MAX] the test never fails.  The
    count passed here is the loop's only for [0 <= fifosize < INT_MAX]. *)
Fixpoint thr_fill (n : nat) : M W unit :=
  match n with
  | O => ret tt
  | S n' => outb UART_TX 0xFF ;;; thr_fill n'
  end.

(** "Count how many bytes we rx until THR is empty":
    [while (time_before(jiffies, deadline))], returning [trig]. *)
Fixpoint tx_trig_loop (fuel : nat) (deadline trig rx_count : Z) : M W Z :=
  match fuel with
  | O => out_of_fuel
  | S fuel' =>
    now <- read_jiffies ;;
    if time_before now deadline then
      lsr <- inb UART_LSR ;;
      rx_count <- (if Z.land (u8 lsr) UART_LSR_DR =? 0 then ret rx_count
                   else inb UART_RX ;;; ret (rx_count + 1)) ;;
      iir <- inb UART_IIR ;;
      if thri_pending (u8 iir) then ret rx_count
      else pass cpu_relax ;;; tx_trig_loop fuel' deadline trig rx_count
    else ret trig
  end.

(** Lines 544-550, with the same literal and the same length 42 as in
    [tx_fifo_report]. *)
Definition tx_trig_report (trig : Z) : probe_result :=
  if trig =? 0 then Message tx_loopback_failed else Count trig.

(** The declaration [int line, trig, rx_count = 0;] initialises
    [rx_count] only: [trig] holds the indeterminate value of its stack
    slot until the loop assigns it, the parameter [trig] here. *)
Definition tx_trig_body (fuel : nat) (trig : Z) (port : uart_port)
  : M W probe_result :=
  entered <- tx_trig_enter fuel ;;
  let snap := fst entered in
  let old_ier := snd entered in
  thr_fill (Z.to_nat (fifosize port + 1)) ;;;
  now <- read_jiffies ;;
  let deadline := ulong (now + msecs_to_jiffies 1500) in
  trig <- tx_trig_loop fuel deadline trig 0 ;;
  outb UART_IER old_ier ;;;
  drain_rx fuel ;;;
  restore_config snap ;;;
  ret (tx_trig_report trig).

Definition tx_trig_probe_read (fuel : nat) (trig : Z)
    (selected_dev : string) : M W probe_result :=
  match resolve_port selected_dev with
  | inl e => ret e
  | inr (port, _) => tx_trig_body fuel trig port
  end.

End Probes.

(** ** A scripted 16550 register file

    A concrete port for running the handlers: the line control, modem
    control, FIFO control, interrupt enable and divisor registers hold the
    byte last written to them, with offsets 0 and 1 banked by the DLAB bit
    of the line control; offset 2 writes to the FIFO control and reads the
    interrupt identification.  What the status registers report is given by
    a script over the register file and two counters: the bytes written to
    the transmit register and the bytes read from the receive register.
    Every access and every delay advances a tick counter; the script says
    what [jiffies] reads, and HZ is 1000. *)

Module Sim.

Record regs := mkRegs {
  r_lcr : Z; r_mcr : Z; r_fcr : Z; r_ier : Z; r_dll : Z; r_dlm : Z;
  r_sent : Z;
  r_drained : Z;
  r_now : Z
}.

Record script := {
  iir_of : regs -> Z;
  lsr_of : regs -> Z;
  rbr_of : regs -> Z;
  jiffies_of : regs -> Z;
  find_driver : string -> option (tty_driver * Z)
}.

Definition dlab (r : regs) : bool := Z.testbit (r_lcr r) 7.

Definition tick (r : regs) : regs :=
  mkRegs (r_lcr r) (r_mcr r) (r_fcr r) (r_ier r) (r_dll r) (r_dlm r)
         (r_sent r) (r_drained r) (r_now r + 1).

Definition read (sc : script) (reg : Z) (r : regs) : Z * regs :=
  if reg =? 0 then
    if dlab r then (r_dll r, tick r)
    else (rbr_of sc r,
          mkRegs (r_lcr r) (r_mcr r) (r_fcr r) (r_ier r) (r_dll r) (r_dlm r)
                 (r_sent r) (r_drained r + 1) (r_now r + 1))
  else if reg =? 1 then ((if dlab r then r_dlm r else r_ier r), tick r)
  else if reg =? 2 then (iir_of sc r, tick r)
  else if reg =? 3 then (r_lcr r, tick r)
  else if reg =? 4 then (r_mcr r, tick r)
  else if reg =? 5 then (lsr_of sc r, tick r)
  else (0, tick r).

Definition write (reg v : Z) (r : regs) : regs :=
  let b := u8 v in
  let t := r_now r + 1 in
  if reg =? 0 then
    if dlab r
    then mkRegs (r_lcr r) (r_mcr r) (r_fcr r) (r_ier r) b (r_dlm r)
                (r_sent r) (r_drained r) t
    else mkRegs (r_lcr r) (r_mcr r) (r_fcr r) (r_ier r) (r_dll r) (r_dlm r)
                (r_sent r + 1) (r_drained r) t
  else if reg =? 1 then
    if dlab r
    then mkRegs (r_lcr r) (r_mcr r) (r_fcr r) (r_ier r) (r_dll r) b
                (r_sent r) (r_drained r) t
    else mkRegs (r_lcr r) (r_mcr r) (r_fcr r) b (r_dll r) (r_dlm r)
                (r_sent r) (r_drained r) t
  else if reg =? 2 then
    mkRegs (r_lcr r) (r_mcr r) b (r_ier r) (r_dll r) (r_dlm r)
           (r_sent r) (r_drained r) t
  else if reg =? 3 then
    mkRegs b (r_mcr r) (r_fcr r) (r_ier r) (r_dll r) (r_dlm r)
           (r_sent r) (r_drained r) t
  else if reg =? 4 then
    mkRegs (r_lcr r) b (r_fcr r) (r_ier r) (r_dll r) (r_dlm r)
           (r_sent r) (r_drained r) t
  else tick r.

Definition machine (sc : script) : Machine regs := {|
  serial_in := read sc;
  serial_out := write;
  udelay := fun _ => tick;
  mdelay := fun _ => tick;
  cpu_relax := tick;
  jiffies := jiffies_of sc;
  msecs_to_jiffies := fun m => m;
  tty_find_polling_driver := find_driver sc
|}.

(** A port of rated FIFO size 16 whose driver shadow of the FIFO control is
    [shadow], found under every name as line 0, idle. *)
Definition port16 (shadow : Z) : uart_port := {|
  has_serial_in := true; has_serial_out := true; fifosize := 16;
  up_to_u8250p := Some {| fcr := shadow |}
|}.

Definition idle_tport (shadow : Z) : tty_port := {|
  tty_port_initialized := false; tty_port_users := 0;
  state_uart_port := Some (port16 shadow)
|}.

Definition find_idle (shadow : Z) : string -> option (tty_driver * Z) :=
  fun _ => Some ({| ports := fun line =>
                      if line =? 0 then Some (idle_tport shadow) else None |},
                 0).

(** A port that is open: initialised, with one user. *)
Definition find_busy : string -> option (tty_driver * Z) :=
  fun _ => Some ({| ports := fun _ => Some {|
                      tty_port_initialized := true; tty_port_users := 1;
                      state_uart_port := Some (port16 0x01) |} |}, 0).

(** Status values: no interrupt pending with FIFOs enabled; transmitter
    empty and idle, without and with received data. *)
Definition IIR_IDLE : Z := 0xC1.
Definition LSR_IDLE : Z := 0x60.
Definition LSR_DATA : Z := 0x61.

(** A port at rest: 8N1, FIFO enabled with trigger level 8 ([0x81]),
    modem control [0x0b], divisor [0x000c] (9600 baud), receive and
    line-status interrupts enabled. *)
Definition at_rest : regs :=
  mkRegs 0x03 0x0b 0x81 0x05 0x0c 0x00 0 0 1000.

Definition start : st regs := mkSt at_rest [].

End Sim.

(** ** Port binding failures *)

Section Binding.
Context {W : Type} {mach : Machine W}.

(** The failures of the port binding, as the specification lists them: no
    device of that name, no port on the line, a port without raw register
    access, a port that is not of the 8250 family (all [-ENODEV]), and a
    device that is initialised and has users ([-EBUSY]). *)
Inductive binding_failure (selected_dev : string) : probe_result -> Prop :=
| device_not_found :
    tty_find_polling_driver selected_dev = None ->
    binding_failure selected_dev (Errno (- ENODEV))
| port_missing driver line :
    tty_find_polling_driver selected_dev = Some (driver, line) ->
    ports driver line = None ->
    binding_failure selected_dev (Errno (- ENODEV))
| uart_port_missing driver line tport :
    tty_find_polling_driver selected_dev = Some (driver, line) ->
    ports driver line = Some tport ->
    state_uart_port tport = None ->
    binding_failure selected_dev (Errno (- ENODEV))
| register_access_missing driver line tport port :
    tty_find_polling_driver selected_dev = Some (driver, line) ->
    ports driver line = Some tport ->
    state_uart_port tport = Some port ->
    has_serial_in port = false \/ has_serial_out port = false ->
    binding_failure selected_dev (Errno (- ENODEV))
| not_8250 driver line tport port :
    tty_find_polling_driver selected_dev = Some (driver, line) ->
    ports driver line = Some tport ->
    state_uart_port tport = Some port ->
    up_to_u8250p port = None ->
    binding_failure selected_dev (Errno (- ENODEV))
| device_busy driver line tport port u8250p :
    tty_find_polling_driver selected_dev = Some (driver, line) ->
    ports driver line = Some tport ->
    state_uart_port tport = Some port ->
    has_serial_in port = true ->
    has_serial_out port = true ->
    up_to_u8250p port = Some u8250p ->
    tty_port_initialized tport = true ->
    0 < tty_port_users tport ->
    binding_failure selected_dev (Errno (- EBUSY)).

End Binding.

(** ** Write sequences *)

(** The writes of [set_baud] and of [restore_config], in program order. *)
Definition baud_writes : list (Z * Z) :=
  [(UART_LCR, UART_LCR_CONF_MODE_A); (UART_DLL, 1); (UART_DLM, 0);
   (UART_LCR, UART_LCR_WLEN8)].

Definition restore_writes (snap : snapshot) : list (Z * Z) :=
  [(UART_FCR, old_fcr snap); (UART_MCR, old_mcr snap);
   (UART_LCR, UART_LCR_CONF_MODE_A);
   (UART_DLL, Z.land (old_dl snap) 0xff);
   (UART_DLM, Z.shiftr (old_dl snap) 8);
   (UART_LCR, old_lcr snap)].

(** ** Descriptions of port behaviour

    The claims speak of ports that report a condition "when [n] bytes have
    been transmitted" or "drained".  Such a port is described by a counter
    read off its state and a predicate [meas] that holds of its states
    during a measurement. *)

Section Handles.
Context {W : Type} {mach : Machine W}.

(** The receive queue empties: every pass of the drain loop that finds
    data ready leaves fewer bytes pending. *)
Definition rx_drains (pending : W -> nat) : Prop :=
  forall w,
    Z.land (fst (serial_in UART_LSR w)) UART_LSR_DR <> 0 ->
    (pending (snd (serial_in UART_RX (snd (serial_in UART_LSR w))))
     < pending w)%nat.

(** [sent] counts the bytes written to the transmit register. *)
Record tx_counter (meas : W -> Prop) (sent : W -> Z) : Prop := {
  txc_write : forall w v, meas w ->
    meas (serial_out UART_TX v w) /\ sent (serial_out UART_TX v w) = sent w + 1;
  txc_udelay : forall w n, meas w ->
    meas (udelay n w) /\ sent (udelay n w) = sent w;
  txc_mdelay : forall w n, meas w ->
    meas (mdelay n w) /\ sent (mdelay n w) = sent w;
  txc_iir : forall w, meas w ->
    meas (snd (serial_in UART_IIR w)) /\ sent (snd (serial_in UART_IIR w)) = sent w;
  txc_lsr : forall w, meas w ->
    meas (snd (serial_in UART_LSR w)) /\ sent (snd (serial_in UART_LSR w)) = sent w
}.

(** [drained] counts the bytes read from the receive register. *)
Record rx_counter (meas : W -> Prop) (drained : W -> Z) : Prop := {
  rxc_read : forall w, meas w ->
    meas (snd (serial_in UART_RX w)) /\
    drained (snd (serial_in UART_RX w)) = drained w + 1;
  rxc_lsr : forall w, meas w ->
    meas (snd (serial_in UART_LSR w)) /\
    drained (snd (serial_in UART_LSR w)) = drained w;
  rxc_iir : forall w, meas w ->
    meas (snd (serial_in UART_IIR w)) /\
    drained (snd (serial_in UART_IIR w)) = drained w;
  rxc_relax : forall w, meas w ->
    meas (cpu_relax w) /\ drained (cpu_relax w) = drained w
}.

(** The operations of the two deadline loops. *)
Inductive poll_op := poll_lsr | poll_rx | poll_iir | poll_relax.

Definition do_poll (w : W) (op : poll_op) : W :=
  match op with
  | poll_lsr => snd (serial_in UART_LSR w)
  | poll_rx => snd (serial_in UART_RX w)
  | poll_iir => snd (serial_in UART_IIR w)
  | poll_relax => cpu_relax w
  end.

(** Polling takes time: a burst of one to four polling operations begun
    before the deadline [d] ends strictly closer to it, as measured by
    [left d]. *)
Definition clock_advances (left : Z -> W -> nat) : Prop :=
  forall d w ops,
    time_before (jiffies w) d = true ->
    ops <> [] -> (List.length ops <= 4)%nat ->
    (left d (fold_left do_poll ops w) < left d w)%nat.

(** The port after one pass of the counting loop of the TX trigger probe
    that does not end the loop (lines 510-523): the line status is read,
    the receive register when the status shows data ready, then the
    interrupt identification, then [cpu_relax]. *)
Definition tx_trig_pass (w : W) : W :=
  let w1 := snd (serial_in UART_LSR w) in
  let w2 := if Z.land (u8 (fst (serial_in UART_LSR w))) UART_LSR_DR =? 0
            then w1 else snd (serial_in UART_RX w1) in
  cpu_relax (snd (serial_in UART_IIR w2)).

(** The first [T] bytes arrive before the deadline [d]: as long as fewer
    than [T] have been drained, a pass of the counting loop begins with
    the deadline ahead ([ahead] is what is true at the head of every such
    pass), and a pass that finds no data ready leaves less to wait. *)
Definition bytes_arrive_in_time (meas ahead : W -> Prop) (drained : W -> Z)
    (wait : W -> nat) (T d : Z) : Prop :=
  forall w, meas w -> ahead w -> drained w < T ->
    time_before (jiffies w) d = true /\
    ahead (tx_trig_pass w) /\
    (Z.land (u8 (fst (serial_in UART_LSR w))) UART_LSR_DR = 0 ->
     (wait (tx_trig_pass w) < wait w)%nat).

End Handles.

(** ** Scripts for the register file *)

Definition busy_script : Sim.script := {|
  Sim.iir_of := fun _ => Sim.IIR_IDLE;
  Sim.lsr_of := fun _ => Sim.LSR_IDLE;
  Sim.rbr_of := fun _ => 0xFF;
  Sim.jiffies_of := Sim.r_now;
  Sim.find_driver := Sim.find_busy
|}.

(** The receive-data interrupt is pending exactly when [k] bytes have been
    written to the transmit register; no received data is ever reported. *)
Definition rx_trig_script (k : Z) : Sim.script := {|
  Sim.iir_of := fun r => if Sim.r_sent r =? k then 0xC4 else Sim.IIR_IDLE;
  Sim.lsr_of := fun _ => Sim.LSR_IDLE;
  Sim.rbr_of := fun _ => 0xFF;
  Sim.jiffies_of := Sim.r_now;
  Sim.find_driver := Sim.find_idle 0x81
|}.

(** The receive-data interrupt is pending exactly when [k] bytes have been
    written to the transmit register, and the data-ready bit of the line
    status never clears. *)
Definition rx_trig_stuck_script (k : Z) : Sim.script := {|
  Sim.iir_of := fun r => if Sim.r_sent r =? k then 0xC4 else Sim.IIR_IDLE;
  Sim.lsr_of := fun _ => Sim.LSR_DATA;
  Sim.rbr_of := fun _ => 0xFF;
  Sim.jiffies_of := Sim.r_now;
  Sim.find_driver := Sim.find_idle 0x81
|}.

(** No interrupt is ever pending and no data ever arrives. *)
Definition silent_script : Sim.script := {|
  Sim.iir_of := fun _ => Sim.IIR_IDLE;
  Sim.lsr_of := fun _ => Sim.LSR_IDLE;
  Sim.rbr_of := fun _ => 0xFF;
  Sim.jiffies_of := Sim.r_now;
  Sim.find_driver := Sim.find_idle 0x81
|}.

(** The register file is in operating mode: offsets 0 and 1 are the data
    and interrupt-enable registers. *)
Definition operating (r : Sim.regs) : Prop := Sim.dlab r = false.

(** The overrun-error bit is set in every line-status read once [n] bytes
    have been written to the transmit register, and never before. *)
Definition rx_overrun_script (n : Z) : Sim.script := {|
  Sim.iir_of := fun _ => Sim.IIR_IDLE;
  Sim.lsr_of := fun r => if n <=? Sim.r_sent r then 0x62 else Sim.LSR_IDLE;
  Sim.rbr_of := fun _ => 0xFF;
  Sim.jiffies_of := Sim.r_now;
  Sim.find_driver := Sim.find_idle 0x81
|}.

(** The transmit-holding-register-empty interrupt is pending exactly when
    [t] bytes have been read from the receive register.  In operating mode,
    once something has been transmitted, data is ready until [t] bytes have
    been read.  The clock advances by one jiffy per byte read. *)
Definition tx_trig_script (t : Z) : Sim.script := {|
  Sim.iir_of := fun r => if Sim.r_drained r =? t then 0xC2 else Sim.IIR_IDLE;
  Sim.lsr_of := fun r =>
    if negb (Sim.dlab r) && (0 <? Sim.r_sent r) && (Sim.r_drained r <? t)
    then Sim.LSR_DATA else Sim.LSR_IDLE;
  Sim.rbr_of := fun _ => 0xFF;
  Sim.jiffies_of := fun r => 1000 + Sim.r_drained r;
  Sim.find_driver := Sim.find_idle 0x81
|}.

(** A slower loopback with a running clock: the clock ticks with every
    access, data is ready only at odd ticks, and the transmit-holding-empty
    interrupt is pending exactly when [t] bytes have been read from the
    receive register. *)
Definition tx_trig_slow_script (t : Z) : Sim.script := {|
  Sim.iir_of := fun r => if Sim.r_drained r =? t then 0xC2 else Sim.IIR_IDLE;
  Sim.lsr_of := fun r =>
    if negb (Sim.dlab r) && (0 <? Sim.r_sent r) && (Sim.r_drained r <? t)
       && Z.odd (Sim.r_now r)
    then Sim.LSR_DATA else Sim.LSR_IDLE;
  Sim.rbr_of := fun _ => 0xFF;
  Sim.jiffies_of := Sim.r_now;
  Sim.find_driver := Sim.find_idle 0x81
|}.

(** What holds at the head of every pass on the slower port started at
    rest: the clock has read between 1032 and 1068. *)
Definition slow_ahead (r : Sim.regs) : Prop :=
  1032 <= Sim.r_now r /\
  Sim.r_now r + 8 * (4 - Sim.r_drained r)
  + (if Z.odd (Sim.r_now r) then 0 else 4) <= 1068.

Definition slow_wait (r : Sim.regs) : nat :=
  if Z.odd (Sim.r_now r) then 0%nat else 1%nat.

(** Operating mode, with bytes in flight. *)
Definition transmitting (r : Sim.regs) : Prop :=
  Sim.dlab r = false /\ 0 < Sim.r_sent r /\ 0 <= Sim.r_drained r.

(** A loopback that echoes [m] bytes: in operating mode, once something
    has been transmitted, data is ready until [m] bytes have been read,
    each of them [0xFF].  The clock ticks with every access. *)
Definition tx_echo_script (m : Z) : Sim.script := {|
  Sim.iir_of := fun _ => Sim.IIR_IDLE;
  Sim.lsr_of := fun r =>
    if negb (Sim.dlab r) && (0 <? Sim.r_sent r) && (Sim.r_drained r <? m)
    then Sim.LSR_DATA else Sim.LSR_IDLE;
  Sim.rbr_of := fun _ => 0xFF;
  Sim.jiffies_of := Sim.r_now;
  Sim.find_driver := Sim.find_idle 0x81
|}.

(** The data-ready bit of the line status never clears. *)
Definition stuck_ready_script : Sim.script := {|
  Sim.iir_of := fun _ => Sim.IIR_IDLE;
  Sim.lsr_of := fun _ => Sim.LSR_DATA;
  Sim.rbr_of := fun _ => 0xFF;
  Sim.jiffies_of := Sim.r_now;
  Sim.find_driver := Sim.find_idle 0x81
|}.

(** Jiffies left until the deadline [d] on a clock that reads [now]. *)
Definition jiffies_left (d now : Z) : nat :=
  if time_before now d then Z.to_nat (- to_long (now - d)) else 0%nat.

(** The configuration registers of the register file. *)
Definition cfg_of (r : Sim.regs) : Z * Z * Z * Z * Z * Z :=
  (Sim.r_lcr r, Sim.r_mcr r, Sim.r_fcr r, Sim.r_ier r, Sim.r_dll r,
   Sim.r_dlm r).

(** A port without FIFO: the driver's shadow of the FIFO control and the
    register itself are 0. *)
Definition at_rest_no_fifo : Sim.regs :=
  Sim.mkRegs 0x03 0x0b 0x00 0x05 0x0c 0x00 0 0 1000.

(** The writes of [rx_trig_enter], in program order. *)
Definition rx_trig_enter_writes (snap : snapshot) : list (Z * Z) :=
  [(UART_FCR, Z.lor (Z.lor (old_fcr snap) UART_FCR_CLEAR_RCVR)
                    UART_FCR_CLEAR_XMIT);
   (UART_MCR, Z.lor (old_mcr snap) UART_MCR_LOOP)]
  ++ baud_writes ++ [(UART_IER, UART_IER_RDI)].

(** Every configuration register holds a byte. *)
Definition byte_regs (r : Sim.regs) : Prop :=
  0 <= Sim.r_lcr r < 256 /\ 0 <= Sim.r_mcr r < 256 /\
  0 <= Sim.r_fcr r < 256 /\ 0 <= Sim.r_ier r < 256 /\
  0 <= Sim.r_dll r < 256 /\ 0 <= Sim.r_dlm r < 256.

(** A port without FIFO that reports nothing. *)
Definition no_fifo_script : Sim.script := {|
  Sim.iir_of := fun _ => 0x01;
  Sim.lsr_of := fun _ => Sim.LSR_IDLE;
  Sim.rbr_of := fun _ => 0xFF;
  Sim.jiffies_of := Sim.r_now;
  Sim.find_driver := Sim.find_idle 0x00
|}.

(** ** Further write sequences *)

(** The writes of [fifo_size_enter] and of [tx_trig_enter], in program
    order. *)
Definition fifo_size_enter_writes (snap : snapshot) : list (Z * Z) :=
  [(UART_FCR, Z.lor (Z.lor UART_FCR_ENABLE_FIFO UART_FCR_CLEAR_RCVR)
                    UART_FCR_CLEAR_XMIT);
   (UART_MCR, Z.lor (old_mcr snap) UART_MCR_LOOP)]
  ++ baud_writes.

Definition tx_trig_enter_writes (snap : snapshot) : list (Z * Z) :=
  [(UART_LCR, 0x00);
   (UART_FCR, Z.lor (Z.lor (Z.lor UART_FCR_ENABLE_FIFO UART_FCR_CLEAR_RCVR)
                           UART_FCR_CLEAR_XMIT) UART_FCR_TRIGGER_1);
   (UART_MCR, Z.lor (old_mcr snap) UART_MCR_LOOP)]
  ++ baud_writes ++ [(UART_IER, UART_IER_THRI)].

(** ** Device selection (uart_probe.c, lines 32-65)

    [selected_dev] is a 16-byte array; the write handler copies the user's
    bytes over its beginning and cuts the string at the first newline.
    [copy_from_user], a kernel service, is a parameter: it takes the
    destination array and a length and gives back the number of bytes it
    could not copy and the array as it leaves it. *)

Definition EINVAL : Z := 22.
Definition EFAULT : Z := 14.

Definition NUL : ascii := zero.
Definition LF : ascii := ascii_of_nat 10.

(** [sizeof(selected_dev)] *)
Definition SELECTED_DEV_SIZE : Z := 16.

(** [static char selected_dev[16] = "ttyS0";] *)
Definition selected_dev_initial : list ascii :=
  list_ascii_of_string "ttyS0" ++ repeat NUL 11.

(** [strcspn(s, reject)]: the number of characters of the C string [s]
    before the first one that is in [reject]. *)
Fixpoint strcspn (s reject : list ascii) : nat :=
  match s with
  | [] => 0%nat
  | c :: t =>
    if Ascii.eqb c NUL || existsb (Ascii.eqb c) reject then 0%nat
    else S (strcspn t reject)
  end.

(** [buf[i] = c].  An index past the end leaves the list as it is (the C
    program would write outside the array). *)
Fixpoint store (buf : list ascii) (i : nat) (c : ascii) : list ascii :=
  match buf, i with
  | [], _ => []
  | _ :: t, O => c :: t
  | x :: t, S i' => x :: store t i' c
  end.

(** The C string that starts an array. *)
Fixpoint c_str (buf : list ascii) : string :=
  match buf with
  | [] => EmptyString
  | c :: t => if Ascii.eqb c NUL then EmptyString else String c (c_str t)
  end.

Definition select_dev_write
    (copy_from_user : list ascii -> nat -> Z * list ascii)
    (selected_dev : list ascii) (count : Z) : Z * list ascii :=
  if (count =? 0) || (count >=? SELECTED_DEV_SIZE)
  then (- EINVAL, selected_dev)
  else
    let copied := copy_from_user selected_dev (Z.to_nat count) in
    if negb (fst copied =? 0) then (- EFAULT, snd copied)
    else (count, store (snd copied) (strcspn (snd copied) [LF]) NUL).

(** The first [n] characters of a string. *)
Fixpoint str_take (n : nat) (s : string) : string :=
  match n, s with
  | S n', String c t => String c (str_take n' t)
  | _, _ => EmptyString
  end.

(** [len = snprintf(tmp, sizeof(tmp), "%s\n", selected_dev)] with
    [char tmp[32]]: the text left in [tmp] and [len], which are what the
    handler passes to [simple_read_from_buffer]. *)
Definition select_dev_read (selected_dev : list ascii) : string * Z :=
  let text := (c_str selected_dev ++ nl)%string in
  (str_take 31 text, Z.of_nat (String.length text)).

(** The array has its 16 bytes and ends in NUL. *)
Definition nul_terminated (buf : list ascii) : Prop :=
  List.length buf = 16%nat /\ nth_error buf 15 = Some NUL.

(** [copy_from_user] writes nothing past the [n] bytes it was asked for. *)
Definition copies_within
    (copy_from_user : list ascii -> nat -> Z * list ascii) : Prop :=
  forall dest n,
    (n <= List.length dest)%nat ->
    List.length (snd (copy_from_user dest n)) = List.length dest /\
    skipn n (snd (copy_from_user dest n)) = skipn n dest.

(** A character that ends neither a C string nor a line. *)
Definition plain (c : ascii) : Prop := c <> NUL /\ c <> LF.

(** A readable user buffer that holds [data], followed by zero bytes. *)
Definition user_holds (data : list ascii)
  : list ascii -> nat -> Z * list ascii :=
  fun dest n => (0, firstn n (data ++ repeat NUL n) ++ skipn n dest).

(** ** The earlier stand-alone module (uart_rx_trig_test.c)

    Its [rx_trig_probe_read] has the same body as the one of uart_probe.c
    (the two differ in log messages only) but a shorter preamble: the
    result of [up_to_u8250p] is used unchecked and the port is not tested
    for being in use. *)

(** What a call does: it returns, or it dereferences a null [u8250p]
    (at [old_fcr = u8250p->fcr], after the first register read). *)
Inductive outcome :=
| Returned (r : probe_result)
| NullDereference.

Section RxTrigTest.
Context {W : Type} {mach : Machine W}.

(** Lines 73-93 of uart_rx_trig_test.c. *)
Definition rx_trig_test_resolve (selected_tty : string)
  : probe_result + (uart_port * option uart_8250_port) :=
  match tty_find_polling_driver selected_tty with
  | None => inl (Errno (- ENODEV))
  | Some (driver, line) =>
    match ports driver line with
    | None => inl (Errno (- ENODEV))
    | Some tport =>
      match state_uart_port tport with
      | None => inl (Errno (- ENODEV))
      | Some port =>
        if negb (has_serial_in port) || negb (has_serial_out port)
        then inl (Errno (- ENODEV))
        else inr (port, up_to_u8250p port)
      end
    end
  end.

Definition rx_trig_test_probe_read (fuel : nat) (selected_tty : string)
  : M W outcome :=
  match rx_trig_test_resolve selected_tty with
  | inl e => ret (Returned e)
  | inr (_, Some u8250p) =>
    r <- rx_trig_body fuel u8250p ;; ret (Returned r)
  | inr (_, None) => inb UART_LCR ;;; ret NullDereference
  end.

End RxTrigTest.

(** ** Module initialisation (uart_probe.c, lines 559-584)

    [debugfs_create_dir] and [debugfs_create_file] hand back a pointer: a
    null pointer, an error pointer or an entry.  The code tests each
    pointer with [!], which holds of the null pointer only.  What the
    calls return is a parameter, [created], by the name asked for; the
    result of [uart_probe_debugfs_init] is the value it returns together
    with the debugfs calls it made, in program order. *)

Definition ENOMEM : Z := 12.

Inductive dentry :=
| NullPtr
| ErrPtr (errno : Z)
| Entry (name : string).

(** [!ptr] *)
Definition is_null (d : dentry) : bool :=
  match d with
  | NullPtr => true
  | _ => false
  end.

Inductive debugfs_call :=
| create_dir (name : string)
| create_file (name : string)
| remove_recursive (dir : dentry).

Section Init.
Variable created : string -> dentry.

Definition uart_probe_debugfs_init : Z * list debugfs_call :=
  let dir_entry := created "uart_probe" in
  if is_null dir_entry then (- ENOMEM, [create_dir "uart_probe"])
  else
    let dev_entry := created "select_dev" in
    let rx_fifo_entry := created "rx_fifo_size" in
    let rx_trig_entry := created "rx_trig_level" in
    let calls := [create_dir "uart_probe"; create_file "select_dev";
                  create_file "tx_fifo_size"; create_file "tx_trig_level";
                  create_file "rx_fifo_size"; create_file "rx_trig_level"] in
    if is_null dev_entry || is_null rx_fifo_entry || is_null rx_trig_entry
    then (- ENOMEM, calls ++ [remove_recursive dir_entry])
    else (0, calls).

Definition uart_probe_debugfs_exit : list debugfs_call :=
  [remove_recursive (created "uart_probe")].

End Init.

(** ** The round-trip tool (rtt_test.c)

    [main] as the sequence of calls it makes and its exit status, given
    what the calls return.  The elapsed time it prints is a [double] and is
    left out; [say_rtt] stands for the line that carries it. *)

Definition TEST_BYTE : Z := 0xA5.

(** What the system calls return; [read_byte] is what [read] stores in
    [rx] when it stores anything. *)
Record rtt_env := {
  open_ret : Z; tcgetattr_ret : Z; tcsetattr_ret : Z;
  write_ret : Z; select_ret : Z; read_ret : Z; read_byte : Z
}.

Inductive rtt_call :=
| call_open | call_tcgetattr | call_tcsetattr | call_tcflush
| call_write (byte : Z) | call_gettimeofday | call_select | call_read
| call_close
| say (text : string)
| say_rtt.

Definition is_close (c : rtt_call) : bool :=
  match c with call_close => true | _ => false end.

Definition is_rtt (c : rtt_call) : bool :=
  match c with say_rtt => true | _ => false end.

Definition rtt_main (argc : Z) (env : rtt_env) : list rtt_call * Z :=
  if argc <? 2 then ([say "Usage"], 1)
  else if open_ret env <? 0 then ([call_open; say "open"], 1)
  else if negb (tcgetattr_ret env =? 0)
  then ([call_open; call_tcgetattr; say "tcgetattr"; call_close], 1)
  else if negb (tcsetattr_ret env =? 0)
  then ([call_open; call_tcgetattr; call_tcsetattr; say "tcsetattr";
         call_close], 1)
  else
    let setup := [call_open; call_tcgetattr; call_tcsetattr; call_tcflush;
                  call_write TEST_BYTE] in
    if negb (write_ret env =? 1)
    then (setup ++ [say "write"; call_close], 1)
    else if select_ret env =? -1
    then (setup ++ [call_gettimeofday; call_select; say "select";
                    call_close], 1)
    else if select_ret env =? 0
    then (setup ++ [call_gettimeofday; call_select;
                    say "Timeout waiting for response."; call_close], 1)
    else
      (setup ++ [call_gettimeofday; call_select; call_read;
                 call_gettimeofday;
                 (if (read_ret env =? 1) && (u8 (read_byte env) =? TEST_BYTE)
                  then say_rtt
                  else say "Received invalid or no byte.");
                 call_close], 0).

(** *** The line settings (rtt_test.c, lines 42-53)

    Flag values of <asm-generic/termbits.h>; [tcflag_t] is [unsigned int].
    The two [cfset*speed] calls before these lines are library calls on the
    same structure and are left out: [configure] starts from the structure
    as they leave it. *)

Definition IGNBRK : Z := 0x1.          (* 0000001 *)
Definition IXON   : Z := 0x400.        (* 0002000 *)
Definition IXANY  : Z := 0x800.        (* 0004000 *)
Definition IXOFF  : Z := 0x1000.       (* 0010000 *)
Definition CSIZE  : Z := 0x30.         (* 0000060 *)
Definition CS8    : Z := 0x30.         (* 0000060 *)
Definition CSTOPB : Z := 0x40.         (* 0000100 *)
Definition CREAD  : Z := 0x80.         (* 0000200 *)
Definition PARENB : Z := 0x100.        (* 0000400 *)
Definition PARODD : Z := 0x200.        (* 0001000 *)
Definition CLOCAL : Z := 0x800.        (* 0004000 *)
Definition CRTSCTS : Z := 0x80000000.  (* 020000000000 *)

Record termios := {
  c_iflag : Z; c_oflag : Z; c_cflag : Z; c_lflag : Z;
  c_cc_VMIN : Z; c_cc_VTIME : Z
}.

Definition configure (tty : termios) : termios :=
  let cflag1 := u32 (Z.lor (Z.land (c_cflag tty) (u32 (Z.lnot CSIZE))) CS8) in
  let iflag1 := u32 (Z.land (c_iflag tty) (u32 (Z.lnot IGNBRK))) in
  let iflag2 :=
    u32 (Z.land iflag1 (u32 (Z.lnot (Z.lor (Z.lor IXON IXOFF) IXANY)))) in
  let cflag2 := u32 (Z.lor cflag1 (Z.lor CLOCAL CREAD)) in
  let cflag3 := u32 (Z.land cflag2 (u32 (Z.lnot (Z.lor PARENB PARODD)))) in
  let cflag4 := u32 (Z.land cflag3 (u32 (Z.lnot CSTOPB))) in
  let cflag5 := u32 (Z.land cflag4 (u32 (Z.lnot CRTSCTS))) in
  {| c_iflag := iflag2; c_oflag := 0; c_cflag := cflag5; c_lflag := 0;
     c_cc_VMIN := 0; c_cc_VTIME := 0 |}.


(** * Proofs *)

Arguments u8 : simpl never.
Arguments u32 : simpl never.
Arguments ulong : simpl never.
Arguments time_before : simpl never.
Arguments Z.lor : simpl never.
Arguments Z.land : simpl never.
Arguments Z.shiftl : simpl never.
Arguments Z.shiftr : simpl never.
Arguments Z.to_nat : simpl never.
Arguments Z.testbit : simpl never.

(** ** Port binding *)

Section BindingFacts.
Context {W : Type} {mach : Machine W}.

Lemma binding_failure_resolve selected_dev e :
  binding_failure selected_dev e -> resolve_port selected_dev = inl e.
Proof.
  unfold resolve_port.
  destruct 1 as [Hf | d l Hf Hp | d l tp Hf Hp Hu | d l tp p Hf Hp Hu Hops
                 | d l tp p Hf Hp Hu H8 | d l tp p u Hf Hp Hu Hi Ho H8 Hin Hus];
    rewrite Hf; try rewrite Hp; try rewrite Hu; try reflexivity.
  - destruct Hops as [Hin | Hout].
    + now rewrite Hin.
    + rewrite Hout. now destruct (has_serial_in p).
  - rewrite H8. now destruct (negb (has_serial_in p) || negb (has_serial_out p)).
  - rewrite Hi, Ho, H8, Hin. cbn.
    now replace (tty_port_users tp >? 0) with true by (symmetry; apply Z.gtb_lt; lia).
Qed.

(** Conversely [resolve_port] reports nothing but these failures. *)
Lemma resolve_binding_failure selected_dev e :
  resolve_port selected_dev = inl e -> binding_failure selected_dev e.
Proof.
  unfold resolve_port.
  destruct (tty_find_polling_driver selected_dev) as [[d l] |] eqn:Hf;
    [| intros [= <-]; now apply device_not_found].
  destruct (ports d l) as [tp |] eqn:Hp;
    [| intros [= <-]; now apply port_missing with d l].
  destruct (state_uart_port tp) as [p |] eqn:Hu;
    [| intros [= <-]; now apply uart_port_missing with d l tp].
  destruct (has_serial_in p) eqn:Hi; cbn;
    [| intros [= <-]; apply register_access_missing with d l tp p; auto].
  destruct (has_serial_out p) eqn:Ho; cbn;
    [| intros [= <-]; apply register_access_missing with d l tp p; auto].
  destruct (up_to_u8250p p) as [u |] eqn:H8;
    [| intros [= <-]; now apply not_8250 with d l tp p].
  destruct (tty_port_initialized tp) eqn:Hin; cbn; [| discriminate].
  destruct (tty_port_users tp >? 0) eqn:Hus; [| discriminate].
  intros [= <-]. apply device_busy with d l tp p u; auto.
  now apply Z.gtb_lt.
Qed.

End BindingFacts.


(** C2.  When the port binding fails (device not found, port missing, no
    raw register access, not an 8250-family device) or the device is busy
    (initialised with users), each of the four probes returns the
    corresponding error at once: the port state is the one it was called
    with and the list of register writes has not grown. *)
Theorem probe_binding_failure_touches_nothing :
  forall (W : Type) (mach : Machine W) (selected_dev : string)
         (e : probe_result),
    binding_failure selected_dev e ->
    forall (fuel : nat) (indeterminate : Z) (s : st W),
      rx_trig_probe_read fuel selected_dev s = Some (e, s) /\
      rx_fifo_size_read selected_dev s = Some (e, s) /\
      tx_fifo_size_read fuel indeterminate selected_dev s = Some (e, s) /\
      tx_trig_probe_read fuel indeterminate selected_dev s = Some (e, s).
Proof.
  intros W mach sel e Hfail fuel g s.
  apply binding_failure_resolve in Hfail.
  unfold rx_trig_probe_read, rx_fifo_size_read, tx_fifo_size_read,
    tx_trig_probe_read.
  rewrite Hfail. repeat split.
Qed.

Lemma probe_binding_failure_witness :
  @rx_trig_probe_read _ (Sim.machine busy_script) 0 "ttyS0" Sim.start
    = Some (Errno (-16), Sim.start) /\
  @rx_fifo_size_read _ (Sim.machine busy_script) "ttyS0" Sim.start
    = Some (Errno (-16), Sim.start) /\
  @tx_fifo_size_read _ (Sim.machine busy_script) 0 0 "ttyS0" Sim.start
    = Some (Errno (-16), Sim.start) /\
  @tx_trig_probe_read _ (Sim.machine busy_script) 0 0 "ttyS0" Sim.start
    = Some (Errno (-16), Sim.start).
Proof.
  apply (@probe_binding_failure_touches_nothing _ (Sim.machine busy_script)
           "ttyS0" (Errno (- EBUSY))).
  eapply (@device_busy _ (Sim.machine busy_script)); try reflexivity.
Defined.

(** ** Running the phases of a probe *)

Section Runs.
Context {W : Type} {mach : Machine W}.

Lemma bind_run {A B} (m : M W A) (k : A -> M W B) s a s' :
  m s = Some (a, s') -> bind m k s = k a s'.
Proof. unfold bind. now intros ->. Qed.

Lemma bind_inv {A B} (m : M W A) (k : A -> M W B) s r :
  bind m k s = Some r -> exists a s', m s = Some (a, s') /\ k a s' = Some r.
Proof.
  unfold bind. destruct (m s) as [[a s'] |]; [| discriminate].
  intros Hk. now exists a, s'.
Qed.

Lemma some_pair_inj {A B} (a a' : A) (b b' : B) :
  Some (a, b) = Some (a', b') -> a = a' /\ b = b'.
Proof. now intros [= -> ->]. Qed.

Lemma restore_config_run snap (s : st W) :
  exists w, restore_config snap s
            = Some (tt, mkSt w (wlog s ++ restore_writes snap)).
Proof.
  unfold restore_config, restore_writes, bind, outb. cbn.
  repeat rewrite <- app_assoc. cbn. eauto.
Qed.

Lemma set_baud_run (s : st W) :
  exists w, set_baud s
            = Some (u32 (Z.lor (fst (serial_in UART_DLL
                                       (serial_out UART_LCR UART_LCR_CONF_MODE_A (hw s))))
                               (Z.shiftl (fst (serial_in UART_DLM
                                   (snd (serial_in UART_DLL
                                       (serial_out UART_LCR UART_LCR_CONF_MODE_A (hw s)))))) 8)),
                    mkSt w (wlog s ++ baud_writes)).
Proof.
  unfold set_baud, baud_writes, bind, outb, inb, ret. cbn.
  repeat rewrite <- app_assoc. cbn. eauto.
Qed.

(** *** The drain loop *)

Lemma drain_rx_log fuel : forall (s s' : st W) u,
  drain_rx fuel s = Some (u, s') -> wlog s' = wlog s.
Proof.
  induction fuel as [| fuel IH]; intros s s' u; cbn; [discriminate |].
  unfold bind, inb, ret; cbn.
  destruct (Z.land _ UART_LSR_DR =? 0).
  - now intros [= _ <-].
  - intros H. now apply IH in H.
Qed.

Lemma drain_rx_more_fuel fuel : forall fuel' (s : st W) r,
  drain_rx fuel s = Some r -> (fuel <= fuel')%nat -> drain_rx fuel' s = Some r.
Proof.
  induction fuel as [| fuel IH]; intros fuel' s r; cbn; [discriminate |].
  destruct fuel' as [| fuel']; [lia |]. cbn.
  unfold bind, inb, ret; cbn.
  destruct (Z.land _ UART_LSR_DR =? 0); [auto |].
  intros H Hle. apply IH; [exact H | lia].
Qed.

Lemma drain_rx_terminates pending :
  rx_drains pending ->
  forall s : st W, exists fuel s', drain_rx fuel s = Some (tt, s').
Proof.
  intros Hd s.
  remember (pending (hw s)) as n eqn:Hn. revert s Hn.
  induction n as [n IH] using lt_wf_ind. intros s Hn.
  destruct (Z.land (fst (serial_in UART_LSR (hw s))) UART_LSR_DR =? 0) eqn:E.
  - exists 1%nat. eexists. cbn. unfold bind, inb, ret; cbn. now rewrite E.
  - apply Z.eqb_neq in E. pose proof (Hd _ E) as Hlt.
    destruct (IH _ ltac:(subst n; exact Hlt)
                 (mkSt (snd (serial_in UART_RX (snd (serial_in UART_LSR (hw s)))))
                       (wlog s)) eq_refl) as (fuel & s' & Hrun).
    exists (S fuel), s'. cbn. unfold bind, inb, ret; cbn.
    apply Z.eqb_neq in E. rewrite E. exact Hrun.
Qed.

(** *** The bounded loops *)

Lemma thr_fill_run n : forall s : st W,
  exists w, thr_fill n s
            = Some (tt, mkSt w (wlog s ++ repeat (UART_TX, 0xFF) n)).
Proof.
  induction n as [| n IH]; intros s; cbn.
  - unfold ret. rewrite app_nil_r. destruct s. eauto.
  - unfold bind, outb; cbn.
    destruct (IH (mkSt (serial_out UART_TX 255 (hw s)) (wlog s ++ [(UART_TX, 255)])))
      as (w & ->). cbn. rewrite <- app_assoc. cbn. eauto.
Qed.

Lemma tx_fill_run n : forall (s : st W) tx_count,
  exists w, tx_fill n tx_count s
            = Some (tx_count + Z.of_nat n,
                    mkSt w (wlog s ++ repeat (UART_TX, 0xFF) n)).
Proof.
  induction n as [| n IH]; intros s tx_count.
  - cbn. unfold ret. rewrite app_nil_r, Z.add_0_r. destruct s. eauto.
  - cbn [tx_fill]. unfold bind, outb; cbn [hw wlog].
    destruct (IH (mkSt (serial_out UART_TX 255 (hw s)) (wlog s ++ [(UART_TX, 255)]))
                 (tx_count + 1)) as (w & ->). cbn [hw wlog].
    rewrite <- app_assoc. cbn [app repeat].
    replace (tx_count + 1 + Z.of_nat n) with (tx_count + Z.of_nat (S n)) by lia.
    eauto.
Qed.

End Runs.

(** ** The RX trigger probe *)

Section RxTrig.
Context {W : Type} {mach : Machine W}.
Variables (meas : W -> Prop) (sent : W -> Z) (hit : Z -> bool).
Hypothesis Hcount : tx_counter meas sent.
Hypothesis Hiir : forall w, meas w ->
  rdi_pending (u8 (fst (serial_in UART_IIR w))) = hit (sent w).

Lemma rx_trig_step (s : st W) :
  meas (hw s) ->
  let w2 := udelay 100 (serial_out UART_TX 0x55 (hw s)) in
  rdi_pending (u8 (fst (serial_in UART_IIR w2))) = hit (sent (hw s) + 1) /\
  meas (snd (serial_in UART_IIR w2)) /\
  sent (snd (serial_in UART_IIR w2)) = sent (hw s) + 1.
Proof.
  intros Hm w2.
  destruct (txc_write Hcount _ 0x55 Hm) as [Hm1 Hs1].
  destruct (txc_udelay Hcount _ 100 Hm1) as [Hm2 Hs2].
  destruct (txc_iir Hcount _ Hm2) as [Hm3 Hs3].
  subst w2. rewrite (Hiir Hm2), Hs2, Hs1, Hs3, Hs2, Hs1. auto.
Qed.

Lemma rx_trig_loop_hit : forall (n k : nat) (trig : Z) (s : st W),
  (1 <= k <= n)%nat ->
  meas (hw s) ->
  (forall j, (1 <= j < k)%nat -> hit (sent (hw s) + Z.of_nat j) = false) ->
  hit (sent (hw s) + Z.of_nat k) = true ->
  exists w, rx_trig_loop n trig s
            = Some (trig + Z.of_nat k - 1,
                    mkSt w (wlog s ++ repeat (UART_TX, 0x55) k)).
Proof.
  induction n as [| n IH]; intros k trig s Hk Hm Hbefore Hat; [lia |].
  destruct (rx_trig_step s Hm) as (Hiir1 & Hm' & Hs').
  cbn [rx_trig_loop]. unfold bind, outb, pass, inb; cbn [hw wlog fst snd].
  rewrite Hiir1.
  destruct (Nat.eq_dec k 1) as [-> | Hk1].
  - change (Z.of_nat 1) with 1 in *. rewrite Hat. unfold ret.
    replace (trig + 1 - 1) with trig by lia. cbn. eauto.
  - pose proof (Hbefore 1%nat ltac:(lia)) as H1.
    change (Z.of_nat 1) with 1 in H1. rewrite H1.
    destruct k as [| k]; [lia |].
    edestruct (IH k (trig + 1)
                 (mkSt (snd (serial_in UART_IIR
                          (udelay 100 (serial_out UART_TX 85 (hw s)))))
                       (wlog s ++ [(UART_TX, 85)]))) as (w & Hrun).
    + lia.
    + exact Hm'.
    + intros j Hj. cbn [hw]. rewrite Hs'.
      replace (sent (hw s) + 1 + Z.of_nat j) with (sent (hw s) + Z.of_nat (S j)) by lia.
      apply Hbefore. lia.
    + cbn [hw]. rewrite Hs'.
      now replace (sent (hw s) + 1 + Z.of_nat k) with (sent (hw s) + Z.of_nat (S k)) by lia.
    + rewrite Hrun. cbn [hw wlog]. rewrite <- app_assoc. cbn [app repeat].
      replace (trig + 1 + Z.of_nat k - 1) with (trig + Z.of_nat (S k) - 1) by lia.
      eauto.
Qed.

(** After the measurement: interrupts off, drain, restore. *)
Lemma rx_trig_body_run pending fuel0 u8250p (s0 s1 : st W) snap trig w2 n :
  rx_drains pending ->
  rx_trig_enter u8250p s0 = Some (snap, s1) ->
  rx_trig_loop 255 1 s1
    = Some (trig, mkSt w2 (wlog s1 ++ repeat (UART_TX, 0x55) n)) ->
  exists fuel s',
    (fuel0 <= fuel)%nat /\
    rx_trig_body fuel u8250p s0 = Some (rx_trig_report trig, s') /\
    wlog s' = wlog s1 ++ repeat (UART_TX, 0x55) n
                      ++ (UART_IER, 0) :: restore_writes snap.
Proof.
  intros Hd Henter Hloop.
  destruct (drain_rx_terminates Hd
              (mkSt (serial_out UART_IER 0 w2)
                    ((wlog s1 ++ repeat (UART_TX, 0x55) n) ++ [(UART_IER, 0)])))
    as (fuel & s4 & Hdrain).
  pose proof (drain_rx_log _ _ Hdrain) as Hlog4. cbn [wlog] in Hlog4.
  apply drain_rx_more_fuel with (fuel' := Nat.max fuel0 fuel) in Hdrain; [| lia].
  destruct (restore_config_run snap s4) as (w5 & Hrestore).
  exists (Nat.max fuel0 fuel). eexists. split; [lia |]. split.
  - unfold rx_trig_body.
    rewrite (bind_run _ _ _ Henter), (bind_run _ _ _ Hloop).
    unfold bind at 1. unfold outb at 1. cbn [hw wlog].
    rewrite (bind_run _ _ _ Hdrain), (bind_run _ _ _ Hrestore). reflexivity.
  - cbn [wlog]. rewrite Hlog4. repeat rewrite <- app_assoc. reflexivity.
Qed.

End RxTrig.

(** On a port that never reports the condition the loop runs to its bound,
    whatever else the port does. *)
Lemma rx_trig_loop_never {W} {mach : Machine W} :
  (forall w : W, rdi_pending (u8 (fst (serial_in UART_IIR w))) = false) ->
  forall (n : nat) (trig : Z) (s : st W),
  exists w, rx_trig_loop n trig s
            = Some (trig + Z.of_nat n,
                    mkSt w (wlog s ++ repeat (UART_TX, 0x55) n)).
Proof.
  intros Hnever. induction n as [| n IH]; intros trig s.
  - cbn. unfold ret. rewrite app_nil_r, Z.add_0_r. destruct s. eauto.
  - cbn [rx_trig_loop]. unfold bind, outb, pass, inb; cbn [hw wlog fst snd].
    rewrite Hnever.
    destruct (IH (trig + 1)
                (mkSt (snd (serial_in UART_IIR
                         (udelay 100 (serial_out UART_TX 85 (hw s)))))
                      (wlog s ++ [(UART_TX, 85)]))) as (w & Hrun).
    rewrite Hrun. cbn [hw wlog]. rewrite <- app_assoc. cbn [app repeat].
    replace (trig + 1 + Z.of_nat n) with (trig + Z.of_nat (S n)) by lia.
    eauto.
Qed.

Lemma rx_trig_enter_total {W} {mach : Machine W} u8250p (s : st W) :
  exists snap s1, rx_trig_enter u8250p s = Some (snap, s1).
Proof. unfold rx_trig_enter, set_baud, bind, outb, inb, ret. cbn. eauto. Qed.

(** C3, as the code has it.  RX trigger probe on a port whose receive
    queue drains, so that the drain loop after the measurement ends.  If
    the interrupt identification reports the receive-data condition (bit 0
    clear and reason bits equal to receive-data-available) exactly when the
    number of bytes transmitted during the measurement is [K], with
    [1 <= K <= 255], the probe returns [K], having transmitted [K] bytes.
    If the port never reports the condition, the probe returns the "RX
    trigger test failed" message, having transmitted exactly 255 bytes;
    this half asks nothing else of the port. *)
Theorem rx_trig_probe_finds_trigger_level :
  forall (W : Type) (mach : Machine W) (pending : W -> nat)
         (selected_dev : string) (port : uart_port) (u8250p : uart_8250_port)
         (s0 s1 : st W) (snap : snapshot),
    resolve_port selected_dev = inr (port, u8250p) ->
    rx_trig_enter u8250p s0 = Some (snap, s1) ->
    rx_drains pending ->
    (forall (meas : W -> Prop) (sent : W -> Z) (K : Z),
       tx_counter meas sent ->
       meas (hw s1) ->
       sent (hw s1) = 0 ->
       1 <= K <= 255 ->
       (forall w, meas w ->
          rdi_pending (u8 (fst (serial_in UART_IIR w))) = (sent w =? K)) ->
       exists fuel s',
         rx_trig_probe_read fuel selected_dev s0 = Some (Count K, s') /\
         wlog s' = wlog s1 ++ repeat (UART_TX, 0x55) (Z.to_nat K)
                           ++ (UART_IER, 0) :: restore_writes snap) /\
    ((forall w, rdi_pending (u8 (fst (serial_in UART_IIR w))) = false) ->
     exists fuel s',
       rx_trig_probe_read fuel selected_dev s0
         = Some (Message rx_trig_failed, s') /\
       wlog s' = wlog s1 ++ repeat (UART_TX, 0x55) 255
                         ++ (UART_IER, 0) :: restore_writes snap).
Proof.
  intros W mach pending sel port u s0 s1 snap Hres Henter Hdrain.
  unfold rx_trig_probe_read. rewrite Hres. split.
  - intros meas sent K Hcount Hm Hs0 HK Hiir.
    destruct (@rx_trig_loop_hit _ _ meas sent (fun n => n =? K) Hcount Hiir
                255 (Z.to_nat K) 1 s1) as (w2 & Hloop).
    + lia.
    + exact Hm.
    + intros j Hj. rewrite Hs0. apply Z.eqb_neq. lia.
    + rewrite Hs0. apply Z.eqb_eq. lia.
    + destruct (@rx_trig_body_run _ _ pending 0%nat u s0 s1 snap _ _ _ Hdrain Henter Hloop)
        as (fuel & s' & _ & Hrun & Hlog).
      exists fuel, s'. split; [| exact Hlog].
      rewrite Hrun. unfold rx_trig_report.
      replace (1 + Z.of_nat (Z.to_nat K) - 1) with K by lia.
      rewrite Z.geb_leb. now replace (256 <=? K) with false by (symmetry; apply Z.leb_gt; lia).
  - intros Hnever.
    destruct (rx_trig_loop_never Hnever 255 1 s1) as (w2 & Hloop).
    destruct (@rx_trig_body_run _ _ pending 0%nat u s0 s1 snap _ _ _ Hdrain Henter Hloop)
      as (fuel & s' & _ & Hrun & Hlog).
    exists fuel, s'. split; [| exact Hlog].
    rewrite Hrun. reflexivity.
Qed.

(** ** Facts about the scripted register file *)

Lemma sim_tx_counter (sc : Sim.script) :
  @tx_counter _ (Sim.machine sc) operating Sim.r_sent.
Proof.
  split; unfold operating; cbn; intros w; intros;
    unfold Sim.write, Sim.read, Sim.tick; cbn;
    try match goal with H : Sim.dlab _ = false |- _ => rewrite H end;
    unfold Sim.dlab in *; cbn; auto.
Qed.

(** A script that never reports received data leaves nothing to drain. *)
Lemma sim_nothing_to_drain (sc : Sim.script) :
  (forall r, Z.land (Sim.lsr_of sc r) UART_LSR_DR = 0) ->
  @rx_drains _ (Sim.machine sc) (fun _ => 0%nat).
Proof.
  intros Hlsr w Hready. exfalso. apply Hready.
  cbn. unfold Sim.read. cbn. apply Hlsr.
Qed.

Lemma rx_trig_script_iir (k : Z) (w : Sim.regs) :
  rdi_pending (u8 (fst (@serial_in _ (Sim.machine (rx_trig_script k)) UART_IIR w)))
  = (Sim.r_sent w =? k).
Proof.
  cbn. unfold Sim.read. cbn. now destruct (Sim.r_sent w =? k).
Qed.

Lemma rx_trig_probe_finds_trigger_level_witness :
  (exists fuel s',
     @rx_trig_probe_read _ (Sim.machine (rx_trig_script 3)) fuel "ttyS0"
       Sim.start = Some (Count 3, s')) /\
  (exists fuel s',
     @rx_trig_probe_read _ (Sim.machine silent_script) fuel "ttyS0"
       Sim.start = Some (Message rx_trig_failed, s')).
Proof.
  split.
  - edestruct (@rx_trig_probe_finds_trigger_level _
                 (Sim.machine (rx_trig_script 3)) (fun _ => 0%nat)
                 "ttyS0" (Sim.port16 0x81) {| fcr := 0x81 |} Sim.start)
      as [Hfound _].
    + reflexivity.
    + cbv. reflexivity.
    + apply sim_nothing_to_drain. reflexivity.
    + destruct (Hfound operating Sim.r_sent 3) as (fuel & s' & Hrun & _).
      * apply sim_tx_counter.
      * reflexivity.
      * reflexivity.
      * lia.
      * intros w _. apply rx_trig_script_iir.
      * now exists fuel, s'.
  - edestruct (@rx_trig_probe_finds_trigger_level _
                 (Sim.machine silent_script) (fun _ => 0%nat)
                 "ttyS0" (Sim.port16 0x81) {| fcr := 0x81 |} Sim.start)
      as [_ Hnever].
    + reflexivity.
    + cbv. reflexivity.
    + apply sim_nothing_to_drain. reflexivity.
    + destruct Hnever as (fuel & s' & Hrun & _).
      * reflexivity.
      * now exists fuel, s'.
Defined.

(** ** The RX FIFO size probe *)

Section RxFifo.
Context {W : Type} {mach : Machine W}.
Variables (meas : W -> Prop) (sent : W -> Z).
Hypothesis Hcount : tx_counter meas sent.

Lemma rx_fifo_step (s : st W) :
  meas (hw s) ->
  let w2 := mdelay 1 (serial_out UART_TX 0xff (hw s)) in
  meas w2 /\ sent w2 = sent (hw s) + 1 /\
  meas (snd (serial_in UART_LSR w2)) /\
  sent (snd (serial_in UART_LSR w2)) = sent (hw s) + 1.
Proof.
  intros Hm w2.
  destruct (txc_write Hcount _ 0xff Hm) as [Hm1 Hs1].
  destruct (txc_mdelay Hcount _ 1 Hm1) as [Hm2 Hs2].
  destruct (txc_lsr Hcount _ Hm2) as [Hm3 Hs3].
  subst w2. rewrite Hs3, Hs2, Hs1. auto.
Qed.

Lemma rx_fifo_loop_overrun : forall (n k : nat) (count_tx : Z) (s : st W),
  (1 <= k <= n)%nat ->
  meas (hw s) ->
  (forall w, meas w -> sent w < sent (hw s) + Z.of_nat k ->
     Z.land (u8 (fst (serial_in UART_LSR w))) UART_LSR_OE = 0) ->
  (forall w, meas w -> sent w = sent (hw s) + Z.of_nat k ->
     Z.land (u8 (fst (serial_in UART_LSR w))) UART_LSR_OE <> 0) ->
  exists w, rx_fifo_loop n count_tx s
            = Some (count_tx + Z.of_nat k - 1,
                    mkSt w (wlog s ++ repeat (UART_TX, 0xff) k)).
Proof.
  induction n as [| n IH]; intros k count_tx s Hk Hm Hclear Hset; [lia |].
  destruct (rx_fifo_step s Hm) as (Hm2 & Hs2 & Hm3 & Hs3).
  cbn [rx_fifo_loop]. unfold bind, outb, pass, inb; cbn [hw wlog fst snd].
  destruct (Nat.eq_dec k 1) as [-> | Hk1].
  - change (Z.of_nat 1) with 1 in *.
    specialize (Hset _ Hm2 Hs2). apply Z.eqb_neq in Hset. rewrite Hset.
    unfold ret. replace (count_tx + 1 - 1) with count_tx by lia.
    cbn. eauto.
  - rewrite (Hclear _ Hm2) by lia. cbn [Z.eqb].
    destruct k as [| k]; [lia |].
    edestruct (IH k (count_tx + 1)
                 (mkSt (snd (serial_in UART_LSR
                          (mdelay 1 (serial_out UART_TX 255 (hw s)))))
                       (wlog s ++ [(UART_TX, 255)]))) as (w & Hrun).
    + lia.
    + exact Hm3.
    + intros w Hw Hlt. cbn [hw] in Hlt. rewrite Hs3 in Hlt.
      apply Hclear; [exact Hw | lia].
    + intros w Hw Heq. cbn [hw] in Heq. rewrite Hs3 in Heq.
      apply Hset; [exact Hw | lia].
    + rewrite Hrun. cbn [hw wlog]. rewrite <- app_assoc. cbn [app repeat].
      replace (count_tx + 1 + Z.of_nat k - 1)
        with (count_tx + Z.of_nat (S k) - 1) by lia.
      eauto.
Qed.

Lemma rx_fifo_loop_quiet : forall (n : nat) (count_tx : Z) (s : st W),
  meas (hw s) ->
  (forall w, meas w -> sent w <= sent (hw s) + Z.of_nat n ->
     Z.land (u8 (fst (serial_in UART_LSR w))) UART_LSR_OE = 0) ->
  exists w, rx_fifo_loop n count_tx s
            = Some (0, mkSt w (wlog s ++ repeat (UART_TX, 0xff) n)).
Proof.
  induction n as [| n IH]; intros count_tx s Hm Hclear.
  - cbn. unfold ret. rewrite app_nil_r. destruct s. eauto.
  - destruct (rx_fifo_step s Hm) as (Hm2 & Hs2 & Hm3 & Hs3).
    cbn [rx_fifo_loop]. unfold bind, outb, pass, inb; cbn [hw wlog fst snd].
    rewrite (Hclear _ Hm2) by lia. cbn [Z.eqb].
    edestruct (IH (count_tx + 1)
                 (mkSt (snd (serial_in UART_LSR
                          (mdelay 1 (serial_out UART_TX 255 (hw s)))))
                       (wlog s ++ [(UART_TX, 255)]))) as (w & Hrun).
    + exact Hm3.
    + intros w Hw Hle. cbn [hw] in Hle. rewrite Hs3 in Hle.
      apply Hclear; [exact Hw | lia].
    + rewrite Hrun. cbn [hw wlog]. rewrite <- app_assoc. cbn [app repeat].
      eauto.
Qed.

End RxFifo.

Lemma fifo_size_enter_total {W} {mach : Machine W} u8250p (s : st W) :
  exists snap s1, fifo_size_enter u8250p s = Some (snap, s1).
Proof. unfold fifo_size_enter, set_baud, bind, outb, inb, ret. cbn. eauto. Qed.

Lemma rx_fifo_body_run {W} {mach : Machine W} u8250p (s0 s1 : st W)
      snap size w2 n :
  fifo_size_enter u8250p s0 = Some (snap, s1) ->
  rx_fifo_loop (Z.to_nat FIFO_SIZE_MAX) 0 s1
    = Some (size, mkSt w2 (wlog s1 ++ repeat (UART_TX, 0xff) n)) ->
  exists s',
    rx_fifo_body u8250p s0 = Some (rx_fifo_report size, s') /\
    wlog s' = wlog s1 ++ repeat (UART_TX, 0xff) n ++ restore_writes snap.
Proof.
  intros Henter Hloop.
  destruct (restore_config_run snap
              (mkSt w2 (wlog s1 ++ repeat (UART_TX, 0xff) n)))
    as (w3 & Hrestore).
  eexists. split.
  - unfold rx_fifo_body.
    rewrite (bind_run _ _ _ Henter), (bind_run _ _ _ Hloop),
      (bind_run _ _ _ Hrestore). reflexivity.
  - cbn [wlog]. now rewrite <- app_assoc.
Qed.

(** C4, as the code has it.  RX FIFO size probe on a port whose line
    status first shows the overrun-error bit at the status read that
    follows the [N]-th transmitted byte, [2 <= N <= 512]: the probe returns
    [N - 1], the number of bytes sent before the one that overran.  On a
    port that shows no overrun within 512 transmitted bytes the probe
    returns the "RX overflow not detected" message, after 512 bytes. *)
Theorem rx_fifo_size_counts_bytes_before_overrun :
  forall (W : Type) (mach : Machine W)
         (meas : W -> Prop) (sent : W -> Z)
         (selected_dev : string) (port : uart_port) (u8250p : uart_8250_port)
         (s0 s1 : st W) (snap : snapshot),
    resolve_port selected_dev = inr (port, u8250p) ->
    fifo_size_enter u8250p s0 = Some (snap, s1) ->
    tx_counter meas sent ->
    meas (hw s1) ->
    sent (hw s1) = 0 ->
    (forall N, 2 <= N <= 512 ->
       (forall w, meas w -> sent w < N ->
          Z.land (u8 (fst (serial_in UART_LSR w))) UART_LSR_OE = 0) ->
       (forall w, meas w -> sent w = N ->
          Z.land (u8 (fst (serial_in UART_LSR w))) UART_LSR_OE <> 0) ->
       exists s',
         rx_fifo_size_read selected_dev s0 = Some (Count (N - 1), s') /\
         wlog s' = wlog s1 ++ repeat (UART_TX, 0xff) (Z.to_nat N)
                           ++ restore_writes snap) /\
    ((forall w, meas w -> sent w <= 512 ->
        Z.land (u8 (fst (serial_in UART_LSR w))) UART_LSR_OE = 0) ->
     exists s',
       rx_fifo_size_read selected_dev s0
         = Some (Message rx_overflow_not_detected, s') /\
       wlog s' = wlog s1 ++ repeat (UART_TX, 0xff) 512
                         ++ restore_writes snap).
Proof.
  intros W mach meas sent sel port u s0 s1 snap Hres Henter Hcount Hm Hs0.
  unfold rx_fifo_size_read. rewrite Hres. split.
  - intros N HN Hclear Hset.
    destruct (@rx_fifo_loop_overrun _ _ meas sent Hcount
                (Z.to_nat FIFO_SIZE_MAX) (Z.to_nat N) 0 s1) as (w2 & Hloop).
    + unfold FIFO_SIZE_MAX. lia.
    + exact Hm.
    + intros w Hw Hlt. apply Hclear; [exact Hw | lia].
    + intros w Hw Heq. apply Hset; [exact Hw | lia].
    + destruct (rx_fifo_body_run _ Henter Hloop) as (s' & Hrun & Hlog).
      exists s'. split; [| exact Hlog].
      rewrite Hrun. unfold rx_fifo_report.
      replace (0 + Z.of_nat (Z.to_nat N) - 1) with (N - 1) by lia.
      now replace (N - 1 =? 0) with false by (symmetry; apply Z.eqb_neq; lia).
  - intros Hclear.
    destruct (@rx_fifo_loop_quiet _ _ meas sent Hcount
                (Z.to_nat FIFO_SIZE_MAX) 0 s1 Hm) as (w2 & Hloop).
    + intros w Hw Hle. apply Hclear; [exact Hw |]. unfold FIFO_SIZE_MAX in Hle. lia.
    + destruct (rx_fifo_body_run _ Henter Hloop) as (s' & Hrun & Hlog).
      exists s'. split; [now rewrite Hrun | exact Hlog].
Qed.

Lemma rx_overrun_script_lsr (n : Z) (w : Sim.regs) :
  fst (@serial_in _ (Sim.machine (rx_overrun_script n)) UART_LSR w)
  = if n <=? Sim.r_sent w then 0x62 else 0x60.
Proof. reflexivity. Qed.

Lemma rx_fifo_size_counts_bytes_before_overrun_witness :
  exists s',
    @rx_fifo_size_read _ (Sim.machine (rx_overrun_script 3)) "ttyS0" Sim.start
    = Some (Count 2, s').
Proof.
  edestruct (@rx_fifo_size_counts_bytes_before_overrun _
               (Sim.machine (rx_overrun_script 3)) operating Sim.r_sent
               "ttyS0" (Sim.port16 0x81) {| fcr := 0x81 |} Sim.start)
    as [Hfound _].
  - reflexivity.
  - cbv. reflexivity.
  - apply sim_tx_counter.
  - reflexivity.
  - reflexivity.
  - destruct (Hfound 3) as (s' & Hrun & _).
    + lia.
    + intros w _ Hlt. rewrite rx_overrun_script_lsr.
      now replace (3 <=? Sim.r_sent w) with false by (symmetry; apply Z.leb_gt; lia).
    + intros w _ Heq. rewrite rx_overrun_script_lsr, Heq. discriminate.
    + now exists s'.
Defined.

(** C4 as stated fails: with the overrun bit first set after 3 transmitted
    bytes the probe reports 2. *)
Lemma rx_fifo_size_reports_one_less :
  option_map fst
    (@rx_fifo_size_read _ (Sim.machine (rx_overrun_script 3)) "ttyS0" Sim.start)
  = Some (Count 2) /\
  option_map fst
    (@rx_fifo_size_read _ (Sim.machine (rx_overrun_script 3)) "ttyS0" Sim.start)
  <> Some (Count 3).
Proof. split; vm_compute; [reflexivity | discriminate]. Qed.

(** ** The TX trigger probe *)

Lemma tx_trig_loop_more_fuel {W} {mach : Machine W} fuel :
  forall fuel' d trig rx_count (s : st W) r,
    tx_trig_loop fuel d trig rx_count s = Some r -> (fuel <= fuel')%nat ->
    tx_trig_loop fuel' d trig rx_count s = Some r.
Proof.
  induction fuel as [| fuel IH]; intros fuel' d trig rx_count s r;
    cbn [tx_trig_loop]; [discriminate |].
  destruct fuel' as [| fuel']; [lia |]. cbn [tx_trig_loop].
  unfold bind, read_jiffies, inb, pass, ret; cbn [hw wlog fst snd].
  destruct (time_before _ d); [| auto].
  destruct (Z.land _ UART_LSR_DR =? 0); cbn [hw wlog fst snd];
    (destruct (thri_pending _); [auto |]);
    intros H Hle; (apply IH; [exact H | lia]).
Qed.

Lemma tx_trig_loop_log {W} {mach : Machine W} fuel :
  forall d trig rx_count (s s' : st W) r,
    tx_trig_loop fuel d trig rx_count s = Some (r, s') -> wlog s' = wlog s.
Proof.
  induction fuel as [| fuel IH]; intros d trig rx_count s s' r;
    cbn [tx_trig_loop]; [discriminate |].
  unfold bind, read_jiffies, inb, pass, ret; cbn [hw wlog fst snd].
  destruct (time_before _ d); [| now intros [= _ <-]].
  destruct (Z.land _ UART_LSR_DR =? 0); cbn [hw wlog fst snd];
    (destruct (thri_pending _); [now intros [= _ <-] |]);
    intros H; now apply IH in H.
Qed.

Lemma tx_trig_enter_more_fuel {W} {mach : Machine W} fuel fuel' (s : st W) r :
  tx_trig_enter fuel s = Some r -> (fuel <= fuel')%nat ->
  tx_trig_enter fuel' s = Some r.
Proof.
  intros H Hle.
  unfold tx_trig_enter, set_baud, bind, inb, outb, ret in *.
  cbn [hw wlog fst snd] in *.
  destruct (drain_rx fuel _) as [[[] s1] |] eqn:Hd; [| discriminate].
  now rewrite (drain_rx_more_fuel _ Hd Hle).
Qed.

Section TxTrig.
Context {W : Type} {mach : Machine W}.
Variables (meas ahead : W -> Prop) (drained : W -> Z) (wait : W -> nat).
Variables (T d : Z).
Hypothesis Hcount : rx_counter meas drained.
Hypothesis Hiir : forall w, meas w ->
  thri_pending (u8 (fst (serial_in UART_IIR w))) = (drained w =? T).
Hypothesis Hintime : bytes_arrive_in_time meas ahead drained wait T d.

(** With [k] bytes still to drain the loop returns [k] more than it has
    counted: a pass that finds data ready drains a byte, a pass that finds
    none leaves less to wait. *)
Lemma tx_trig_loop_level : forall (k n : nat) (trig rx_count : Z) (s : st W),
  (1 <= k)%nat ->
  meas (hw s) ->
  ahead (hw s) ->
  drained (hw s) = T - Z.of_nat k ->
  (wait (hw s) <= n)%nat ->
  exists fuel w, tx_trig_loop fuel d trig rx_count s
                 = Some (rx_count + Z.of_nat k, mkSt w (wlog s)).
Proof.
  induction k as [| k IHk]; [lia |].
  induction n as [n IHn] using lt_wf_ind.
  intros trig rx_count s Hk Hm Ha Hdr Hwait.
  destruct (rxc_lsr Hcount _ Hm) as [Hm1 Hd1].
  assert (Hlt : drained (hw s) < T) by lia.
  destruct (Hintime Hm Ha Hlt) as (Hfast & Ha' & Hless).
  unfold tx_trig_pass in Ha', Hless.
  destruct (Z.eqb_spec
              (Z.land (u8 (fst (serial_in UART_LSR (hw s)))) UART_LSR_DR) 0)
    as [Hidle | Hready].
  - specialize (Hless Hidle).
    destruct (rxc_iir Hcount _ Hm1) as [Hm3 Hd3].
    destruct (rxc_relax Hcount _ Hm3) as [Hm4 Hd4].
    edestruct (IHn (wait (cpu_relax (snd (serial_in UART_IIR
                             (snd (serial_in UART_LSR (hw s)))))))
                 ltac:(lia) trig rx_count
                 (mkSt (cpu_relax (snd (serial_in UART_IIR
                          (snd (serial_in UART_LSR (hw s))))))
                       (wlog s))) as (fuel & w & Hrun).
    + lia.
    + exact Hm4.
    + exact Ha'.
    + cbn [hw]. rewrite Hd4, Hd3, Hd1. exact Hdr.
    + cbn [hw]. lia.
    + exists (S fuel), w. cbn [tx_trig_loop].
      unfold bind at 1. unfold read_jiffies at 1. cbn [hw wlog].
      rewrite Hfast.
      unfold bind at 1. unfold inb at 1. cbn [hw wlog fst snd].
      apply Z.eqb_eq in Hidle. rewrite Hidle.
      unfold bind, inb, ret, pass; cbn [hw wlog fst snd].
      rewrite (Hiir Hm1), Hd1, Hdr.
      replace (T - Z.of_nat (S k) =? T) with false
        by (symmetry; apply Z.eqb_neq; lia).
      exact Hrun.
  - clear Hless.
    destruct (rxc_read Hcount _ Hm1) as [Hm2 Hd2].
    destruct (rxc_iir Hcount _ Hm2) as [Hm3 Hd3].
    destruct (rxc_relax Hcount _ Hm3) as [Hm4 Hd4].
    apply Z.eqb_neq in Hready.
    destruct k as [| k].
    + exists 1%nat. eexists. cbn [tx_trig_loop].
      unfold bind at 1. unfold read_jiffies at 1. cbn [hw wlog].
      rewrite Hfast.
      unfold bind at 1. unfold inb at 1. cbn [hw wlog fst snd].
      rewrite Hready.
      unfold bind, inb, ret, pass; cbn [hw wlog fst snd].
      rewrite (Hiir Hm2), Hd2, Hd1, Hdr.
      replace (T - Z.of_nat 1 + 1 =? T) with true
        by (symmetry; apply Z.eqb_eq; lia).
      change (Z.of_nat 1) with 1. reflexivity.
    + edestruct (IHk (wait (cpu_relax (snd (serial_in UART_IIR
                               (snd (serial_in UART_RX
                                  (snd (serial_in UART_LSR (hw s)))))))))
                   trig (rx_count + 1)
                   (mkSt (cpu_relax (snd (serial_in UART_IIR
                            (snd (serial_in UART_RX
                               (snd (serial_in UART_LSR (hw s))))))))
                         (wlog s))) as (fuel & w & Hrun).
      * lia.
      * exact Hm4.
      * exact Ha'.
      * cbn [hw]. rewrite Hd4, Hd3, Hd2, Hd1, Hdr. lia.
      * cbn [hw]. lia.
      * exists (S fuel), w. cbn [tx_trig_loop].
        unfold bind at 1. unfold read_jiffies at 1. cbn [hw wlog].
        rewrite Hfast.
        unfold bind at 1. unfold inb at 1. cbn [hw wlog fst snd].
        rewrite Hready.
        unfold bind, inb, ret, pass; cbn [hw wlog fst snd].
        rewrite (Hiir Hm2), Hd2, Hd1, Hdr.
        replace (T - Z.of_nat (S (S k)) + 1 =? T) with false
          by (symmetry; apply Z.eqb_neq; lia).
        cbn [hw wlog] in Hrun |- *. rewrite Hrun.
        now replace (rx_count + 1 + Z.of_nat (S k))
          with (rx_count + Z.of_nat (S (S k))) by lia.
Qed.

End TxTrig.

(** After the measurement: interrupt enable back, drain, restore. *)
Lemma tx_trig_body_run {W} {mach : Machine W} pending fuel0 fuel1 trig0 port
      (s0 s1 s2 s3 : st W) snap old_ier trig :
  rx_drains pending ->
  tx_trig_enter fuel0 s0 = Some ((snap, old_ier), s1) ->
  thr_fill (Z.to_nat (fifosize port + 1)) s1 = Some (tt, s2) ->
  tx_trig_loop fuel1
    (ulong (jiffies (hw s2) + msecs_to_jiffies 1500)) trig0 0 s2
    = Some (trig, s3) ->
  exists fuel s',
    tx_trig_body fuel trig0 port s0 = Some (tx_trig_report trig, s') /\
    wlog s' = wlog s2 ++ (UART_IER, old_ier) :: restore_writes snap.
Proof.
  intros Hd Henter Hfill Hloop.
  pose proof (tx_trig_loop_log _ _ _ _ _ Hloop) as Hlog3.
  destruct (drain_rx_terminates Hd
              (mkSt (serial_out UART_IER old_ier (hw s3))
                    (wlog s3 ++ [(UART_IER, old_ier)])))
    as (fuel2 & s4 & Hdrain).
  pose proof (drain_rx_log _ _ Hdrain) as Hlog4. cbn [wlog] in Hlog4.
  destruct (restore_config_run snap s4) as (w5 & Hrestore).
  set (fuel := Nat.max fuel0 (Nat.max fuel1 fuel2)).
  apply tx_trig_enter_more_fuel with (fuel' := fuel) in Henter; [| lia].
  apply tx_trig_loop_more_fuel with (fuel' := fuel) in Hloop; [| lia].
  apply drain_rx_more_fuel with (fuel' := fuel) in Hdrain; [| lia].
  exists fuel. eexists. split.
  - unfold tx_trig_body.
    rewrite (bind_run _ _ _ Henter). cbn [fst snd].
    rewrite (bind_run _ _ _ Hfill).
    unfold bind at 1. unfold read_jiffies at 1.
    rewrite (bind_run _ _ _ Hloop).
    unfold bind at 1. unfold outb at 1.
    rewrite (bind_run _ _ _ Hdrain), (bind_run _ _ _ Hrestore). reflexivity.
  - cbn [wlog]. rewrite Hlog4, Hlog3. now rewrite <- app_assoc.
Qed.

Lemma sim_rx_counter (sc : Sim.script) :
  @rx_counter _ (Sim.machine sc) transmitting Sim.r_drained.
Proof.
  split; unfold transmitting; cbn; intros w (Hdlab & Hsent & Hdr);
    unfold Sim.read, Sim.tick; cbn; try rewrite Hdlab;
    unfold Sim.dlab in *; cbn; repeat split; auto; lia.
Qed.

(** ** Uninitialised locals *)

(** When the THR-empty condition is never seen and the deadline passes,
    [trig] is what it was on entry, whatever was counted. *)
Lemma tx_trig_loop_timeout {W} {mach : Machine W} fuel :
  forall d trig rx_count (s s' : st W) r,
    (forall w, thri_pending (u8 (fst (serial_in UART_IIR w))) = false) ->
    tx_trig_loop fuel d trig rx_count s = Some (r, s') -> r = trig.
Proof.
  induction fuel as [| fuel IH]; intros d trig rx_count s s' r Hnever;
    cbn [tx_trig_loop]; [discriminate |].
  unfold bind, read_jiffies, inb, pass, ret; cbn [hw wlog fst snd].
  destruct (time_before _ d); [| now intros [= <- _]].
  destruct (Z.land _ UART_LSR_DR =? 0); cbn [hw wlog fst snd];
    rewrite Hnever; intros H; now apply IH in H.
Qed.

(** C7 at the failing input.  On a port that never reports THR-empty and
    never has data ready, the deadline passes with nothing counted; the
    probe then reports whatever [trig] held on entry: 77 when the stack
    slot held 77, and the loopback failure only when it held 0. *)
Theorem tx_trig_timeout_reports_stack_value :
  option_map fst
    (@tx_trig_probe_read _ (Sim.machine silent_script) 600 77 "ttyS0"
       Sim.start) = Some (Count 77) /\
  option_map fst
    (@tx_trig_probe_read _ (Sim.machine silent_script) 600 0 "ttyS0"
       Sim.start) = Some (Message tx_loopback_failed).
Proof. split; vm_compute; reflexivity. Qed.

(** C5 at the failing input.  With a loopback that echoes 3 of the bytes
    the probe reports 3 plus whatever [rx_count] held on entry (10 for 7);
    with one that echoes none it reports that value itself (7), and the
    loopback failure only when the value was 0. *)
Theorem tx_fifo_size_counts_from_stack_value :
  option_map fst
    (@tx_fifo_size_read _ (Sim.machine (tx_echo_script 3)) 600 7 "ttyS0"
       Sim.start) = Some (Count 10) /\
  option_map fst
    (@tx_fifo_size_read _ (Sim.machine (tx_echo_script 0)) 600 7 "ttyS0"
       Sim.start) = Some (Count 7) /\
  option_map fst
    (@tx_fifo_size_read _ (Sim.machine (tx_echo_script 3)) 600 0 "ttyS0"
       Sim.start) = Some (Count 3) /\
  option_map fst
    (@tx_fifo_size_read _ (Sim.machine (tx_echo_script 0)) 600 0 "ttyS0"
       Sim.start) = Some (Message tx_loopback_failed).
Proof. repeat split; vm_compute; reflexivity. Qed.

(** ** Termination *)

Section Termination.
Context {W : Type} {mach : Machine W}.

Lemma rx_trig_loop_total n : forall trig (s : st W),
  exists r, rx_trig_loop n trig s = Some r.
Proof.
  induction n as [| n IH]; intros trig s; cbn [rx_trig_loop].
  - unfold ret. eauto.
  - unfold bind, outb, pass, inb, ret; cbn [hw wlog fst snd].
    destruct (rdi_pending _); eauto.
Qed.

Lemma rx_fifo_loop_total n : forall count_tx (s : st W),
  exists r, rx_fifo_loop n count_tx s = Some r.
Proof.
  induction n as [| n IH]; intros count_tx s; cbn [rx_fifo_loop].
  - unfold ret. eauto.
  - unfold bind, outb, pass, inb, ret; cbn [hw wlog fst snd].
    destruct (Z.land _ UART_LSR_OE =? 0); eauto.
Qed.

Lemma restore_config_total snap (s : st W) :
  exists s', restore_config snap s = Some (tt, s').
Proof. destruct (restore_config_run snap s) as (w & ->). eauto. Qed.

Lemma rx_fifo_size_read_total selected_dev (s : st W) :
  exists r, rx_fifo_size_read selected_dev s = Some r.
Proof.
  unfold rx_fifo_size_read.
  destruct (resolve_port selected_dev) as [e | [port u]]; [unfold ret; eauto |].
  unfold rx_fifo_body.
  destruct (fifo_size_enter_total u s) as (snap & s1 & Henter).
  destruct (rx_fifo_loop_total (Z.to_nat FIFO_SIZE_MAX) 0 s1) as ([size s2] & Hloop).
  destruct (restore_config_total snap s2) as (s3 & Hrestore).
  rewrite (bind_run _ _ _ Henter), (bind_run _ _ _ Hloop),
    (bind_run _ _ _ Hrestore).
  unfold ret. eauto.
Qed.

Lemma rx_trig_probe_read_terminates pending selected_dev (s : st W) :
  rx_drains pending ->
  exists fuel r, rx_trig_probe_read fuel selected_dev s = Some r.
Proof.
  intros Hd. unfold rx_trig_probe_read.
  destruct (resolve_port selected_dev) as [e | [port u]];
    [exists 0%nat; unfold ret; eauto |].
  unfold rx_trig_body.
  destruct (rx_trig_enter_total u s) as (snap & s1 & Henter).
  destruct (rx_trig_loop_total 255 1 s1) as ([trig s2] & Hloop).
  destruct (drain_rx_terminates Hd
              (mkSt (serial_out UART_IER 0 (hw s2)) (wlog s2 ++ [(UART_IER, 0)])))
    as (fuel & s4 & Hdrain).
  destruct (restore_config_total snap s4) as (s5 & Hrestore).
  exists fuel.
  rewrite (bind_run _ _ _ Henter), (bind_run _ _ _ Hloop).
  unfold bind at 1. unfold outb at 1.
  rewrite (bind_run _ _ _ Hdrain), (bind_run _ _ _ Hrestore).
  unfold ret. eauto.
Qed.

Variable left : Z -> W -> nat.
Hypothesis Hclock : clock_advances left.

Lemma tx_fifo_count_terminates d tx_count : forall rx_count (s : st W),
  exists fuel r, tx_fifo_count fuel d rx_count tx_count s = Some r.
Proof.
  intros rx_count s.
  remember (left d (hw s)) as n eqn:Hn. revert rx_count s Hn.
  induction n as [n IH] using lt_wf_ind. intros rx_count s Hn.
  destruct (time_before (jiffies (hw s)) d && (rx_count <? tx_count)) eqn:Hgo.
  - apply andb_true_iff in Hgo as Hgo'. destruct Hgo' as [Ht _].
    destruct (Z.land (u8 (fst (serial_in UART_LSR (hw s)))) UART_LSR_DR =? 0)
      eqn:Hdr.
    + pose proof (@Hclock d _ [poll_lsr; poll_relax] Ht
                    ltac:(discriminate) ltac:(cbn; lia)) as Hlt.
      cbn [fold_left do_poll] in Hlt.
      destruct (IH _ ltac:(subst n; exact Hlt) rx_count
                  (mkSt (cpu_relax (snd (serial_in UART_LSR (hw s)))) (wlog s))
                  eq_refl) as (fuel & r & Hrun).
      exists (S fuel), r. cbn [tx_fifo_count].
      unfold bind, read_jiffies, inb, pass; cbn [hw wlog fst snd].
      now rewrite Hgo, Hdr.
    + pose proof (@Hclock d _ [poll_lsr; poll_rx] Ht
                    ltac:(discriminate) ltac:(cbn; lia)) as Hlt.
      cbn [fold_left do_poll] in Hlt.
      destruct (u8 (fst (serial_in UART_RX (snd (serial_in UART_LSR (hw s)))))
                =? 255) eqn:Hval.
      * destruct (IH _ ltac:(subst n; exact Hlt) (rx_count + 1)
                    (mkSt (snd (serial_in UART_RX (snd (serial_in UART_LSR (hw s)))))
                          (wlog s)) eq_refl) as (fuel & r & Hrun).
        exists (S fuel), r. cbn [tx_fifo_count].
        unfold bind, read_jiffies, inb, pass; cbn [hw wlog fst snd].
        rewrite Hgo, Hdr. cbn [hw wlog fst snd]. now rewrite Hval.
      * destruct (IH _ ltac:(subst n; exact Hlt) rx_count
                    (mkSt (snd (serial_in UART_RX (snd (serial_in UART_LSR (hw s)))))
                          (wlog s)) eq_refl) as (fuel & r & Hrun).
        exists (S fuel), r. cbn [tx_fifo_count].
        unfold bind, read_jiffies, inb, pass; cbn [hw wlog fst snd].
        rewrite Hgo, Hdr. cbn [hw wlog fst snd]. now rewrite Hval.
  - exists 1%nat. eexists. cbn [tx_fifo_count].
    unfold bind, read_jiffies, ret; cbn [hw wlog fst snd].
    now rewrite Hgo.
Qed.

Lemma tx_trig_loop_terminates d trig : forall rx_count (s : st W),
  exists fuel r, tx_trig_loop fuel d trig rx_count s = Some r.
Proof.
  intros rx_count s.
  remember (left d (hw s)) as n eqn:Hn. revert rx_count s Hn.
  induction n as [n IH] using lt_wf_ind. intros rx_count s Hn.
  destruct (time_before (jiffies (hw s)) d) eqn:Ht.
  - destruct (Z.land (u8 (fst (serial_in UART_LSR (hw s)))) UART_LSR_DR =? 0)
      eqn:Hdr.
    + destruct (thri_pending (u8 (fst (serial_in UART_IIR
                                     (snd (serial_in UART_LSR (hw s)))))))
        eqn:Hiir.
      * exists 1%nat. eexists. cbn [tx_trig_loop].
        unfold bind, read_jiffies, inb, pass, ret; cbn [hw wlog fst snd].
        rewrite Ht, Hdr. cbn [hw wlog fst snd]. now rewrite Hiir.
      * pose proof (@Hclock d _ [poll_lsr; poll_iir; poll_relax] Ht
                      ltac:(discriminate) ltac:(cbn; lia)) as Hlt.
        cbn [fold_left do_poll] in Hlt.
        destruct (IH _ ltac:(subst n; exact Hlt) rx_count
                    (mkSt (cpu_relax (snd (serial_in UART_IIR
                                        (snd (serial_in UART_LSR (hw s))))))
                          (wlog s)) eq_refl) as (fuel & r & Hrun).
        exists (S fuel), r. cbn [tx_trig_loop].
        unfold bind, read_jiffies, inb, pass, ret; cbn [hw wlog fst snd].
        rewrite Ht, Hdr. cbn [hw wlog fst snd]. now rewrite Hiir.
    + destruct (thri_pending (u8 (fst (serial_in UART_IIR
                  (snd (serial_in UART_RX (snd (serial_in UART_LSR (hw s)))))))))
        eqn:Hiir.
      * exists 1%nat. eexists. cbn [tx_trig_loop].
        unfold bind, read_jiffies, inb, pass, ret; cbn [hw wlog fst snd].
        rewrite Ht, Hdr. cbn [hw wlog fst snd]. now rewrite Hiir.
      * pose proof (@Hclock d _ [poll_lsr; poll_rx; poll_iir; poll_relax] Ht
                      ltac:(discriminate) ltac:(cbn; lia)) as Hlt.
        cbn [fold_left do_poll] in Hlt.
        destruct (IH _ ltac:(subst n; exact Hlt) (rx_count + 1)
                    (mkSt (cpu_relax (snd (serial_in UART_IIR
                             (snd (serial_in UART_RX
                                (snd (serial_in UART_LSR (hw s))))))))
                          (wlog s)) eq_refl) as (fuel & r & Hrun).
        exists (S fuel), r. cbn [tx_trig_loop].
        unfold bind, read_jiffies, inb, pass, ret; cbn [hw wlog fst snd].
        rewrite Ht, Hdr. cbn [hw wlog fst snd]. now rewrite Hiir.
  - exists 1%nat. eexists. cbn [tx_trig_loop].
    unfold bind, read_jiffies, ret; cbn [hw wlog fst snd].
    now rewrite Ht.
Qed.

Lemma tx_fifo_size_read_terminates rx_count selected_dev (s : st W) :
  exists fuel r, tx_fifo_size_read fuel rx_count selected_dev s = Some r.
Proof.
  unfold tx_fifo_size_read.
  destruct (resolve_port selected_dev) as [e | [port u]];
    [exists 0%nat; unfold ret; eauto |].
  unfold tx_fifo_body.
  destruct (fifo_size_enter_total u s) as (snap & s1 & Henter).
  destruct (tx_fill_run (Z.to_nat FIFO_SIZE_MAX) s1 0) as (w2 & Hfill).
  set (s3 := mkSt (mdelay 50 w2)
                  (wlog s1 ++ repeat (UART_TX, 255) (Z.to_nat FIFO_SIZE_MAX))).
  destruct (tx_fifo_count_terminates
              (ulong (jiffies (hw s3) + msecs_to_jiffies 500))
              (0 + Z.of_nat (Z.to_nat FIFO_SIZE_MAX)) rx_count s3)
    as (fuel & [rx s4] & Hcnt).
  destruct (restore_config_total snap s4) as (s5 & Hrestore).
  exists fuel.
  rewrite (bind_run _ _ _ Henter), (bind_run _ _ _ Hfill).
  unfold bind at 1. unfold pass at 1. cbn [hw wlog].
  unfold bind at 1. unfold read_jiffies at 1. cbn [hw wlog].
  fold s3. rewrite (bind_run _ _ _ Hcnt), (bind_run _ _ _ Hrestore).
  unfold ret. eauto.
Qed.

Lemma tx_trig_enter_terminates pending (s : st W) :
  rx_drains pending ->
  exists fuel r, tx_trig_enter fuel s = Some r.
Proof.
  intros Hd.
  unfold tx_trig_enter, set_baud, bind, inb, outb, ret.
  cbn [hw wlog fst snd].
  match goal with
  | |- exists fuel r, match drain_rx fuel ?s1 with _ => _ end = _ =>
      destruct (drain_rx_terminates Hd s1) as (fuel & s2 & Hdrain)
  end.
  exists fuel. rewrite Hdrain. eauto.
Qed.

Lemma tx_trig_probe_read_terminates pending trig selected_dev (s : st W) :
  rx_drains pending ->
  exists fuel r, tx_trig_probe_read fuel trig selected_dev s = Some r.
Proof.
  intros Hd. unfold tx_trig_probe_read.
  destruct (resolve_port selected_dev) as [e | [port u]];
    [exists 0%nat; unfold ret; eauto |].
  destruct (tx_trig_enter_terminates s Hd) as (fuel0 & [[snap old_ier] s1] & Henter).
  destruct (thr_fill_run (Z.to_nat (fifosize port + 1)) s1) as (w2 & Hfill).
  destruct (tx_trig_loop_terminates
              (ulong (jiffies w2 + msecs_to_jiffies 1500)) trig 0
              (mkSt w2 (wlog s1 ++ repeat (UART_TX, 255)
                                     (Z.to_nat (fifosize port + 1)))))
    as (fuel1 & [trig' s3] & Hloop).
  destruct (@tx_trig_body_run _ _ pending fuel0 fuel1 trig port s _ _ _
              _ _ _ Hd Henter Hfill Hloop) as (fuel & s' & Hrun & _).
  exists fuel. eauto.
Qed.

End Termination.

(** *** The ticking clock of the register file *)

Lemma jiffies_left_decreases d now j :
  time_before now d = true -> 1 <= j <= 4 ->
  (jiffies_left d (now + j) < jiffies_left d now)%nat.
Proof.
  unfold jiffies_left. intros Ht Hj. rewrite Ht.
  unfold time_before, to_long, ulong, BITS_PER_LONG in *.
  change (2 ^ (64 - 1)) with 9223372036854775808 in *.
  change (2 ^ 64) with 18446744073709551616 in *.
  repeat match goal with
         | H : context [?a <? ?b] |- _ => destruct (Z.ltb_spec a b)
         | |- context [?a <? ?b] => destruct (Z.ltb_spec a b)
         end; try discriminate;
    Z.div_mod_to_equations; lia.
Qed.

Lemma sim_poll_ticks (sc : Sim.script) (ops : list poll_op) : forall w,
  Sim.r_now (fold_left (@do_poll _ (Sim.machine sc)) ops w)
  = Sim.r_now w + Z.of_nat (List.length ops).
Proof.
  induction ops as [| op ops IH]; intros w; cbn [fold_left List.length].
  - cbn. lia.
  - rewrite IH. rewrite Nat2Z.inj_succ.
    destruct op; cbn; unfold Sim.read; cbn;
      try destruct (Sim.dlab w); cbn; lia.
Qed.

Lemma sim_clock_advances (sc : Sim.script) :
  Sim.jiffies_of sc = Sim.r_now ->
  @clock_advances _ (Sim.machine sc) (fun d r => jiffies_left d (Sim.r_now r)).
Proof.
  intros Hclk d w ops Ht Hne Hlen. cbn in Ht. rewrite Hclk in Ht.
  rewrite sim_poll_ticks.
  apply jiffies_left_decreases; [exact Ht |].
  destruct ops; [congruence | cbn [List.length] in *; lia].
Qed.

Lemma tx_echo_script_drains (m : Z) :
  @rx_drains _ (Sim.machine (tx_echo_script m))
    (fun r => Z.to_nat (m - Sim.r_drained r)).
Proof.
  intros w. cbn.
  change (Sim.dlab (Sim.tick w)) with (Sim.dlab w).
  destruct (Sim.dlab w) eqn:Hdlab; cbn; [intros H; now elim H |].
  destruct ((0 <? Sim.r_sent w) && (Sim.r_drained w <? m)) eqn:Hc; cbn;
    [| intros H; now elim H].
  intros _. apply andb_true_iff in Hc. destruct Hc as [_ Hlt].
  apply Z.ltb_lt in Hlt. lia.
Qed.

(** *** A receive queue that never empties *)

Lemma stuck_drain_never_returns fuel : forall s : st Sim.regs,
  @drain_rx _ (Sim.machine stuck_ready_script) fuel s = None.
Proof.
  induction fuel as [| fuel IH]; intros s; cbn [drain_rx]; [reflexivity |].
  unfold bind, inb; cbn [hw wlog fst snd]. cbn. apply IH.
Qed.

(** A probe whose drain loop never ends never returns. *)
Lemma endless_drain_never_returns {W} {mach : Machine W} :
  (forall fuel (s : st W), drain_rx fuel s = None) ->
  forall fuel selected_dev port u8250p (s : st W),
    resolve_port selected_dev = inr (port, u8250p) ->
    rx_trig_probe_read fuel selected_dev s = None.
Proof.
  intros Hstuck fuel sel port u s Hres.
  unfold rx_trig_probe_read. rewrite Hres. unfold rx_trig_body.
  destruct (rx_trig_enter_total u s) as (snap & s1 & Henter).
  destruct (rx_trig_loop_total 255 1 s1) as ([trig s2] & Hloop).
  rewrite (bind_run _ _ _ Henter), (bind_run _ _ _ Hloop).
  unfold bind at 1. unfold outb at 1.
  unfold bind at 1. now rewrite Hstuck.
Qed.

(** C8, as the code has it.  The loops that measure are bounded: by a byte
    count, or by a deadline that a running clock reaches.  The receive
    drain loops of the two trigger probes have no bound of either kind and
    end when the port reports its receive queue empty.  So: the RX FIFO
    size probe returns on every port; the TX FIFO size probe returns on
    every port whose polling takes time; the RX trigger probe returns on
    every port whose receive queue drains; the TX trigger probe returns on
    every port with both properties whose rated FIFO size is below
    [INT_MAX], the range in which its fill loop
    [for (int i = 0; i <= port->fifosize; i++)] ends. *)
Theorem probes_return_when_queue_drains_and_clock_runs :
  forall (W : Type) (mach : Machine W)
         (pending : W -> nat) (left : Z -> W -> nat)
         (indeterminate : Z) (selected_dev : string) (s : st W),
    (exists r, rx_fifo_size_read selected_dev s = Some r) /\
    (clock_advances left ->
     exists fuel r,
       tx_fifo_size_read fuel indeterminate selected_dev s = Some r) /\
    (rx_drains pending ->
     exists fuel r, rx_trig_probe_read fuel selected_dev s = Some r) /\
    (rx_drains pending -> clock_advances left ->
     (forall port u8250p,
         resolve_port selected_dev = inr (port, u8250p) ->
         0 <= fifosize port < INT_MAX) ->
     exists fuel r,
       tx_trig_probe_read fuel indeterminate selected_dev s = Some r).
Proof.
  intros W mach pending left g sel s. repeat split.
  - apply rx_fifo_size_read_total.
  - intros Hclock. now apply tx_fifo_size_read_terminates with left.
  - intros Hd. now apply rx_trig_probe_read_terminates with pending.
  - intros Hd Hclock _.
    now apply tx_trig_probe_read_terminates with left pending.
Qed.

Lemma probes_return_when_queue_drains_and_clock_runs_witness :
  (exists r,
     @rx_fifo_size_read _ (Sim.machine (tx_echo_script 3)) "ttyS0" Sim.start
     = Some r) /\
  (exists fuel r,
     @tx_fifo_size_read _ (Sim.machine (tx_echo_script 3)) fuel 0 "ttyS0"
       Sim.start = Some r) /\
  (exists fuel r,
     @rx_trig_probe_read _ (Sim.machine (tx_echo_script 3)) fuel "ttyS0"
       Sim.start = Some r) /\
  (exists fuel r,
     @tx_trig_probe_read _ (Sim.machine (tx_echo_script 3)) fuel 0 "ttyS0"
       Sim.start = Some r).
Proof.
  destruct (@probes_return_when_queue_drains_and_clock_runs _
              (Sim.machine (tx_echo_script 3))
              (fun r => Z.to_nat (3 - Sim.r_drained r))
              (fun d r => jiffies_left d (Sim.r_now r))
              0 "ttyS0" Sim.start) as (H1 & H2 & H3 & H4).
  pose proof (tx_echo_script_drains 3) as Hd.
  pose proof (sim_clock_advances (tx_echo_script 3) eq_refl) as Hc.
  assert (Hsize : forall port u8250p,
             @resolve_port _ (Sim.machine (tx_echo_script 3)) "ttyS0"
             = inr (port, u8250p) ->
             0 <= fifosize port < INT_MAX).
  { intros port u Hres.
    change (@resolve_port _ (Sim.machine (tx_echo_script 3)) "ttyS0")
      with (@inr probe_result _ (Sim.port16 0x81, {| fcr := 0x81 |})) in Hres.
    injection Hres as <- _. cbn. unfold INT_MAX. lia. }
  repeat split; auto.
Defined.

(** C8 as stated fails: on a port whose data-ready bit never clears, with
    the clock running, the RX trigger probe never returns. *)
Lemma rx_trig_probe_hangs_on_stuck_data_ready :
  ~ exists fuel r,
      @rx_trig_probe_read _ (Sim.machine stuck_ready_script) fuel "ttyS0"
        Sim.start = Some r.
Proof.
  intros (fuel & r & Hrun).
  rewrite (@endless_drain_never_returns _ (Sim.machine stuck_ready_script)
             (fun f s => stuck_drain_never_returns f s) fuel "ttyS0"
             (Sim.port16 0x81) {| fcr := 0x81 |} Sim.start eq_refl) in Hrun.
  discriminate.
Qed.

(** *** A port that reports the trigger and keeps data ready *)

Lemma rx_trig_stuck_drain_never_returns (k : Z) fuel :
  forall s : st Sim.regs,
    @drain_rx _ (Sim.machine (rx_trig_stuck_script k)) fuel s = None.
Proof.
  induction fuel as [| fuel IH]; intros s; cbn [drain_rx]; [reflexivity |].
  unfold bind, inb; cbn [hw wlog fst snd]. cbn. apply IH.
Qed.

(** C3 as stated fails: this port reports the receive-data condition
    exactly when 3 bytes have been transmitted, and the measurement loop
    finds 3; but its data-ready bit never clears, and the probe does not
    return 3: it does not return. *)
Lemma rx_trig_probe_needs_draining_queue :
  (forall w : Sim.regs,
      rdi_pending
        (u8 (fst (@serial_in _ (Sim.machine (rx_trig_stuck_script 3))
                    UART_IIR w)))
      = (Sim.r_sent w =? 3)) /\
  option_map fst
    (bind (@rx_trig_enter _ (Sim.machine (rx_trig_stuck_script 3))
             {| fcr := 0x81 |})
          (fun _ => @rx_trig_loop _ (Sim.machine (rx_trig_stuck_script 3))
                      255 1)
          Sim.start)
  = Some 3 /\
  ~ exists fuel r,
      @rx_trig_probe_read _ (Sim.machine (rx_trig_stuck_script 3)) fuel
        "ttyS0" Sim.start = Some r.
Proof.
  split; [| split].
  - intros w. cbn. unfold Sim.read. cbn. now destruct (Sim.r_sent w =? 3).
  - vm_compute. reflexivity.
  - intros (fuel & r & Hrun).
    rewrite (@endless_drain_never_returns _
               (Sim.machine (rx_trig_stuck_script 3))
               (fun f s => rx_trig_stuck_drain_never_returns 3 f s)
               fuel "ttyS0" (Sim.port16 0x81) {| fcr := 0x81 |} Sim.start
               eq_refl) in Hrun.
    discriminate.
Qed.

(** ** What the probes leave in the register file *)

Section SimFrame.
Variable sc : Sim.script.
Let mach : Machine Sim.regs := Sim.machine sc.
Existing Instance mach.

Lemma cfg_dlab r r' : cfg_of r = cfg_of r' -> Sim.dlab r = Sim.dlab r'.
Proof. unfold cfg_of, Sim.dlab. now intros [= -> _ _ _ _ _]. Qed.

Lemma sim_read_cfg reg r : cfg_of (snd (Sim.read sc reg r)) = cfg_of r.
Proof.
  unfold Sim.read.
  repeat match goal with
         | |- context [if ?c then _ else _] => destruct c
         end; reflexivity.
Qed.

Lemma sim_tick_cfg r : cfg_of (Sim.tick r) = cfg_of r.
Proof. reflexivity. Qed.

Lemma sim_write_tx_cfg v r :
  Sim.dlab r = false -> cfg_of (Sim.write UART_TX v r) = cfg_of r.
Proof. intros H. unfold Sim.write. cbn. now rewrite H. Qed.

Lemma sim_drain_cfg fuel : forall (s s' : st Sim.regs) u,
  drain_rx fuel s = Some (u, s') -> cfg_of (hw s') = cfg_of (hw s).
Proof.
  induction fuel as [| fuel IH]; intros s s' u; cbn [drain_rx]; [discriminate |].
  unfold bind, inb, ret; cbn [hw wlog fst snd].
  destruct (Z.land _ UART_LSR_DR =? 0).
  - intros [= _ <-]. cbn [hw]. apply (sim_read_cfg UART_LSR).
  - intros H. apply IH in H. cbn [hw] in H.
    rewrite H. etransitivity;
      [apply (sim_read_cfg UART_RX) | apply (sim_read_cfg UART_LSR)].
Qed.

Lemma sim_rx_trig_loop_cfg n : forall trig (s s' : st Sim.regs) r,
  rx_trig_loop n trig s = Some (r, s') ->
  Sim.dlab (hw s) = false ->
  cfg_of (hw s') = cfg_of (hw s).
Proof.
  induction n as [| n IH]; intros trig s s' r; cbn [rx_trig_loop].
  - now intros [= _ <-].
  - unfold bind, outb, pass, inb, ret; cbn [hw wlog fst snd].
    change (@serial_in _ mach) with (Sim.read sc).
    change (@serial_out _ mach) with Sim.write.
    change (@udelay _ mach 100) with Sim.tick.
    intros H Hdlab.
    assert (Hstep : cfg_of (snd (Sim.read sc UART_IIR
                                   (Sim.tick (Sim.write UART_TX 85 (hw s)))))
                    = cfg_of (hw s)).
    { rewrite sim_read_cfg. now rewrite <- (sim_write_tx_cfg 85 _ Hdlab). }
    destruct (rdi_pending _).
    + injection H as _ <-. exact Hstep.
    + apply IH in H; cbn [hw] in *.
      * now rewrite H.
      * now rewrite (cfg_dlab Hstep).
Qed.

Lemma sim_restore_ier snap (s s' : st Sim.regs) :
  restore_config snap s = Some (tt, s') ->
  Sim.r_ier (hw s') = Sim.r_ier (hw s) /\
  Sim.r_fcr (hw s') = u8 (old_fcr snap) /\
  Sim.r_mcr (hw s') = u8 (old_mcr snap) /\
  Sim.r_lcr (hw s') = u8 (old_lcr snap) /\
  Sim.r_dll (hw s') = u8 (Z.land (old_dl snap) 0xff) /\
  Sim.r_dlm (hw s') = u8 (Z.shiftr (old_dl snap) 8).
Proof.
  unfold restore_config, bind, outb. cbn [hw wlog].
  intros [= <-]. cbn [hw]. repeat split; reflexivity.
Qed.

Lemma sim_rx_trig_enter u8250p (s s1 : st Sim.regs) snap :
  rx_trig_enter u8250p s = Some (snap, s1) ->
  Sim.r_lcr (hw s1) = 0x03 /\
  Sim.r_ier (hw s1) = UART_IER_RDI /\
  Sim.r_dll (hw s1) = 1 /\ Sim.r_dlm (hw s1) = 0 /\
  Sim.r_mcr (hw s1) = u8 (Z.lor (u8 (Sim.r_mcr (hw s))) UART_MCR_LOOP) /\
  Sim.r_fcr (hw s1)
  = u8 (Z.lor (Z.lor (fcr u8250p) UART_FCR_CLEAR_RCVR) UART_FCR_CLEAR_XMIT) /\
  snap = {| old_lcr := u8 (Sim.r_lcr (hw s)); old_fcr := fcr u8250p;
            old_mcr := u8 (Sim.r_mcr (hw s));
            old_dl := u32 (Z.lor (Sim.r_dll (hw s))
                                 (Z.shiftl (Sim.r_dlm (hw s)) 8)) |}.
Proof.
  unfold rx_trig_enter, set_baud, bind, outb, inb, ret. cbn [hw wlog fst snd].
  intros H. apply some_pair_inj in H as [<- <-]. cbn [hw].
  repeat split; reflexivity.
Qed.

Lemma sim_rx_trig_leaves_ier_zero fuel u8250p (s s' : st Sim.regs) res :
  rx_trig_body fuel u8250p s = Some (res, s') ->
  Sim.r_ier (hw s') = 0.
Proof.
  unfold rx_trig_body. intros Hrun.
  apply bind_inv in Hrun as (snap & s1 & Henter & Hrun).
  apply bind_inv in Hrun as (trig & s2 & Hloop & Hrun).
  apply bind_inv in Hrun as ([] & s3 & Hier & Hrun).
  apply bind_inv in Hrun as ([] & s4 & Hdrain & Hrun).
  apply bind_inv in Hrun as ([] & s5 & Hrestore & Hret).
  injection Hret as _ <-.
  apply sim_rx_trig_enter in Henter as (Hlcr & _).
  assert (Hdlab1 : Sim.dlab (hw s1) = false)
    by (unfold Sim.dlab; now rewrite Hlcr).
  apply sim_rx_trig_loop_cfg in Hloop; [| exact Hdlab1].
  pose proof (cfg_dlab Hloop) as Hdlab2. rewrite Hdlab1 in Hdlab2.
  apply sim_drain_cfg in Hdrain.
  apply sim_restore_ier in Hrestore as (-> & _).
  unfold cfg_of in Hdrain. injection Hdrain as _ _ _ -> _ _.
  unfold outb in Hier. injection Hier as <-. cbn [hw].
  change (@serial_out _ mach) with Sim.write.
  unfold Sim.write. cbn. now rewrite Hdlab2.
Qed.

End SimFrame.

Lemma rx_trig_enter_log {W} {mach : Machine W} u8250p (s s1 : st W) snap :
  rx_trig_enter u8250p s = Some (snap, s1) ->
  wlog s1 = wlog s ++ rx_trig_enter_writes snap.
Proof.
  unfold rx_trig_enter, set_baud, bind, outb, inb, ret. cbn [hw wlog fst snd].
  intros [= <- <-]. cbn [wlog]. unfold rx_trig_enter_writes, baud_writes.
  cbn [old_fcr old_mcr]. repeat rewrite <- app_assoc. reflexivity.
Qed.

Lemma rx_trig_loop_log {W} {mach : Machine W} n :
  forall trig (s s' : st W) r,
    rx_trig_loop n trig s = Some (r, s') ->
    exists k, (k <= n)%nat /\ wlog s' = wlog s ++ repeat (UART_TX, 0x55) k.
Proof.
  induction n as [| n IH]; intros trig s s' r; cbn [rx_trig_loop].
  - intros [= _ <-]. exists 0%nat. cbn. now rewrite app_nil_r.
  - unfold bind, outb, pass, inb, ret; cbn [hw wlog fst snd].
    destruct (rdi_pending _).
    + intros [= _ <-]. exists 1%nat. cbn. split; [lia | reflexivity].
    + intros H. apply IH in H as (k & Hk & ->). cbn [wlog].
      exists (S k). split; [lia |]. now rewrite <- app_assoc.
Qed.

(** C10.  After the RX trigger probe has returned the interrupt-enable
    register holds 0, whatever it held before: the probe writes the
    receive-data enable bit to it on entry and 0 after the measurement
    loop, its snapshot has no field for it and its restore sequence does
    not write it.  The first part gives all register writes of a run on any
    port; the second the register's final content on the register file,
    for every script and every initial content. *)
Theorem rx_trig_leaves_interrupt_enable_zero :
  (forall (W : Type) (mach : Machine W) (fuel : nat) (selected_dev : string)
          (port : uart_port) (u8250p : uart_8250_port)
          (s0 s' : st W) (res : probe_result),
     resolve_port selected_dev = inr (port, u8250p) ->
     rx_trig_probe_read fuel selected_dev s0 = Some (res, s') ->
     exists snap k,
       wlog s' = wlog s0 ++ rx_trig_enter_writes snap
                         ++ repeat (UART_TX, 0x55) k
                         ++ (UART_IER, 0) :: restore_writes snap) /\
  (forall (sc : Sim.script) (fuel : nat) (selected_dev : string)
          (port : uart_port) (u8250p : uart_8250_port)
          (s0 s' : st Sim.regs) (res : probe_result),
     @resolve_port _ (Sim.machine sc) selected_dev = inr (port, u8250p) ->
     @rx_trig_probe_read _ (Sim.machine sc) fuel selected_dev s0
       = Some (res, s') ->
     Sim.r_ier (hw s') = 0).
Proof.
  split.
  - intros W mach fuel sel port u s0 s' res Hres Hrun.
    unfold rx_trig_probe_read in Hrun. rewrite Hres in Hrun.
    unfold rx_trig_body in Hrun.
    apply bind_inv in Hrun as (snap & s1 & Henter & Hrun).
    apply bind_inv in Hrun as (trig & s2 & Hloop & Hrun).
    apply bind_inv in Hrun as ([] & s3 & Hier & Hrun).
    apply bind_inv in Hrun as ([] & s4 & Hdrain & Hrun).
    apply bind_inv in Hrun as ([] & s5 & Hrestore & Hret).
    injection Hret as _ <-.
    apply rx_trig_enter_log in Henter.
    apply rx_trig_loop_log in Hloop as (k & _ & Hlog2).
    apply drain_rx_log in Hdrain.
    destruct (restore_config_run snap s4) as (w5 & Hrestore').
    rewrite Hrestore' in Hrestore. injection Hrestore as <-.
    unfold outb in Hier. injection Hier as <-. cbn [wlog] in *.
    exists snap, k. rewrite Hdrain, Hlog2, Henter.
    repeat rewrite <- app_assoc. reflexivity.
  - intros sc fuel sel port u s0 s' res Hres Hrun.
    unfold rx_trig_probe_read in Hrun. rewrite Hres in Hrun.
    now apply sim_rx_trig_leaves_ier_zero in Hrun.
Qed.

Lemma rx_trig_leaves_interrupt_enable_zero_witness :
  exists res s',
    @rx_trig_probe_read _ (Sim.machine (rx_trig_script 3)) 1 "ttyS0" Sim.start
    = Some (res, s') /\
    Sim.r_ier (hw Sim.start) = 0x05 /\
    Sim.r_ier (hw s') = 0.
Proof.
  destruct rx_trig_leaves_interrupt_enable_zero as [_ Hsim].
  destruct (@rx_trig_probe_read _ (Sim.machine (rx_trig_script 3)) 1 "ttyS0"
              Sim.start) as [[res s'] |] eqn:Hrun.
  - exists res, s'. split; [reflexivity |]. split; [reflexivity |].
    apply (Hsim (rx_trig_script 3) 1%nat "ttyS0"%string
             (Sim.port16 0x81) {| fcr := 0x81 |} Sim.start s' res eq_refl Hrun).
  - vm_compute in Hrun. discriminate.
Defined.

(** *** The divisor latch round trip *)

Lemma divisor_split a b :
  0 <= a < 256 -> 0 <= b < 256 ->
  Z.lor a (Z.shiftl b 8) = a + 256 * b.
Proof.
  intros Ha Hb.
  assert (Hdisj : Z.land a (Z.shiftl b 8) = 0).
  { apply Z.bits_inj'. intros n Hn. rewrite Z.land_spec, Z.bits_0.
    destruct (Z.lt_ge_cases n 8) as [Hlt | Hge].
    - rewrite (Z.shiftl_spec_low b 8 n Hlt). apply andb_false_r.
    - replace a with (a mod 2 ^ 8) by (apply Z.mod_small; lia).
      rewrite Z.mod_pow2_bits_high by lia. reflexivity. }
  rewrite <- Z.lxor_lor by exact Hdisj.
  rewrite <- Z.add_nocarry_lxor by exact Hdisj.
  rewrite Z.shiftl_mul_pow2 by lia. lia.
Qed.

Lemma divisor_round_trip a b :
  0 <= a < 256 -> 0 <= b < 256 ->
  u8 (Z.land (u32 (Z.lor a (Z.shiftl b 8))) 0xff) = a /\
  u8 (Z.shiftr (u32 (Z.lor a (Z.shiftl b 8))) 8) = b.
Proof.
  intros Ha Hb. unfold u8, u32. rewrite divisor_split by assumption.
  change 255 with (Z.ones 8). rewrite Z.land_ones by lia.
  rewrite Z.shiftr_div_pow2 by lia.
  change (2 ^ 32) with 4294967296. change (2 ^ 8) with 256.
  split; Z.div_mod_to_equations; lia.
Qed.

Lemma u8_byte v : 0 <= v < 256 -> u8 v = v.
Proof. intros H. unfold u8. now apply Z.mod_small. Qed.

Section SimRestore.
Variable sc : Sim.script.
Let mach : Machine Sim.regs := Sim.machine sc.
Existing Instance mach.

Lemma sim_rx_fifo_loop_cfg n : forall count_tx (s s' : st Sim.regs) r,
  rx_fifo_loop n count_tx s = Some (r, s') ->
  Sim.dlab (hw s) = false ->
  cfg_of (hw s') = cfg_of (hw s).
Proof.
  induction n as [| n IH]; intros count_tx s s' r; cbn [rx_fifo_loop].
  - now intros [= _ <-].
  - unfold bind, outb, pass, inb, ret; cbn [hw wlog fst snd].
    change (@serial_in _ mach) with (Sim.read sc).
    change (@serial_out _ mach) with Sim.write.
    change (@mdelay _ mach 1) with Sim.tick.
    intros H Hdlab.
    assert (Hstep : cfg_of (snd (Sim.read sc UART_LSR
                                   (Sim.tick (Sim.write UART_TX 255 (hw s)))))
                    = cfg_of (hw s)).
    { rewrite sim_read_cfg. now rewrite <- (sim_write_tx_cfg 255 _ Hdlab). }
    destruct (Z.land _ UART_LSR_OE =? 0).
    + apply IH in H; cbn [hw] in *.
      * now rewrite H.
      * now rewrite (cfg_dlab Hstep).
    + injection H as _ <-. exact Hstep.
Qed.

Lemma sim_tx_fill_cfg n : forall tx_count (s s' : st Sim.regs) r,
  tx_fill n tx_count s = Some (r, s') ->
  Sim.dlab (hw s) = false ->
  cfg_of (hw s') = cfg_of (hw s).
Proof.
  induction n as [| n IH]; intros tx_count s s' r; cbn [tx_fill].
  - now intros [= _ <-].
  - unfold bind, outb; cbn [hw wlog].
    change (@serial_out _ mach) with Sim.write.
    intros H Hdlab.
    pose proof (sim_write_tx_cfg 255 _ Hdlab) as Hstep.
    apply IH in H; cbn [hw] in *.
    + now rewrite H.
    + now rewrite (cfg_dlab Hstep).
Qed.

Lemma sim_thr_fill_cfg n : forall (s s' : st Sim.regs) r,
  thr_fill n s = Some (r, s') ->
  Sim.dlab (hw s) = false ->
  cfg_of (hw s') = cfg_of (hw s).
Proof.
  induction n as [| n IH]; intros s s' r; cbn [thr_fill].
  - now intros [= _ <-].
  - unfold bind, outb; cbn [hw wlog].
    change (@serial_out _ mach) with Sim.write.
    intros H Hdlab.
    pose proof (sim_write_tx_cfg 255 _ Hdlab) as Hstep.
    apply IH in H; cbn [hw] in *.
    + now rewrite H.
    + now rewrite (cfg_dlab Hstep).
Qed.

Lemma sim_tx_fifo_count_cfg fuel : forall d rx tx (s s' : st Sim.regs) r,
  tx_fifo_count fuel d rx tx s = Some (r, s') ->
  cfg_of (hw s') = cfg_of (hw s).
Proof.
  induction fuel as [| fuel IH]; intros d rx tx s s' r;
    cbn [tx_fifo_count]; [discriminate |].
  unfold bind, read_jiffies, inb, pass, ret; cbn [hw wlog fst snd].
  change (@serial_in _ mach) with (Sim.read sc).
  change (@cpu_relax _ mach) with Sim.tick.
  destruct (_ && _); [| now intros [= _ <-]].
  destruct (Z.land _ UART_LSR_DR =? 0); cbn [hw wlog fst snd].
  - intros H. apply IH in H. cbn [hw] in H. rewrite H.
    now rewrite sim_tick_cfg, sim_read_cfg.
  - destruct (_ =? 255); intros H; apply IH in H; cbn [hw] in H;
      rewrite H; now rewrite !sim_read_cfg.
Qed.

Lemma sim_tx_trig_loop_cfg fuel : forall d trig rx (s s' : st Sim.regs) r,
  tx_trig_loop fuel d trig rx s = Some (r, s') ->
  cfg_of (hw s') = cfg_of (hw s).
Proof.
  induction fuel as [| fuel IH]; intros d trig rx s s' r;
    cbn [tx_trig_loop]; [discriminate |].
  unfold bind, read_jiffies, inb, pass, ret; cbn [hw wlog fst snd].
  change (@serial_in _ mach) with (Sim.read sc).
  change (@cpu_relax _ mach) with Sim.tick.
  destruct (time_before _ d); [| now intros [= _ <-]].
  destruct (Z.land _ UART_LSR_DR =? 0); cbn [hw wlog fst snd];
    destruct (thri_pending _); intros H;
    try (apply some_pair_inj in H as [_ <-]; cbn [hw];
         now rewrite !sim_read_cfg);
    apply IH in H; cbn [hw] in H; rewrite H;
    rewrite sim_tick_cfg; now rewrite !sim_read_cfg.
Qed.

End SimRestore.

Section SimProbes.
Variable sc : Sim.script.
Let mach : Machine Sim.regs := Sim.machine sc.
Existing Instance mach.

Lemma sim_fifo_size_enter u8250p (s s1 : st Sim.regs) snap :
  fifo_size_enter u8250p s = Some (snap, s1) ->
  Sim.r_lcr (hw s1) = UART_LCR_WLEN8 /\
  Sim.r_ier (hw s1) = Sim.r_ier (hw s) /\
  Sim.r_dll (hw s1) = 1 /\ Sim.r_dlm (hw s1) = 0 /\
  Sim.r_mcr (hw s1) = u8 (Z.lor (u8 (Sim.r_mcr (hw s))) UART_MCR_LOOP) /\
  Sim.r_fcr (hw s1) = 0x07 /\
  snap = {| old_lcr := u8 (Sim.r_lcr (hw s)); old_fcr := fcr u8250p;
            old_mcr := u8 (Sim.r_mcr (hw s));
            old_dl := u32 (Z.lor (Sim.r_dll (hw s))
                                 (Z.shiftl (Sim.r_dlm (hw s)) 8)) |}.
Proof.
  unfold fifo_size_enter, set_baud, bind, outb, inb, ret.
  cbn [hw wlog fst snd].
  intros H. apply some_pair_inj in H as [<- <-]. cbn [hw].
  repeat split; reflexivity.
Qed.

Lemma sim_tx_trig_enter fuel (s s1 : st Sim.regs) snap old_ier :
  tx_trig_enter fuel s = Some ((snap, old_ier), s1) ->
  Sim.r_lcr (hw s1) = UART_LCR_WLEN8 /\
  Sim.r_ier (hw s1) = UART_IER_THRI /\
  Sim.r_dll (hw s1) = 1 /\ Sim.r_dlm (hw s1) = 0 /\
  Sim.r_mcr (hw s1) = u8 (Z.lor (u8 (Sim.r_mcr (hw s))) UART_MCR_LOOP) /\
  Sim.r_fcr (hw s1) = 0x07 /\
  old_ier = u8 (Sim.r_ier (hw s)) /\
  snap = {| old_lcr := u8 (Sim.r_lcr (hw s));
            old_fcr := u8 (fst (Sim.read sc UART_IIR
                                  (Sim.write UART_LCR 0
                                     (snd (Sim.read sc UART_LCR (hw s))))));
            old_mcr := u8 (Sim.r_mcr (hw s));
            old_dl := u32 (Z.lor (Sim.r_dll (hw s))
                                 (Z.shiftl (Sim.r_dlm (hw s)) 8)) |}.
Proof.
  unfold tx_trig_enter, set_baud, bind, outb, inb, ret.
  cbn [hw wlog fst snd].
  destruct (drain_rx fuel _) as [[[] s2] |] eqn:Hdrain; [| discriminate].
  apply sim_drain_cfg in Hdrain. cbn [hw] in Hdrain.
  unfold cfg_of in Hdrain.
  injection Hdrain as Hlcr Hmcr Hfcr Hier Hdll Hdlm.
  intros H. apply some_pair_inj in H as [H <-].
  apply pair_equal_spec in H as [<- <-]. cbn [hw].
  change (@serial_in _ mach) with (Sim.read sc).
  change (@serial_out _ mach) with Sim.write.
  repeat split; try reflexivity.
  - cbn. rewrite Hmcr. reflexivity.
  - cbn. rewrite Hfcr. reflexivity.
  - f_equal. cbn. rewrite Hdll, Hdlm. reflexivity.
Qed.

End SimProbes.

(** The phases of a run of [tx_fifo_body] that returns. *)
Lemma tx_fifo_body_inv {W} {mach : Machine W} fuel rx_count u8250p
      (s s' : st W) res :
  tx_fifo_body fuel rx_count u8250p s = Some (res, s') ->
  exists snap s1 tx_count s2 rx s5,
    fifo_size_enter u8250p s = Some (snap, s1) /\
    tx_fill (Z.to_nat FIFO_SIZE_MAX) 0 s1 = Some (tx_count, s2) /\
    tx_fifo_count fuel
      (ulong (jiffies (mdelay 50 (hw s2)) + msecs_to_jiffies 500))
      rx_count tx_count (mkSt (mdelay 50 (hw s2)) (wlog s2))
    = Some (rx, s5) /\
    restore_config snap s5 = Some (tt, s') /\
    res = tx_fifo_report rx.
Proof.
  unfold tx_fifo_body. intros Hrun.
  apply bind_inv in Hrun as (snap & s1 & Henter & Hrun).
  apply bind_inv in Hrun as (tx & s2 & Hfill & Hrun).
  apply bind_inv in Hrun as ([] & s3 & Hdelay & Hrun).
  apply bind_inv in Hrun as (now & s4 & Hnow & Hrun).
  apply bind_inv in Hrun as (rx & s5 & Hcount & Hrun).
  apply bind_inv in Hrun as ([] & s6 & Hrestore & Hret).
  unfold pass in Hdelay. injection Hdelay as <-.
  unfold read_jiffies in Hnow. injection Hnow as <- <-.
  unfold ret in Hret. injection Hret as <- <-.
  cbn [hw wlog] in Hcount.
  exists snap, s1, tx, s2, rx, s5. auto.
Qed.

Section SimRoundTrip.
Variable sc : Sim.script.
Let mach : Machine Sim.regs := Sim.machine sc.
Existing Instance mach.

Lemma sim_restore_snapshot lcr0 mcr0 dll0 dlm0 f (s s' : st Sim.regs) :
  0 <= lcr0 < 256 -> 0 <= mcr0 < 256 ->
  0 <= dll0 < 256 -> 0 <= dlm0 < 256 ->
  restore_config {| old_lcr := u8 lcr0; old_fcr := f; old_mcr := u8 mcr0;
                    old_dl := u32 (Z.lor dll0 (Z.shiftl dlm0 8)) |} s
  = Some (tt, s') ->
  cfg_of (hw s') = (lcr0, mcr0, u8 f, Sim.r_ier (hw s), dll0, dlm0).
Proof.
  intros Hlcr Hmcr Hdll Hdlm Hrun.
  apply sim_restore_ier in Hrun as (Hi & Hf & Hm & Hl & Hdl & Hdm).
  cbn [old_lcr old_fcr old_mcr old_dl] in *.
  destruct (divisor_round_trip Hdll Hdlm) as [Hlo Hhi].
  unfold cfg_of. rewrite Hi, Hf, Hm, Hl, Hdl, Hdm, Hlo, Hhi.
  rewrite !(u8_byte Hlcr), !(u8_byte Hmcr). reflexivity.
Qed.

Lemma sim_rx_fifo_restores u8250p (s s' : st Sim.regs) res :
  byte_regs (hw s) ->
  rx_fifo_body u8250p s = Some (res, s') ->
  cfg_of (hw s')
  = (Sim.r_lcr (hw s), Sim.r_mcr (hw s), u8 (fcr u8250p), Sim.r_ier (hw s),
     Sim.r_dll (hw s), Sim.r_dlm (hw s)).
Proof.
  intros (Hlcr & Hmcr & _ & _ & Hdll & Hdlm) Hrun. unfold rx_fifo_body in Hrun.
  apply bind_inv in Hrun as (snap & s1 & Henter & Hrun).
  apply bind_inv in Hrun as (size & s2 & Hloop & Hrun).
  apply bind_inv in Hrun as ([] & s3 & Hrestore & Hret).
  injection Hret as _ <-.
  apply sim_fifo_size_enter in Henter as (Hl1 & Hi1 & _ & _ & _ & _ & ->).
  assert (Hdlab1 : Sim.dlab (hw s1) = false)
    by (unfold Sim.dlab; now rewrite Hl1).
  apply sim_rx_fifo_loop_cfg in Hloop; [| exact Hdlab1].
  apply sim_restore_snapshot in Hrestore; try assumption.
  rewrite Hrestore. unfold cfg_of in Hloop.
  injection Hloop as _ _ _ -> _ _. now rewrite Hi1.
Qed.

Lemma sim_tx_fifo_restores fuel rx_count u8250p (s s' : st Sim.regs) res :
  byte_regs (hw s) ->
  tx_fifo_body fuel rx_count u8250p s = Some (res, s') ->
  cfg_of (hw s')
  = (Sim.r_lcr (hw s), Sim.r_mcr (hw s), u8 (fcr u8250p), Sim.r_ier (hw s),
     Sim.r_dll (hw s), Sim.r_dlm (hw s)).
Proof.
  intros (Hlcr & Hmcr & _ & _ & Hdll & Hdlm) Hrun.
  apply tx_fifo_body_inv in Hrun
    as (snap & s1 & tx & s2 & rx & s5 & Henter & Hfill & Hcount & Hrestore & _).
  apply sim_fifo_size_enter in Henter as (Hl1 & Hi1 & _ & _ & _ & _ & ->).
  assert (Hdlab1 : Sim.dlab (hw s1) = false)
    by (unfold Sim.dlab; now rewrite Hl1).
  apply sim_tx_fill_cfg in Hfill; [| exact Hdlab1].
  apply sim_tx_fifo_count_cfg in Hcount. cbn [hw] in Hcount.
  change (cfg_of (hw s5) = cfg_of (hw s2)) in Hcount.
  apply sim_restore_snapshot in Hrestore; try assumption.
  rewrite Hrestore. rewrite Hfill in Hcount. unfold cfg_of in Hcount.
  injection Hcount as _ _ _ -> _ _. now rewrite Hi1.
Qed.

Lemma sim_rx_trig_restores fuel u8250p (s s' : st Sim.regs) res :
  byte_regs (hw s) ->
  rx_trig_body fuel u8250p s = Some (res, s') ->
  cfg_of (hw s')
  = (Sim.r_lcr (hw s), Sim.r_mcr (hw s), u8 (fcr u8250p), 0,
     Sim.r_dll (hw s), Sim.r_dlm (hw s)).
Proof.
  intros (Hlcr & Hmcr & _ & _ & Hdll & Hdlm) Hrun.
  pose proof (@sim_rx_trig_leaves_ier_zero sc fuel u8250p s s' res Hrun) as Hier.
  unfold rx_trig_body in Hrun.
  apply bind_inv in Hrun as (snap & s1 & Henter & Hrun).
  apply bind_inv in Hrun as (trig & s2 & _ & Hrun).
  apply bind_inv in Hrun as ([] & s3 & _ & Hrun).
  apply bind_inv in Hrun as ([] & s4 & _ & Hrun).
  apply bind_inv in Hrun as ([] & s5 & Hrestore & Hret).
  injection Hret as _ <-.
  apply sim_rx_trig_enter in Henter as (_ & _ & _ & _ & _ & _ & ->).
  pose proof (sim_restore_ier Hrestore) as (Hi & _).
  apply sim_restore_snapshot in Hrestore; try assumption.
  rewrite Hrestore. now rewrite <- Hi, Hier.
Qed.

(** The TX trigger probe puts back what it read at offset [UART_FCR], the
    interrupt identification, as the FIFO control. *)
Lemma sim_tx_trig_restores fuel trig port (s s' : st Sim.regs) res :
  byte_regs (hw s) ->
  tx_trig_body fuel trig port s = Some (res, s') ->
  cfg_of (hw s')
  = (Sim.r_lcr (hw s), Sim.r_mcr (hw s),
     u8 (fst (Sim.read sc UART_IIR
                (Sim.write UART_LCR 0 (snd (Sim.read sc UART_LCR (hw s)))))),
     Sim.r_ier (hw s), Sim.r_dll (hw s), Sim.r_dlm (hw s)).
Proof.
  intros (Hlcr & Hmcr & _ & Hier & Hdll & Hdlm) Hrun.
  unfold tx_trig_body in Hrun.
  apply bind_inv in Hrun as ([snap old_ier] & s1 & Henter & Hrun).
  cbn [fst snd] in Hrun.
  apply bind_inv in Hrun as ([] & s2 & Hfill & Hrun).
  apply bind_inv in Hrun as (now & s3 & Hnow & Hrun).
  apply bind_inv in Hrun as (trig' & s4 & Hloop & Hrun).
  apply bind_inv in Hrun as ([] & s5 & Hoier & Hrun).
  apply bind_inv in Hrun as ([] & s6 & Hdrain & Hrun).
  apply bind_inv in Hrun as ([] & s7 & Hrestore & Hret).
  injection Hret as _ <-.
  apply sim_tx_trig_enter in Henter as (Hl1 & _ & _ & _ & _ & _ & -> & ->).
  assert (Hdlab1 : Sim.dlab (hw s1) = false)
    by (unfold Sim.dlab; now rewrite Hl1).
  apply sim_thr_fill_cfg in Hfill; [| exact Hdlab1].
  unfold read_jiffies in Hnow. injection Hnow as _ <-.
  apply sim_tx_trig_loop_cfg in Hloop.
  assert (Hdlab4 : Sim.dlab (hw s4) = false).
  { rewrite (cfg_dlab Hloop), (cfg_dlab Hfill). exact Hdlab1. }
  unfold outb in Hoier. injection Hoier as <-.
  apply sim_drain_cfg in Hdrain. cbn [hw] in Hdrain.
  apply sim_restore_snapshot in Hrestore; try assumption.
  rewrite Hrestore. unfold cfg_of in Hdrain.
  injection Hdrain as _ _ _ -> _ _.
  change (@serial_out _ mach) with Sim.write.
  unfold Sim.write. cbn. rewrite Hdlab4. cbn.
  rewrite u8_byte by (unfold u8; apply Z.mod_pos_bound; lia).
  rewrite !(u8_byte Hier). reflexivity.
Qed.

End SimRoundTrip.

(** *** The loopback session on the register file *)



(** C9 at the failing input.  On a port whose FIFO is off (FIFO control
    and its shadow both 0) the entry sequence of the RX trigger probe
    writes [0x06] to the FIFO control: both clear bits, but not
    [UART_FCR_ENABLE_FIFO].  The entry sequence of the two size probes
    writes [0x07] on the same port. *)
Theorem rx_trig_entry_leaves_fifo_off :
  option_map (fun p => cfg_of (hw (snd p)))
    (@rx_trig_enter _ (Sim.machine no_fifo_script) {| fcr := 0x00 |}
       (mkSt at_rest_no_fifo []))
  = Some (0x03, 0x1b, 0x06, 0x01, 0x01, 0x00) /\
  Z.land 0x06 UART_FCR_ENABLE_FIFO = 0 /\
  option_map (fun p => cfg_of (hw (snd p)))
    (@fifo_size_enter _ (Sim.machine no_fifo_script) {| fcr := 0x00 |}
       (mkSt at_rest_no_fifo []))
  = Some (0x03, 0x1b, 0x07, 0x05, 0x01, 0x00).
Proof. repeat split; vm_compute; reflexivity. Qed.

(** C1 at the failing input.  The port at rest has FIFO control [0x81] and
    reads [0xC1] at offset 2, its interrupt identification.  The TX
    trigger probe leaves [0xC1] in the FIFO control, both when the deadline
    passes and when the trigger level is found; every other configuration
    register is as before.  The RX FIFO size probe, which takes the FIFO
    control from the driver's shadow, leaves all of them as before. *)
Theorem tx_trig_restores_iir_as_fifo_control :
  cfg_of Sim.at_rest = (0x03, 0x0b, 0x81, 0x05, 0x0c, 0x00) /\
  option_map (fun p => cfg_of (hw (snd p)))
    (@tx_trig_probe_read _ (Sim.machine silent_script) 600 0 "ttyS0"
       Sim.start)
  = Some (0x03, 0x0b, 0xC1, 0x05, 0x0c, 0x00) /\
  option_map (fun p => (fst p, cfg_of (hw (snd p))))
    (@tx_trig_probe_read _ (Sim.machine (tx_trig_script 4)) 600 0 "ttyS0"
       Sim.start)
  = Some (Count 4, (0x03, 0x0b, 0xC1, 0x05, 0x0c, 0x00)) /\
  option_map (fun p => cfg_of (hw (snd p)))
    (@rx_fifo_size_read _ (Sim.machine silent_script) "ttyS0" Sim.start)
  = Some (0x03, 0x0b, 0x81, 0x05, 0x0c, 0x00).
Proof. repeat split; vm_compute; reflexivity. Qed.

(** * Transcripts of the probes

    What a run that gets past port resolution writes, and what it can
    report, on any port. *)

Section Transcripts.
Context {W : Type} {mach : Machine W}.

Lemma rx_trig_loop_transcript n : forall trig (s s' : st W) r,
  (1 <= n)%nat ->
  rx_trig_loop n trig s = Some (r, s') ->
  exists k, (1 <= k <= n)%nat /\
            wlog s' = wlog s ++ repeat (UART_TX, 0x55) k /\
            (r = trig + Z.of_nat k - 1 \/ (k = n /\ r = trig + Z.of_nat n)).
Proof.
  induction n as [| n IH]; intros trig s s' r Hn; [lia |].
  cbn [rx_trig_loop].
  unfold bind, outb, pass, inb, ret; cbn [hw wlog fst snd].
  destruct (rdi_pending _).
  - intros H. apply some_pair_inj in H as [<- <-]. exists 1%nat. cbn [wlog repeat].
    split; [lia |]. split; [reflexivity |]. left; lia.
  - destruct n as [| n].
    + cbn [rx_trig_loop]. unfold ret. intros H.
      apply some_pair_inj in H as [<- <-]. exists 1%nat. cbn [wlog repeat].
      split; [lia |]. split; [reflexivity |]. right; split; [reflexivity | lia].
    + intros H. apply IH in H as (k & Hk & Hlog & Hres); [| lia].
      cbn [wlog] in Hlog. exists (S k). split; [lia |]. split.
      * rewrite Hlog, <- app_assoc. reflexivity.
      * destruct Hres as [-> | [-> ->]]; [left | right; split; [reflexivity |]]; lia.
Qed.

Lemma rx_fifo_loop_transcript n : forall count_tx (s s' : st W) r,
  (1 <= n)%nat ->
  rx_fifo_loop n count_tx s = Some (r, s') ->
  exists k, (1 <= k <= n)%nat /\
            wlog s' = wlog s ++ repeat (UART_TX, 0xff) k /\
            (r = count_tx + Z.of_nat k - 1 \/ (k = n /\ r = 0)).
Proof.
  induction n as [| n IH]; intros count_tx s s' r Hn; [lia |].
  cbn [rx_fifo_loop].
  unfold bind, outb, pass, inb, ret; cbn [hw wlog fst snd].
  destruct (Z.land _ UART_LSR_OE =? 0).
  - destruct n as [| n].
    + cbn [rx_fifo_loop]. unfold ret. intros H.
      apply some_pair_inj in H as [<- <-]. exists 1%nat. cbn [wlog repeat].
      split; [lia |]. split; [reflexivity |]. right; split; reflexivity.
    + intros H. apply IH in H as (k & Hk & Hlog & Hres); [| lia].
      cbn [wlog] in Hlog. exists (S k). split; [lia |]. split.
      * rewrite Hlog, <- app_assoc. reflexivity.
      * destruct Hres as [-> | [-> ->]]; [left; lia | right; split; reflexivity].
  - intros H. apply some_pair_inj in H as [<- <-]. exists 1%nat. cbn [wlog repeat].
    split; [lia |]. split; [reflexivity |]. left; lia.
Qed.

Lemma tx_fifo_count_transcript fuel : forall d rx tx (s s' : st W) r,
  tx_fifo_count fuel d rx tx s = Some (r, s') ->
  wlog s' = wlog s /\ rx <= r /\ (rx <= tx -> r <= tx).
Proof.
  induction fuel as [| fuel IH]; intros d rx tx s s' r;
    cbn [tx_fifo_count]; [discriminate |].
  unfold bind, read_jiffies, inb, pass, ret; cbn [hw wlog fst snd].
  destruct (time_before _ d); cbn [andb].
  - destruct (Z.ltb_spec rx tx) as [Hlt | Hge].
    + destruct (Z.land _ UART_LSR_DR =? 0); cbn [hw wlog fst snd].
      * intros H. apply IH in H. cbn [wlog] in H. exact H.
      * destruct (_ =? 255); intros H; apply IH in H; cbn [wlog] in H;
          (repeat split; [apply H | lia | lia]).
    + intros H. apply some_pair_inj in H as [<- <-]. repeat split; lia.
  - intros H. apply some_pair_inj in H as [<- <-]. repeat split; lia.
Qed.

Lemma tx_trig_loop_transcript fuel : forall d trig rx (s s' : st W) r,
  0 <= rx ->
  tx_trig_loop fuel d trig rx s = Some (r, s') ->
  r = trig \/ rx <= r.
Proof.
  induction fuel as [| fuel IH]; intros d trig rx s s' r Hrx;
    cbn [tx_trig_loop]; [discriminate |].
  unfold bind, read_jiffies, inb, pass, ret; cbn [hw wlog fst snd].
  destruct (time_before _ d).
  - destruct (Z.land _ UART_LSR_DR =? 0); cbn [hw wlog fst snd];
      (destruct (thri_pending _); intros H;
       [apply some_pair_inj in H as [<- _]; right; lia
       | apply IH in H; [destruct H; [now left | right; lia] | lia]]).
  - intros H. apply some_pair_inj in H as [<- _]. now left.
Qed.

Lemma fifo_size_enter_log u8250p (s s1 : st W) snap :
  fifo_size_enter u8250p s = Some (snap, s1) ->
  wlog s1 = wlog s ++ fifo_size_enter_writes snap /\
  old_fcr snap = fcr u8250p /\
  old_lcr snap = u8 (fst (serial_in UART_LCR (hw s))).
Proof.
  unfold fifo_size_enter, set_baud, bind, outb, inb, ret.
  cbn [hw wlog fst snd].
  intros H. apply some_pair_inj in H as [<- <-]. cbn [wlog].
  unfold fifo_size_enter_writes, baud_writes.
  cbn [old_fcr old_mcr old_lcr]. repeat rewrite <- app_assoc. auto.
Qed.

Lemma tx_trig_enter_log fuel (s s1 : st W) snap old_ier :
  tx_trig_enter fuel s = Some ((snap, old_ier), s1) ->
  wlog s1 = wlog s ++ tx_trig_enter_writes snap /\
  old_lcr snap = u8 (fst (serial_in UART_LCR (hw s))) /\
  old_fcr snap
  = u8 (fst (serial_in UART_IIR
               (serial_out UART_LCR 0 (snd (serial_in UART_LCR (hw s)))))).
Proof.
  unfold tx_trig_enter, set_baud, bind, outb, inb, ret.
  cbn [hw wlog fst snd].
  destruct (drain_rx fuel _) as [[[] s2] |] eqn:Hdrain; [| discriminate].
  apply drain_rx_log in Hdrain. cbn [wlog] in Hdrain.
  intros H. apply some_pair_inj in H as [H <-].
  apply pair_equal_spec in H as [<- <-]. cbn [wlog].
  rewrite Hdrain. unfold tx_trig_enter_writes, baud_writes.
  cbn [old_fcr old_mcr old_lcr]. repeat rewrite <- app_assoc. auto.
Qed.

(** The modem control and the interrupt enable that [tx_trig_enter] keeps
    are what the port answered to its third and fourth read. *)
Lemma tx_trig_enter_reads fuel (s s1 : st W) snap old_ier :
  tx_trig_enter fuel s = Some ((snap, old_ier), s1) ->
  old_mcr snap
  = u8 (fst (serial_in UART_MCR
               (snd (serial_in UART_IIR
                       (serial_out UART_LCR 0
                          (snd (serial_in UART_LCR (hw s)))))))) /\
  old_ier
  = u8 (fst (serial_in UART_IER
               (snd (serial_in UART_MCR
                       (snd (serial_in UART_IIR
                               (serial_out UART_LCR 0
                                  (snd (serial_in UART_LCR (hw s)))))))))).
Proof.
  unfold tx_trig_enter, set_baud, bind, outb, inb, ret.
  cbn [hw wlog fst snd].
  destruct (drain_rx fuel _) as [[[] s2] |] eqn:Hdrain; [| discriminate].
  intros H. apply some_pair_inj in H as [H _].
  apply pair_equal_spec in H as [<- <-]. cbn [old_mcr]. auto.
Qed.

End Transcripts.

Lemma rx_trig_enter_fcr {W} {mach : Machine W} u8250p (s s1 : st W) snap :
  rx_trig_enter u8250p s = Some (snap, s1) -> old_fcr snap = fcr u8250p.
Proof.
  unfold rx_trig_enter, set_baud, bind, outb, inb, ret.
  cbn [hw wlog fst snd].
  intros H. apply some_pair_inj in H as [<- _]. reflexivity.
Qed.

Lemma rx_trig_body_transcript {W} {mach : Machine W} fuel u8250p
      (s0 s' : st W) res :
  rx_trig_body fuel u8250p s0 = Some (res, s') ->
  exists snap k,
    (1 <= k <= 255)%nat /\
    old_fcr snap = fcr u8250p /\
    wlog s' = wlog s0 ++ rx_trig_enter_writes snap
                      ++ repeat (UART_TX, 0x55) k
                      ++ (UART_IER, 0) :: restore_writes snap /\
    (res = Count (Z.of_nat k) \/
     (k = 255%nat /\ res = Message rx_trig_failed)).
Proof.
  intros Hrun. unfold rx_trig_body in Hrun.
  apply bind_inv in Hrun as (snap & s1 & Henter & Hrun).
  apply bind_inv in Hrun as (trig & s2 & Hloop & Hrun).
  apply bind_inv in Hrun as ([] & s3 & Hier & Hrun).
  apply bind_inv in Hrun as ([] & s4 & Hdrain & Hrun).
  apply bind_inv in Hrun as ([] & s5 & Hrestore & Hret).
  apply some_pair_inj in Hret as [<- <-].
  pose proof (rx_trig_enter_fcr Henter) as Hfcr.
  apply rx_trig_enter_log in Henter.
  apply rx_trig_loop_transcript in Hloop as (k & Hk & Hlog2 & Hr); [| lia].
  apply drain_rx_log in Hdrain.
  destruct (restore_config_run snap s4) as (w5 & Hrestore').
  rewrite Hrestore' in Hrestore. apply some_pair_inj in Hrestore as [_ <-].
  unfold outb in Hier. apply some_pair_inj in Hier as [_ <-].
  cbn [wlog] in *.
  exists snap, k. split; [exact Hk |]. split; [exact Hfcr |]. split.
  - rewrite Hdrain, Hlog2, Henter. repeat rewrite <- app_assoc. reflexivity.
  - unfold rx_trig_report. destruct Hr as [-> | [-> ->]].
    + left. replace (1 + Z.of_nat k - 1) with (Z.of_nat k) by lia.
      rewrite Z.geb_leb.
      now replace (256 <=? Z.of_nat k) with false
        by (symmetry; apply Z.leb_gt; lia).
    + right. split; reflexivity.
Qed.

(** X1.  A run of the RX trigger probe that gets past port resolution
    writes the entry sequence, then [k] bytes [0x55] to the transmit
    register with [1 <= k <= 255], then 0 to the interrupt enable, then the
    six restore writes; it reports [k] itself, or "RX trigger test failed"
    after 255 bytes.  It never reports 0 or a number above 255. *)
Theorem rx_trig_probe_transcript :
  forall (W : Type) (mach : Machine W) (fuel : nat) (selected_dev : string)
         (port : uart_port) (u8250p : uart_8250_port)
         (s0 s' : st W) (res : probe_result),
    resolve_port selected_dev = inr (port, u8250p) ->
    rx_trig_probe_read fuel selected_dev s0 = Some (res, s') ->
    exists snap k,
      (1 <= k <= 255)%nat /\
      old_fcr snap = fcr u8250p /\
      wlog s' = wlog s0 ++ rx_trig_enter_writes snap
                        ++ repeat (UART_TX, 0x55) k
                        ++ (UART_IER, 0) :: restore_writes snap /\
      (res = Count (Z.of_nat k) \/
       (k = 255%nat /\ res = Message rx_trig_failed)).
Proof.
  intros W mach fuel sel port u s0 s' res Hres Hrun.
  unfold rx_trig_probe_read in Hrun. rewrite Hres in Hrun.
  now apply rx_trig_body_transcript with fuel.
Qed.

Lemma rx_trig_probe_transcript_witness :
  exists res s' snap k,
    @rx_trig_probe_read _ (Sim.machine (rx_trig_script 3)) 1 "ttyS0" Sim.start
    = Some (res, s') /\
    (1 <= k <= 255)%nat /\
    wlog s' = rx_trig_enter_writes snap ++ repeat (UART_TX, 0x55) k
              ++ (UART_IER, 0) :: restore_writes snap /\
    (res = Count (Z.of_nat k) \/
     (k = 255%nat /\ res = Message rx_trig_failed)).
Proof.
  destruct (@rx_trig_probe_read _ (Sim.machine (rx_trig_script 3)) 1 "ttyS0"
              Sim.start) as [[res s'] |] eqn:Hrun.
  - destruct (@rx_trig_probe_transcript _ (Sim.machine (rx_trig_script 3))
                1%nat "ttyS0" (Sim.port16 0x81) {| fcr := 0x81 |}
                Sim.start s' res eq_refl Hrun)
      as (snap & k & Hk & _ & Hlog & Hr).
    exists res, s', snap, k. auto.
  - vm_compute in Hrun. discriminate.
Defined.

(** X2.  A run of the RX FIFO size probe that gets past port resolution
    writes the entry sequence, [k] bytes [0xff] with [1 <= k <= 512], and
    the six restore writes.  It reports [k - 1], a number between 1 and
    511, when the overrun bit was seen after the [k]-th byte with
    [k >= 2]; it reports "RX overflow not detected" after 512 bytes without
    overrun, and also when the overrun was seen after the very first
    byte.  It never reports 0, 512 or more. *)
Theorem rx_fifo_size_transcript :
  forall (W : Type) (mach : Machine W) (selected_dev : string)
         (port : uart_port) (u8250p : uart_8250_port)
         (s0 s' : st W) (res : probe_result),
    resolve_port selected_dev = inr (port, u8250p) ->
    rx_fifo_size_read selected_dev s0 = Some (res, s') ->
    exists snap k,
      (1 <= k <= 512)%nat /\
      old_fcr snap = fcr u8250p /\
      wlog s' = wlog s0 ++ fifo_size_enter_writes snap
                        ++ repeat (UART_TX, 0xff) k
                        ++ restore_writes snap /\
      (((2 <= k)%nat /\ res = Count (Z.of_nat k - 1)) \/
       ((k = 1%nat \/ k = 512%nat) /\
        res = Message rx_overflow_not_detected)).
Proof.
  intros W mach sel port u s0 s' res Hres Hrun.
  unfold rx_fifo_size_read in Hrun. rewrite Hres in Hrun.
  unfold rx_fifo_body in Hrun.
  apply bind_inv in Hrun as (snap & s1 & Henter & Hrun).
  apply bind_inv in Hrun as (size & s2 & Hloop & Hrun).
  apply bind_inv in Hrun as ([] & s3 & Hrestore & Hret).
  apply some_pair_inj in Hret as [<- <-].
  apply fifo_size_enter_log in Henter as (Hlog1 & Hfcr & _).
  apply rx_fifo_loop_transcript in Hloop as (k & Hk & Hlog2 & Hr);
    [| unfold FIFO_SIZE_MAX; lia].
  destruct (restore_config_run snap s2) as (w3 & Hrestore').
  rewrite Hrestore' in Hrestore. apply some_pair_inj in Hrestore as [_ <-].
  cbn [wlog].
  exists snap, k. split; [unfold FIFO_SIZE_MAX in Hk; lia |].
  split; [exact Hfcr |]. split.
  - rewrite Hlog2, Hlog1. repeat rewrite <- app_assoc. reflexivity.
  - unfold rx_fifo_report. destruct Hr as [-> | [-> ->]].
    + destruct (Nat.eq_dec k 1) as [-> | Hk1].
      * right. split; [now left | reflexivity].
      * left. split; [lia |].
        replace (0 + Z.of_nat k - 1) with (Z.of_nat k - 1) by lia.
        now replace (Z.of_nat k - 1 =? 0) with false
          by (symmetry; apply Z.eqb_neq; lia).
    + right. split; [now right | reflexivity].
Qed.

Lemma rx_fifo_size_transcript_witness :
  exists res s' snap k,
    @rx_fifo_size_read _ (Sim.machine (rx_overrun_script 3)) "ttyS0" Sim.start
    = Some (res, s') /\
    (1 <= k <= 512)%nat /\
    wlog s' = fifo_size_enter_writes snap ++ repeat (UART_TX, 0xff) k
              ++ restore_writes snap /\
    (((2 <= k)%nat /\ res = Count (Z.of_nat k - 1)) \/
     ((k = 1%nat \/ k = 512%nat) /\ res = Message rx_overflow_not_detected)).
Proof.
  destruct (@rx_fifo_size_read _ (Sim.machine (rx_overrun_script 3)) "ttyS0"
              Sim.start) as [[res s'] |] eqn:Hrun.
  - destruct (@rx_fifo_size_transcript _ (Sim.machine (rx_overrun_script 3))
                "ttyS0" (Sim.port16 0x81) {| fcr := 0x81 |}
                Sim.start s' res eq_refl Hrun)
      as (snap & k & Hk & _ & Hlog & Hr).
    exists res, s', snap, k. auto.
  - vm_compute in Hrun. discriminate.
Defined.

(** X3.  A run of the TX FIFO size probe that gets past port resolution
    writes the entry sequence, exactly 512 bytes [0xFF] whatever the rated
    FIFO size and whatever is echoed, and the six restore writes.  The
    count it reports is at least the value [rx_count] started from and, when
    that was at most 512, at most 512. *)
Theorem tx_fifo_size_transcript :
  forall (W : Type) (mach : Machine W) (fuel : nat) (rx_count : Z)
         (selected_dev : string)
         (port : uart_port) (u8250p : uart_8250_port)
         (s0 s' : st W) (res : probe_result),
    resolve_port selected_dev = inr (port, u8250p) ->
    tx_fifo_size_read fuel rx_count selected_dev s0 = Some (res, s') ->
    exists snap rx,
      old_fcr snap = fcr u8250p /\
      wlog s' = wlog s0 ++ fifo_size_enter_writes snap
                        ++ repeat (UART_TX, 0xFF) 512
                        ++ restore_writes snap /\
      res = tx_fifo_report rx /\
      rx_count <= rx /\ (rx_count <= 512 -> rx <= 512).
Proof.
  intros W mach fuel rx0 sel port u s0 s' res Hres Hrun.
  unfold tx_fifo_size_read in Hrun. rewrite Hres in Hrun.
  apply tx_fifo_body_inv in Hrun
    as (snap & s1 & tx & s2 & rx & s5 & Henter & Hfill & Hcount & Hrestore & ->).
  apply fifo_size_enter_log in Henter as (Hlog1 & Hfcr & _).
  destruct (tx_fill_run (Z.to_nat FIFO_SIZE_MAX) s1 0) as (w2 & Hfill').
  rewrite Hfill' in Hfill. apply some_pair_inj in Hfill as [<- <-].
  apply tx_fifo_count_transcript in Hcount as (Hlog5 & Hlo & Hhi).
  destruct (restore_config_run snap s5) as (w6 & Hrestore').
  rewrite Hrestore' in Hrestore. apply some_pair_inj in Hrestore as [_ <-].
  cbn [wlog] in *.
  exists snap, rx. split; [exact Hfcr |]. split; [| split; [reflexivity |]].
  - rewrite Hlog5, Hlog1. repeat rewrite <- app_assoc. reflexivity.
  - split; [exact Hlo |]. intros Hle. apply Hhi.
    unfold FIFO_SIZE_MAX. lia.
Qed.

Lemma tx_fifo_size_transcript_witness :
  exists res s' snap rx,
    @tx_fifo_size_read _ (Sim.machine (tx_echo_script 3)) 600 0 "ttyS0"
      Sim.start = Some (res, s') /\
    wlog s' = fifo_size_enter_writes snap ++ repeat (UART_TX, 0xFF) 512
              ++ restore_writes snap /\
    res = tx_fifo_report rx /\ 0 <= rx <= 512.
Proof.
  destruct (@tx_fifo_size_read _ (Sim.machine (tx_echo_script 3)) 600 0
              "ttyS0" Sim.start) as [[res s'] |] eqn:Hrun.
  - destruct (@tx_fifo_size_transcript _ (Sim.machine (tx_echo_script 3))
                600%nat 0 "ttyS0" (Sim.port16 0x81) {| fcr := 0x81 |}
                Sim.start s' res eq_refl Hrun)
      as (snap & rx & _ & Hlog & Hr & Hlo & Hhi).
    exists res, s', snap, rx. repeat split; auto. apply Hhi. lia.
  - vm_compute in Hrun. discriminate.
Defined.

(** The phases of a run of [tx_trig_body] that returns. *)
Lemma tx_trig_body_inv {W} {mach : Machine W} fuel trig port
      (s s' : st W) res :
  tx_trig_body fuel trig port s = Some (res, s') ->
  exists snap old_ier s1 s2 trig' s4 s6,
    tx_trig_enter fuel s = Some ((snap, old_ier), s1) /\
    thr_fill (Z.to_nat (fifosize port + 1)) s1 = Some (tt, s2) /\
    tx_trig_loop fuel (ulong (jiffies (hw s2) + msecs_to_jiffies 1500))
      trig 0 s2 = Some (trig', s4) /\
    drain_rx fuel (mkSt (serial_out UART_IER old_ier (hw s4))
                        (wlog s4 ++ [(UART_IER, old_ier)]))
    = Some (tt, s6) /\
    restore_config snap s6 = Some (tt, s') /\
    res = tx_trig_report trig'.
Proof.
  unfold tx_trig_body. intros Hrun.
  apply bind_inv in Hrun as ([snap old_ier] & s1 & Henter & Hrun).
  cbn [fst snd] in Hrun.
  apply bind_inv in Hrun as ([] & s2 & Hfill & Hrun).
  apply bind_inv in Hrun as (now & s3 & Hnow & Hrun).
  apply bind_inv in Hrun as (trig' & s4 & Hloop & Hrun).
  apply bind_inv in Hrun as ([] & s5 & Hoier & Hrun).
  apply bind_inv in Hrun as ([] & s6 & Hdrain & Hrun).
  apply bind_inv in Hrun as ([] & s7 & Hrestore & Hret).
  unfold read_jiffies in Hnow. apply some_pair_inj in Hnow as [<- <-].
  unfold outb in Hoier. apply some_pair_inj in Hoier as [_ <-].
  unfold ret in Hret. apply some_pair_inj in Hret as [<- <-].
  exists snap, old_ier, s1, s2, trig', s4, s6. auto 10.
Qed.

(** ** The TX trigger level *)

(** C6, as the code has it.  TX trigger probe on a port whose rated FIFO
    size is below [INT_MAX].  The fill phase writes exactly [fifosize + 1]
    bytes to the transmit register, never more: every run of the probe
    that returns has written its entry sequence, those bytes, the
    interrupt enable and the restore sequence, and nothing else.  On a port
    that reports the THR-empty interrupt condition exactly when [T] bytes
    have been read from the receive side, with [1 <= T], the probe returns
    [T], provided those [T] bytes arrive before the deadline and the
    receive queue drains, so that the two drain loops end.  Data need not
    be ready at every poll. *)
Theorem tx_trig_fill_capped_and_level_found :
  (forall (W : Type) (mach : Machine W) (port : uart_port) (s1 : st W),
     0 <= fifosize port < INT_MAX ->
     exists w,
       thr_fill (Z.to_nat (fifosize port + 1)) s1
       = Some (tt, mkSt w (wlog s1 ++ repeat (UART_TX, 0xFF)
                                         (Z.to_nat (fifosize port + 1)))) /\
       Z.of_nat (List.length (repeat (UART_TX, 0xFF)
                                (Z.to_nat (fifosize port + 1))))
       = fifosize port + 1) /\
  (forall (W : Type) (mach : Machine W) (fuel : nat) (trig0 : Z)
          (selected_dev : string) (port : uart_port) (u8250p : uart_8250_port)
          (s0 s' : st W) (res : probe_result),
     resolve_port selected_dev = inr (port, u8250p) ->
     0 <= fifosize port < INT_MAX ->
     tx_trig_probe_read fuel trig0 selected_dev s0 = Some (res, s') ->
     exists snap old_ier,
       wlog s' = wlog s0 ++ tx_trig_enter_writes snap
                         ++ repeat (UART_TX, 0xFF)
                              (Z.to_nat (fifosize port + 1))
                         ++ (UART_IER, old_ier) :: restore_writes snap) /\
  (forall (W : Type) (mach : Machine W)
          (meas ahead : W -> Prop) (drained : W -> Z)
          (pending wait : W -> nat)
          (selected_dev : string) (port : uart_port) (u8250p : uart_8250_port)
          (s0 s1 s2 : st W) (snap : snapshot) (old_ier : Z)
          (fuel0 : nat) (trig0 T : Z),
     resolve_port selected_dev = inr (port, u8250p) ->
     0 <= fifosize port < INT_MAX ->
     tx_trig_enter fuel0 s0 = Some ((snap, old_ier), s1) ->
     thr_fill (Z.to_nat (fifosize port + 1)) s1 = Some (tt, s2) ->
     rx_counter meas drained ->
     rx_drains pending ->
     meas (hw s2) ->
     drained (hw s2) = 0 ->
     1 <= T ->
     (forall w, meas w ->
        thri_pending (u8 (fst (serial_in UART_IIR w))) = (drained w =? T)) ->
     ahead (hw s2) ->
     bytes_arrive_in_time meas ahead drained wait T
       (ulong (jiffies (hw s2) + msecs_to_jiffies 1500)) ->
     exists fuel s',
       tx_trig_probe_read fuel trig0 selected_dev s0 = Some (Count T, s') /\
       wlog s' = wlog s1 ++ repeat (UART_TX, 0xFF)
                              (Z.to_nat (fifosize port + 1))
                         ++ (UART_IER, old_ier) :: restore_writes snap).
Proof.
  split; [| split].
  - intros W mach port s1 Hsize.
    destruct (thr_fill_run (Z.to_nat (fifosize port + 1)) s1) as (w & Hrun).
    exists w. split; [exact Hrun |]. rewrite repeat_length. lia.
  - intros W mach fuel trig0 sel port u s0 s' res Hres Hsize Hrun.
    unfold tx_trig_probe_read in Hrun. rewrite Hres in Hrun.
    apply tx_trig_body_inv in Hrun
      as (snap & old_ier & s1 & s2 & trig' & s4 & s6
          & Henter & Hfill & Hloop & Hdrain & Hrestore & _).
    apply tx_trig_enter_log in Henter as (Hlog1 & _).
    destruct (thr_fill_run (Z.to_nat (fifosize port + 1)) s1)
      as (w2 & Hfill').
    rewrite Hfill' in Hfill. apply some_pair_inj in Hfill as [_ <-].
    apply tx_trig_loop_log in Hloop.
    apply drain_rx_log in Hdrain.
    destruct (restore_config_run snap s6) as (w7 & Hrestore').
    rewrite Hrestore' in Hrestore. apply some_pair_inj in Hrestore as [_ <-].
    cbn [wlog] in *.
    exists snap, old_ier.
    rewrite Hdrain, Hloop, Hlog1. repeat rewrite <- app_assoc. reflexivity.
  - intros W mach meas ahead drained pending wait sel port u s0 s1 s2 snap
           old_ier fuel0 trig0 T Hres Hsize Henter Hfill Hcount Hdrain Hm
           Hd0 HT Hiir Ha Hintime.
    destruct (@tx_trig_loop_level _ _ meas ahead drained wait T _ Hcount Hiir
                Hintime (Z.to_nat T) (wait (hw s2)) trig0 0 s2)
      as (fuel1 & w3 & Hloop).
    + lia.
    + exact Hm.
    + exact Ha.
    + lia.
    + lia.
    + destruct (@tx_trig_body_run _ _ pending fuel0 fuel1 trig0 port s0 s1 s2 _ snap old_ier _ Hdrain Henter Hfill Hloop)
        as (fuel & s' & Hrun & Hlog).
      exists fuel, s'. unfold tx_trig_probe_read. rewrite Hres, Hrun. split.
      * unfold tx_trig_report.
        replace (0 + Z.of_nat (Z.to_nat T)) with T by lia.
        now replace (T =? 0) with false by (symmetry; apply Z.eqb_neq; lia).
      * rewrite Hlog.
        destruct (thr_fill_run (Z.to_nat (fifosize port + 1)) s1) as (w & Hrun2).
        rewrite Hfill in Hrun2. injection Hrun2 as ->. cbn [wlog].
        now rewrite <- app_assoc.
Qed.

(** *** The slower port *)

Lemma tx_trig_slow_script_drains (t : Z) :
  @rx_drains _ (Sim.machine (tx_trig_slow_script t))
    (fun r => Z.to_nat (t - Sim.r_drained r)).
Proof.
  intros w. cbn.
  change (Sim.dlab (Sim.tick w)) with (Sim.dlab w).
  destruct (Sim.dlab w) eqn:Hdlab; cbn; [intros H; now elim H |].
  destruct ((0 <? Sim.r_sent w) && (Sim.r_drained w <? t)
            && Z.odd (Sim.r_now w)) eqn:Hc; cbn;
    [| intros H; now elim H].
  intros _. apply andb_true_iff in Hc. destruct Hc as [Hc _].
  apply andb_true_iff in Hc. destruct Hc as [_ Hlt].
  apply Z.ltb_lt in Hlt. lia.
Qed.

Lemma time_before_early (now : Z) :
  1032 <= now <= 1068 -> time_before now (ulong (1032 + 1500)) = true.
Proof.
  intros H. unfold time_before, to_long, ulong, BITS_PER_LONG.
  change (2 ^ (64 - 1)) with 9223372036854775808.
  change (2 ^ 64) with 18446744073709551616.
  repeat match goal with
         | H : context [?a <? ?b] |- _ => destruct (Z.ltb_spec a b)
         | |- context [?a <? ?b] => destruct (Z.ltb_spec a b)
         end; try reflexivity;
    Z.div_mod_to_equations; lia.
Qed.

Lemma tx_trig_slow_pass (w : Sim.regs) :
  transmitting w -> Sim.r_drained w < 4 ->
  fst (@serial_in _ (Sim.machine (tx_trig_slow_script 4)) UART_LSR w)
  = (if Z.odd (Sim.r_now w) then Sim.LSR_DATA else Sim.LSR_IDLE) /\
  Sim.r_now (@tx_trig_pass _ (Sim.machine (tx_trig_slow_script 4)) w)
  = (if Z.odd (Sim.r_now w) then Sim.r_now w + 4 else Sim.r_now w + 3) /\
  Sim.r_drained (@tx_trig_pass _ (Sim.machine (tx_trig_slow_script 4)) w)
  = (if Z.odd (Sim.r_now w) then Sim.r_drained w + 1 else Sim.r_drained w).
Proof.
  intros (Hdlab & Hsent & Hdr) Hlt.
  unfold tx_trig_pass. cbn. unfold Sim.read. cbn. rewrite Hdlab. cbn.
  replace (0 <? Sim.r_sent w) with true by (symmetry; apply Z.ltb_lt; lia).
  replace (Sim.r_drained w <? 4) with true by (symmetry; apply Z.ltb_lt; lia).
  cbn [andb].
  destruct (Z.odd (Sim.r_now w)); cbn.
  - change (Sim.dlab (Sim.tick w)) with (Sim.dlab w). rewrite Hdlab. cbn.
    change (Z.land (u8 Sim.LSR_DATA) UART_LSR_DR =? 0) with false.
    cbn. repeat split; lia.
  - change (Z.land (u8 Sim.LSR_IDLE) UART_LSR_DR =? 0) with true.
    cbn. repeat split; lia.
Qed.

Lemma tx_trig_slow_in_time :
  @bytes_arrive_in_time _ (Sim.machine (tx_trig_slow_script 4))
    transmitting slow_ahead Sim.r_drained slow_wait 4 (ulong (1032 + 1500)).
Proof.
  intros w Hm (Hlo & Hhi) Hlt.
  destruct (tx_trig_slow_pass Hm Hlt) as (Hlsr & Hnow & Hdrained).
  unfold slow_ahead, slow_wait. rewrite Hlsr, Hnow, Hdrained.
  change (@jiffies _ (Sim.machine (tx_trig_slow_script 4)) w)
    with (Sim.r_now w).
  destruct (Z.odd (Sim.r_now w)) eqn:Hodd.
  - replace (Sim.r_now w + 4) with (Sim.r_now w + 2 * 2) by lia.
    rewrite Z.odd_add_mul_2, Hodd.
    split; [apply time_before_early; lia |].
    split; [lia |]. intros H. vm_compute in H. discriminate H.
  - replace (Sim.r_now w + 3) with (Sim.r_now w + 1 + 2 * 1) by lia.
    rewrite Z.odd_add_mul_2, Z.odd_add, Hodd.
    change (xorb false (Z.odd 1)) with true. cbv iota.
    split; [apply time_before_early; lia |].
    split; [lia | intros _; lia].
Qed.

Lemma tx_trig_fill_capped_and_level_found_witness :
  exists fuel s',
    @tx_trig_probe_read _ (Sim.machine (tx_trig_slow_script 4)) fuel 0
      "ttyS0" Sim.start = Some (Count 4, s').
Proof.
  destruct tx_trig_fill_capped_and_level_found as (_ & _ & Hlevel).
  epose proof (Hlevel _ (Sim.machine (tx_trig_slow_script 4)) transmitting
                 slow_ahead Sim.r_drained
                 (fun r => Z.to_nat (4 - Sim.r_drained r)) slow_wait
                 "ttyS0"%string (Sim.port16 0x81) {| fcr := 0x81 |} Sim.start
                 _ _ _ _ 1%nat 0 4) as Hrun4.
  edestruct Hrun4 as (fuel & s' & Hrun & _).
  - reflexivity.
  - cbn. unfold INT_MAX. lia.
  - cbv. reflexivity.
  - cbv. reflexivity.
  - apply sim_rx_counter.
  - apply tx_trig_slow_script_drains.
  - unfold transmitting; cbv; repeat split; discriminate.
  - reflexivity.
  - lia.
  - intros w _. cbn. unfold Sim.read. cbn.
    now destruct (Sim.r_drained w =? 4).
  - unfold slow_ahead. cbn. lia.
  - exact tx_trig_slow_in_time.
  - now exists fuel, s'.
Defined.

(** C6 as stated fails at [T = 0]: a port that reports THR-empty while no
    byte has been read makes the probe report the loopback failure, not
    the count 0. *)
Lemma tx_trig_level_zero_is_failure :
  option_map fst
    (@tx_trig_probe_read _ (Sim.machine (tx_trig_script 0)) 10 0 "ttyS0"
       Sim.start)
  = Some (Message tx_loopback_failed) /\
  option_map fst
    (@tx_trig_probe_read _ (Sim.machine (tx_trig_script 0)) 10 0 "ttyS0"
       Sim.start)
  <> Some (Count 0).
Proof. split; vm_compute; [reflexivity | discriminate]. Qed.

(** X4.  A run of the TX trigger probe that gets past port resolution, on
    a port of rated FIFO size [fifosize >= 0], writes the entry sequence,
    exactly [fifosize + 1] bytes [0xFF], the interrupt enable as read on
    entry, and the six restore writes.  The four values it keeps are what
    the port answered to the first four reads of the run: line control at
    offset 3, then, once it has written 0 to the line control, FIFO control
    at offset 2 (where a read gives the interrupt identification), modem
    control at offset 4 and interrupt enable at offset 1.  What it restores
    as FIFO control is therefore what it read at offset 2 on entry. *)
Theorem tx_trig_probe_transcript :
  forall (W : Type) (mach : Machine W) (fuel : nat) (trig : Z)
         (selected_dev : string)
         (port : uart_port) (u8250p : uart_8250_port)
         (s0 s' : st W) (res : probe_result),
    resolve_port selected_dev = inr (port, u8250p) ->
    0 <= fifosize port ->
    tx_trig_probe_read fuel trig selected_dev s0 = Some (res, s') ->
    exists snap old_ier,
      wlog s' = wlog s0 ++ tx_trig_enter_writes snap
                        ++ repeat (UART_TX, 0xFF) (Z.to_nat (fifosize port + 1))
                        ++ (UART_IER, old_ier) :: restore_writes snap /\
      old_lcr snap = u8 (fst (serial_in UART_LCR (hw s0))) /\
      old_fcr snap
      = u8 (fst (serial_in UART_IIR
                   (serial_out UART_LCR 0
                      (snd (serial_in UART_LCR (hw s0)))))) /\
      old_mcr snap
      = u8 (fst (serial_in UART_MCR
                   (snd (serial_in UART_IIR
                           (serial_out UART_LCR 0
                              (snd (serial_in UART_LCR (hw s0)))))))) /\
      old_ier
      = u8 (fst (serial_in UART_IER
                   (snd (serial_in UART_MCR
                           (snd (serial_in UART_IIR
                                   (serial_out UART_LCR 0
                                      (snd (serial_in UART_LCR (hw s0)))))))))) /\
      (res = tx_trig_report trig \/
       res = Message tx_loopback_failed \/
       exists k, 1 <= k /\ res = Count k).
Proof.
  intros W mach fuel trig sel port u s0 s' res Hres Hsize Hrun.
  unfold tx_trig_probe_read in Hrun. rewrite Hres in Hrun.
  apply tx_trig_body_inv in Hrun
    as (snap & old_ier & s1 & s2 & trig' & s4 & s6
        & Henter & Hfill & Hloop & Hdrain & Hrestore & ->).
  pose proof (tx_trig_enter_reads _ _ Henter) as (Hmcr & Hier).
  apply tx_trig_enter_log in Henter as (Hlog1 & Hlcr & Hfcr).
  destruct (thr_fill_run (Z.to_nat (fifosize port + 1)) s1) as (w2 & Hfill').
  rewrite Hfill' in Hfill. apply some_pair_inj in Hfill as [_ <-].
  pose proof (tx_trig_loop_log _ _ _ _ _ Hloop) as Hlog4.
  apply tx_trig_loop_transcript in Hloop; [| lia].
  apply drain_rx_log in Hdrain.
  destruct (restore_config_run snap s6) as (w7 & Hrestore').
  rewrite Hrestore' in Hrestore. apply some_pair_inj in Hrestore as [_ <-].
  cbn [wlog] in *.
  exists snap, old_ier.
  split; [| split; [exact Hlcr | split; [exact Hfcr | split;
                    [exact Hmcr | split; [exact Hier |]]]]].
  - rewrite Hdrain, Hlog4, Hlog1. repeat rewrite <- app_assoc. reflexivity.
  - destruct Hloop as [-> | Hk]; [now left | right].
    unfold tx_trig_report. destruct (Z.eqb_spec trig' 0) as [-> | Hne].
    + now left.
    + right. exists trig'. split; [lia | reflexivity].
Qed.

Lemma tx_trig_probe_transcript_witness :
  exists res s' snap,
    @tx_trig_probe_read _ (Sim.machine (tx_trig_script 4)) 600 0 "ttyS0"
      Sim.start = Some (res, s') /\
    wlog s' = tx_trig_enter_writes snap ++ repeat (UART_TX, 0xFF) 17
              ++ (UART_IER, Sim.r_ier Sim.at_rest) :: restore_writes snap.
Proof.
  destruct (@tx_trig_probe_read _ (Sim.machine (tx_trig_script 4)) 600 0
              "ttyS0" Sim.start) as [[res s'] |] eqn:Hrun.
  - destruct (@tx_trig_probe_transcript _ (Sim.machine (tx_trig_script 4))
                600%nat 0 "ttyS0" (Sim.port16 0x81) {| fcr := 0x81 |}
                Sim.start s' res eq_refl ltac:(cbn; lia) Hrun)
      as (snap & old_ier & Hlog & _ & _ & _ & Hier & _).
    exists res, s', snap. split; [reflexivity |].
    rewrite Hlog, Hier. reflexivity.
  - vm_compute in Hrun. discriminate.
Defined.

(** * The probes on the register file *)

(** X5.  On the register file, whatever the script reports and whatever
    byte values the registers hold, the two size probes leave line control,
    modem control, FIFO control, interrupt enable and both divisor bytes as
    they found them, provided the driver's shadow of the FIFO control
    agrees with the register. *)
Theorem size_probes_restore_register_file :
  forall (sc : Sim.script) (fuel : nat) (rx_count : Z) (selected_dev : string)
         (port : uart_port) (u8250p : uart_8250_port)
         (s s' : st Sim.regs) (res : probe_result),
    @resolve_port _ (Sim.machine sc) selected_dev = inr (port, u8250p) ->
    byte_regs (hw s) ->
    fcr u8250p = Sim.r_fcr (hw s) ->
    (@rx_fifo_size_read _ (Sim.machine sc) selected_dev s = Some (res, s') ->
     cfg_of (hw s') = cfg_of (hw s)) /\
    (@tx_fifo_size_read _ (Sim.machine sc) fuel rx_count selected_dev s
     = Some (res, s') ->
     cfg_of (hw s') = cfg_of (hw s)).
Proof.
  intros sc fuel rx0 sel port u s s' res Hres Hbytes Hshadow.
  assert (Hfcr : u8 (fcr u) = Sim.r_fcr (hw s)).
  { rewrite Hshadow. apply u8_byte. apply Hbytes. }
  split; intros Hrun.
  - unfold rx_fifo_size_read in Hrun. rewrite Hres in Hrun.
    apply sim_rx_fifo_restores in Hrun; [| exact Hbytes].
    now rewrite Hrun, Hfcr.
  - unfold tx_fifo_size_read in Hrun. rewrite Hres in Hrun.
    apply sim_tx_fifo_restores in Hrun; [| exact Hbytes].
    now rewrite Hrun, Hfcr.
Qed.

Lemma at_rest_byte_regs : byte_regs Sim.at_rest.
Proof. unfold byte_regs. cbn. lia. Qed.

Lemma size_probes_restore_register_file_witness :
  exists res s',
    @rx_fifo_size_read _ (Sim.machine (rx_overrun_script 3)) "ttyS0" Sim.start
    = Some (res, s') /\
    cfg_of (hw s') = cfg_of Sim.at_rest.
Proof.
  destruct (@rx_fifo_size_read _ (Sim.machine (rx_overrun_script 3)) "ttyS0"
              Sim.start) as [[res s'] |] eqn:Hrun.
  - exists res, s'. split; [reflexivity |].
    apply (proj1 (@size_probes_restore_register_file (rx_overrun_script 3)
                    0%nat 0 "ttyS0" (Sim.port16 0x81) {| fcr := 0x81 |}
                    Sim.start s' res eq_refl at_rest_byte_regs eq_refl)).
    exact Hrun.
  - vm_compute in Hrun. discriminate.
Defined.

(** X6.  On the register file the RX trigger probe leaves line control,
    modem control, FIFO control (under the same proviso) and both divisor
    bytes as it found them, and the TX trigger probe leaves line control,
    modem control, interrupt enable and both divisor bytes as it found
    them. *)
Theorem trigger_probes_restore_register_file :
  forall (sc : Sim.script) (fuel : nat) (trig : Z) (selected_dev : string)
         (port : uart_port) (u8250p : uart_8250_port)
         (s s' : st Sim.regs) (res : probe_result),
    @resolve_port _ (Sim.machine sc) selected_dev = inr (port, u8250p) ->
    byte_regs (hw s) ->
    (@rx_trig_probe_read _ (Sim.machine sc) fuel selected_dev s
     = Some (res, s') ->
     fcr u8250p = Sim.r_fcr (hw s) ->
     Sim.r_lcr (hw s') = Sim.r_lcr (hw s) /\
     Sim.r_mcr (hw s') = Sim.r_mcr (hw s) /\
     Sim.r_fcr (hw s') = Sim.r_fcr (hw s) /\
     Sim.r_dll (hw s') = Sim.r_dll (hw s) /\
     Sim.r_dlm (hw s') = Sim.r_dlm (hw s)) /\
    (@tx_trig_probe_read _ (Sim.machine sc) fuel trig selected_dev s
     = Some (res, s') ->
     Sim.r_lcr (hw s') = Sim.r_lcr (hw s) /\
     Sim.r_mcr (hw s') = Sim.r_mcr (hw s) /\
     Sim.r_ier (hw s') = Sim.r_ier (hw s) /\
     Sim.r_dll (hw s') = Sim.r_dll (hw s) /\
     Sim.r_dlm (hw s') = Sim.r_dlm (hw s)).
Proof.
  intros sc fuel trig sel port u s s' res Hres Hbytes.
  split; intros Hrun.
  - intros Hshadow.
    assert (Hfcr : u8 (fcr u) = Sim.r_fcr (hw s)).
    { rewrite Hshadow. apply u8_byte. apply Hbytes. }
    unfold rx_trig_probe_read in Hrun. rewrite Hres in Hrun.
    apply sim_rx_trig_restores in Hrun; [| exact Hbytes].
    unfold cfg_of in Hrun.
    apply pair_equal_spec in Hrun as [Hrun Hdlm].
    apply pair_equal_spec in Hrun as [Hrun Hdll].
    apply pair_equal_spec in Hrun as [Hrun _].
    apply pair_equal_spec in Hrun as [Hrun Hf].
    apply pair_equal_spec in Hrun as [Hlcr Hmcr].
    rewrite Hf, Hfcr. auto.
  - unfold tx_trig_probe_read in Hrun. rewrite Hres in Hrun.
    apply sim_tx_trig_restores in Hrun; [| exact Hbytes].
    unfold cfg_of in Hrun.
    apply pair_equal_spec in Hrun as [Hrun Hdlm].
    apply pair_equal_spec in Hrun as [Hrun Hdll].
    apply pair_equal_spec in Hrun as [Hrun Hier].
    apply pair_equal_spec in Hrun as [Hrun _].
    apply pair_equal_spec in Hrun as [Hlcr Hmcr].
    auto.
Qed.

Lemma trigger_probes_restore_register_file_witness :
  exists res s',
    @tx_trig_probe_read _ (Sim.machine (tx_trig_script 4)) 600 0 "ttyS0"
      Sim.start = Some (res, s') /\
    Sim.r_lcr (hw s') = 0x03 /\ Sim.r_mcr (hw s') = 0x0b /\
    Sim.r_ier (hw s') = 0x05 /\
    Sim.r_dll (hw s') = 0x0c /\ Sim.r_dlm (hw s') = 0x00.
Proof.
  destruct (@tx_trig_probe_read _ (Sim.machine (tx_trig_script 4)) 600 0
              "ttyS0" Sim.start) as [[res s'] |] eqn:Hrun.
  - exists res, s'. split; [reflexivity |].
    apply (proj2 (@trigger_probes_restore_register_file (tx_trig_script 4)
                    600%nat 0 "ttyS0" (Sim.port16 0x81) {| fcr := 0x81 |}
                    Sim.start s' res eq_refl at_rest_byte_regs)).
    exact Hrun.
  - vm_compute in Hrun. discriminate.
Defined.



(** * Device selection *)

Lemma store_length buf : forall i c, List.length (store buf i c) = List.length buf.
Proof.
  induction buf as [| x t IH]; intros [| i] c; cbn; auto.
Qed.

Lemma strcspn_le_nul s reject : forall j,
  nth_error s j = Some NUL -> (strcspn s reject <= j)%nat.
Proof.
  induction s as [| c t IH]; intros [| j] H; cbn in *; try discriminate.
  - injection H as ->. cbn. lia.
  - destruct (_ || _); [lia |]. apply IH in H. lia.
Qed.

Lemma store_keeps buf : forall i j c,
  j <> i -> nth_error (store buf i c) j = nth_error buf j.
Proof.
  induction buf as [| x t IH]; intros [| i] [| j] c H; cbn; auto;
    try contradiction; try (apply IH; lia).
Qed.

Lemma store_sets buf : forall i c,
  (i < List.length buf)%nat -> nth_error (store buf i c) i = Some c.
Proof.
  induction buf as [| x t IH]; intros [| i] c H; cbn in *; try lia; auto.
  apply IH. lia.
Qed.

Lemma nth_error_skipn_eq {A} (l l' : list A) n j :
  skipn n l = skipn n l' -> (n <= j)%nat -> nth_error l j = nth_error l' j.
Proof.
  intros H Hj. replace j with (n + (j - n))%nat by lia.
  rewrite <- !nth_error_skipn. now rewrite H.
Qed.

(** Cutting at the first terminator leaves the characters before it. *)
Lemma c_str_cut reject : forall s,
  (strcspn s reject < List.length s)%nat ->
  c_str (store s (strcspn s reject) NUL)
  = string_of_list_ascii (firstn (strcspn s reject) s).
Proof.
  induction s as [| c t IH]; cbn; intros H; [lia |].
  destruct (Ascii.eqb c NUL) eqn:Hc; cbn.
  - reflexivity.
  - destruct (existsb _ reject); cbn.
    + reflexivity.
    + rewrite Hc. f_equal. apply IH. cbn in H. lia.
Qed.

Lemma plain_not_rejected c : plain c ->
  Ascii.eqb c NUL || existsb (Ascii.eqb c) [LF] = false.
Proof.
  intros [Hn Hl]. cbn [existsb].
  apply Ascii.eqb_neq in Hn. apply Ascii.eqb_neq in Hl.
  now rewrite Hn, Hl.
Qed.

Lemma strcspn_plain_app name rest :
  Forall plain name ->
  strcspn (name ++ rest) [LF] = (List.length name + strcspn rest [LF])%nat.
Proof.
  induction 1 as [| c t Hc _ IH]; [reflexivity |].
  cbn [app strcspn List.length]. rewrite (plain_not_rejected Hc).
  now rewrite IH.
Qed.

Lemma strcspn_lt_length s reject j :
  nth_error s j = Some NUL -> (strcspn s reject < List.length s)%nat.
Proof.
  intros H. pose proof (strcspn_le_nul s reject j H).
  assert (j < List.length s)%nat by (apply nth_error_Some; congruence). lia.
Qed.

(** X8.  [select_dev_write] keeps the name array 16 bytes long and ended
    by NUL, whatever the count and whatever the outcome, as long as
    [copy_from_user] writes only the bytes it is asked for; it returns
    [-EINVAL], [-EFAULT] or the count, and [-EINVAL] (array untouched)
    exactly for a count of 0 or of 16 and more.  The terminator it stores
    falls inside the array. *)
Theorem select_dev_write_keeps_terminator :
  forall (copy_from_user : list ascii -> nat -> Z * list ascii)
         (selected_dev : list ascii) (count : Z),
    copies_within copy_from_user ->
    nul_terminated selected_dev ->
    0 <= count ->
    nul_terminated (snd (select_dev_write copy_from_user selected_dev count)) /\
    (count = 0 \/ 16 <= count <->
     select_dev_write copy_from_user selected_dev count
     = (- EINVAL, selected_dev)) /\
    (0 < count < 16 ->
     (fst (select_dev_write copy_from_user selected_dev count) = - EFAULT \/
      fst (select_dev_write copy_from_user selected_dev count) = count) /\
     (strcspn (snd (copy_from_user selected_dev (Z.to_nat count))) [LF]
      < 16)%nat).
Proof.
  intros cfu dev count Hcfu [Hlen Hnul] Hcount.
  unfold select_dev_write, SELECTED_DEV_SIZE.
  destruct (Z.eqb_spec count 0) as [H0 | H0]; cbn [orb].
  { split; [now split |]. split; [| lia]. split; auto. }
  destruct (Z.geb_spec count 16) as [H16 | H16].
  { split; [now split |]. split; [| lia]. split; auto. }
  destruct (Hcfu dev (Z.to_nat count) ltac:(lia)) as [Hlen1 Hskip].
  assert (Hnul1 : nth_error (snd (cfu dev (Z.to_nat count))) 15 = Some NUL).
  { rewrite (@nth_error_skipn_eq _ _ _ (Z.to_nat count) 15 Hskip) by lia.
    exact Hnul. }
  pose proof (strcspn_le_nul _ [LF] _ Hnul1) as Hidx.
  split; [| split].
  - destruct (negb _); cbn [snd].
    + split; [congruence | exact Hnul1].
    + split; [rewrite store_length; congruence |].
      destruct (Nat.eq_dec (strcspn (snd (cfu dev (Z.to_nat count))) [LF]) 15)
        as [-> | Hne].
      * apply store_sets. lia.
      * rewrite store_keeps by lia. exact Hnul1.
  - split; [lia |]. intros H. exfalso.
    destruct (negb _); injection H as H _; unfold EINVAL, EFAULT in *; lia.
  - intros _. split; [| lia].
    destruct (negb _); cbn [fst]; auto.
Qed.


Lemma str_length_append (s t : string) :
  String.length (s ++ t) = (String.length s + String.length t)%nat.
Proof. induction s as [| c s IH]; cbn; [reflexivity | now rewrite IH]. Qed.

Lemma str_length_of_list (l : list ascii) :
  String.length (string_of_list_ascii l) = List.length l.
Proof. induction l as [| c l IH]; cbn; [reflexivity | now rewrite IH]. Qed.

Lemma str_take_all n : forall s,
  (String.length s <= n)%nat -> str_take n s = s.
Proof.
  induction n as [| n IH]; intros [| c s] H; cbn in *; try reflexivity;
    try lia.
  f_equal. apply IH. lia.
Qed.

Lemma c_str_plain name : forall rest,
  Forall plain name ->
  c_str (name ++ NUL :: rest) = string_of_list_ascii name.
Proof.
  intros rest. induction 1 as [| c t [Hc _] _ IH]; cbn; [reflexivity |].
  apply Ascii.eqb_neq in Hc. now rewrite Hc, IH.
Qed.

(** X9.  Writing a name followed by a newline selects that name, and
    reading the selection back gives the name followed by a newline: for
    every name of at most 14 characters, none of them NUL or newline,
    whatever follows the newline in the bytes written and whatever the
    array held before. *)
Theorem select_dev_round_trip :
  forall (copy_from_user : list ascii -> nat -> Z * list ascii)
         (selected_dev name rest : list ascii),
    Forall plain name ->
    List.length selected_dev = 16%nat ->
    (List.length name + 1 + List.length rest < 16)%nat ->
    copy_from_user selected_dev (List.length name + 1 + List.length rest)%nat
    = (0, (name ++ LF :: rest)
          ++ skipn (List.length name + 1 + List.length rest) selected_dev) ->
    let count := Z.of_nat (List.length name + 1 + List.length rest) in
    let written := select_dev_write copy_from_user selected_dev count in
    fst written = count /\
    c_str (snd written) = string_of_list_ascii name /\
    select_dev_read (snd written)
    = ((string_of_list_ascii name ++ nl)%string,
       Z.of_nat (List.length name) + 1).
Proof.
  intros cfu dev name rest Hplain Hlen Hcount Hcopy count written.
  subst written count. unfold select_dev_write, SELECTED_DEV_SIZE.
  replace (_ =? 0) with false by (symmetry; apply Z.eqb_neq; lia).
  rewrite Z.geb_leb.
  replace (16 <=? _) with false by (symmetry; apply Z.leb_gt; lia).
  cbn [orb]. rewrite Nat2Z.id, Hcopy. cbn [fst snd negb Z.eqb].
  split; [reflexivity |].
  set (tail := skipn _ dev).
  rewrite <- app_assoc. cbn [app].
  assert (Hidx : strcspn (name ++ LF :: rest ++ tail) [LF] = List.length name).
  { rewrite strcspn_plain_app by exact Hplain. cbn. lia. }
  assert (Hcut : c_str (store (name ++ LF :: rest ++ tail)
                          (strcspn (name ++ LF :: rest ++ tail) [LF]) NUL)
                 = string_of_list_ascii name).
  { rewrite c_str_cut.
    - rewrite Hidx, firstn_app, firstn_all, Nat.sub_diag. cbn [firstn].
      now rewrite app_nil_r.
    - rewrite Hidx, length_app. cbn [List.length]. lia. }
  split; [exact Hcut |].
  unfold select_dev_read. rewrite Hcut.
  rewrite str_take_all.
  - f_equal. rewrite str_length_append, str_length_of_list. cbn. lia.
  - rewrite str_length_append, str_length_of_list. cbn. lia.
Qed.

(** X10.  Writing a name with no newline after it leaves the rest of the
    array in place: the name selected is the bytes written followed by
    whatever the old content held from that position up to its first NUL or
    newline.  (Over "ttyS0", writing "ab" selects "abyS0".) *)
Theorem select_dev_write_keeps_old_tail :
  forall (copy_from_user : list ascii -> nat -> Z * list ascii)
         (selected_dev name : list ascii),
    Forall plain name ->
    (1 <= List.length name <= 15)%nat ->
    nul_terminated selected_dev ->
    copy_from_user selected_dev (List.length name)
    = (0, name ++ skipn (List.length name) selected_dev) ->
    let count := Z.of_nat (List.length name) in
    let tail := skipn (List.length name) selected_dev in
    let written := select_dev_write copy_from_user selected_dev count in
    fst written = count /\
    c_str (snd written)
    = string_of_list_ascii (name ++ firstn (strcspn tail [LF]) tail).
Proof.
  intros cfu dev name Hplain Hlen [Hdev Hnul] Hcopy count tail written.
  subst written count. unfold select_dev_write, SELECTED_DEV_SIZE.
  replace (_ =? 0) with false by (symmetry; apply Z.eqb_neq; lia).
  rewrite Z.geb_leb.
  replace (16 <=? _) with false by (symmetry; apply Z.leb_gt; lia).
  cbn [orb]. rewrite Nat2Z.id, Hcopy. cbn [fst snd negb Z.eqb].
  split; [reflexivity |]. fold tail.
  assert (Hnul' : nth_error (name ++ tail) 15 = Some NUL).
  { rewrite nth_error_app2 by lia. subst tail.
    rewrite nth_error_skipn.
    now replace (List.length name + (15 - List.length name))%nat
      with 15%nat by lia. }
  rewrite c_str_cut by (eapply strcspn_lt_length; exact Hnul').
  rewrite strcspn_plain_app by exact Hplain.
  now rewrite firstn_app_2.
Qed.

Lemma initial_nul_terminated : nul_terminated selected_dev_initial.
Proof. split; reflexivity. Qed.

Lemma plain_letters (l : list ascii) :
  forallb (fun c => negb (Ascii.eqb c NUL) && negb (Ascii.eqb c LF)) l = true ->
  Forall plain l.
Proof.
  induction l as [| c l IH]; cbn [forallb]; intros H; constructor.
  - apply andb_true_iff in H as [H _]. apply andb_true_iff in H as [Hn Hl].
    apply negb_true_iff in Hn. apply negb_true_iff in Hl.
    split; now apply Ascii.eqb_neq.
  - apply IH. now apply andb_true_iff in H as [_ H].
Qed.

Lemma select_dev_write_keeps_terminator_witness :
  nul_terminated
    (snd (select_dev_write
            (user_holds (list_ascii_of_string "ttyS1" ++ [LF]))
            selected_dev_initial 6)).
Proof.
  apply (@select_dev_write_keeps_terminator
           (user_holds (list_ascii_of_string "ttyS1" ++ [LF]))
           selected_dev_initial 6).
  - intros dest n Hn. unfold user_holds. cbn [snd]. split.
    + rewrite length_app, length_firstn, length_skipn, length_app,
        repeat_length. lia.
    + rewrite skipn_app, length_firstn, length_app, repeat_length.
      replace (Nat.min n (List.length (list_ascii_of_string "ttyS1" ++ [LF]) + n))
        with n by lia.
      rewrite Nat.sub_diag. cbn [skipn].
      rewrite skipn_all2 by (rewrite length_firstn, length_app, repeat_length; lia).
      reflexivity.
  - exact initial_nul_terminated.
  - lia.
Defined.

Lemma select_dev_round_trip_witness :
  c_str (snd (select_dev_write
                (user_holds (list_ascii_of_string "ttyS1" ++ [LF]))
                selected_dev_initial 6)) = "ttyS1"%string /\
  select_dev_read
    (snd (select_dev_write
            (user_holds (list_ascii_of_string "ttyS1" ++ [LF]))
            selected_dev_initial 6))
  = (("ttyS1" ++ nl)%string, 6).
Proof.
  destruct (@select_dev_round_trip
              (user_holds (list_ascii_of_string "ttyS1" ++ [LF]))
              selected_dev_initial (list_ascii_of_string "ttyS1") [])
    as (_ & Hname & Hread).
  - apply plain_letters. reflexivity.
  - reflexivity.
  - cbn. lia.
  - reflexivity.
  - split; [exact Hname | exact Hread].
Defined.

Lemma select_dev_write_keeps_old_tail_witness :
  c_str (snd (select_dev_write (user_holds (list_ascii_of_string "ab"))
                selected_dev_initial 2)) = "abyS0"%string.
Proof.
  destruct (@select_dev_write_keeps_old_tail
              (user_holds (list_ascii_of_string "ab"))
              selected_dev_initial (list_ascii_of_string "ab"))
    as (_ & Hname).
  - apply plain_letters. reflexivity.
  - cbn. lia.
  - exact initial_nul_terminated.
  - reflexivity.
  - exact Hname.
Defined.

(** * The earlier stand-alone module *)

(** X11.  The RX trigger handler of uart_rx_trig_test.c agrees with the
    one of uart_probe.c on every port the latter resolves.  On a port that
    is in use, where the latter returns [-EBUSY] without touching it, the
    earlier handler probes all the same: when it returns it has written
    the entry sequence, between 1 and 255 bytes and the restore sequence
    to the port's registers. *)
Theorem rx_trig_test_probes_port_in_use :
  forall (W : Type) (mach : Machine W) (fuel : nat) (selected_dev : string)
         (s : st W),
    (forall port u8250p,
       resolve_port selected_dev = inr (port, u8250p) ->
       rx_trig_test_probe_read fuel selected_dev s
       = (r <- rx_trig_probe_read fuel selected_dev ;; ret (Returned r)) s) /\
    (resolve_port selected_dev = inl (Errno (- EBUSY)) ->
     rx_trig_probe_read fuel selected_dev s = Some (Errno (- EBUSY), s) /\
     forall o s',
       rx_trig_test_probe_read fuel selected_dev s = Some (o, s') ->
       exists snap k,
         (1 <= k <= 255)%nat /\
         wlog s' = wlog s ++ rx_trig_enter_writes snap
                         ++ repeat (UART_TX, 0x55) k
                         ++ (UART_IER, 0) :: restore_writes snap /\
         (o = Returned (Count (Z.of_nat k)) \/
          (k = 255%nat /\ o = Returned (Message rx_trig_failed)))).
Proof.
  intros W mach fuel sel s. split.
  - intros port u Hres.
    unfold rx_trig_test_probe_read, rx_trig_test_resolve, rx_trig_probe_read.
    rewrite Hres. unfold resolve_port in Hres.
    destruct (tty_find_polling_driver sel) as [[d l] |]; [| discriminate].
    destruct (ports d l) as [tp |]; [| discriminate].
    destruct (state_uart_port tp) as [p |]; [| discriminate].
    destruct (negb (has_serial_in p) || negb (has_serial_out p));
      [discriminate |].
    destruct (up_to_u8250p p) as [u' |]; [| discriminate].
    destruct (tty_port_initialized tp && (tty_port_users tp >? 0));
      [discriminate |].
    now injection Hres as -> ->.
  - intros Hres. split.
    + unfold rx_trig_probe_read. now rewrite Hres.
    + intros o s' Hrun.
      unfold rx_trig_test_probe_read, rx_trig_test_resolve in Hrun.
      unfold resolve_port in Hres.
      destruct (tty_find_polling_driver sel) as [[d l] |];
        [| vm_compute in Hres; discriminate].
      destruct (ports d l) as [tp |]; [| vm_compute in Hres; discriminate].
      destruct (state_uart_port tp) as [p |];
        [| vm_compute in Hres; discriminate].
      destruct (negb (has_serial_in p) || negb (has_serial_out p));
        [vm_compute in Hres; discriminate |].
      destruct (up_to_u8250p p) as [u |];
        [| vm_compute in Hres; discriminate].
      apply bind_inv in Hrun as (r & s1 & Hbody & Hret).
      unfold ret in Hret. apply some_pair_inj in Hret as [<- <-].
      apply rx_trig_body_transcript in Hbody
        as (snap & k & Hk & _ & Hlog & Hr).
      exists snap, k. split; [exact Hk |]. split; [exact Hlog |].
      destruct Hr as [-> | [-> ->]]; auto.
Qed.

Lemma rx_trig_test_probes_port_in_use_witness :
  exists o s' snap,
    @rx_trig_probe_read _ (Sim.machine busy_script) 1 "ttyS0" Sim.start
    = Some (Errno (-16), Sim.start) /\
    @rx_trig_test_probe_read _ (Sim.machine busy_script) 1 "ttyS0" Sim.start
    = Some (o, s') /\
    wlog s' = rx_trig_enter_writes snap ++ repeat (UART_TX, 0x55) 255
              ++ (UART_IER, 0) :: restore_writes snap /\
    o = Returned (Message rx_trig_failed).
Proof.
  destruct (@rx_trig_test_probes_port_in_use _ (Sim.machine busy_script)
              1%nat "ttyS0" Sim.start) as [_ Hbusy].
  destruct (Hbusy eq_refl) as [Hnew Hold].
  destruct (@rx_trig_test_probe_read _ (Sim.machine busy_script) 1 "ttyS0"
              Sim.start) as [[o s'] |] eqn:Hrun.
  - destruct (Hold o s' eq_refl) as (snap & k & Hk & Hlog & Hr).
    assert (Ho : o = Returned (Message rx_trig_failed) /\ k = 255%nat).
    { vm_compute in Hrun. injection Hrun as <- _.
      destruct Hr as [Hr | [-> _]]; [discriminate | auto]. }
    destruct Ho as [-> ->].
    exists (Returned (Message rx_trig_failed)), s', snap. auto.
  - vm_compute in Hrun. discriminate.
Defined.

(** * Module initialisation *)

(** X12.  [uart_probe_debugfs_init] returns 0 or [-ENOMEM].  It returns
    [-ENOMEM] exactly when the directory pointer is null or one of the
    pointers for [select_dev], [rx_fifo_size] and [rx_trig_level] is null,
    and it removes the directory exactly in the second case.  The pointers
    for [tx_fifo_size] and [tx_trig_level] are not tested, and an error
    pointer passes every test: when no call returns a null pointer the
    function returns 0, whatever was or was not created. *)
Theorem debugfs_init_checks_three_files :
  forall created : string -> dentry,
    (fst (uart_probe_debugfs_init created) = 0 \/
     fst (uart_probe_debugfs_init created) = - ENOMEM) /\
    (fst (uart_probe_debugfs_init created) = - ENOMEM <->
     created "uart_probe"%string = NullPtr \/
     created "select_dev"%string = NullPtr \/
     created "rx_fifo_size"%string = NullPtr \/
     created "rx_trig_level"%string = NullPtr) /\
    (In (remove_recursive (created "uart_probe"%string))
        (snd (uart_probe_debugfs_init created)) <->
     created "uart_probe"%string <> NullPtr /\
     (created "select_dev"%string = NullPtr \/
      created "rx_fifo_size"%string = NullPtr \/
      created "rx_trig_level"%string = NullPtr)) /\
    ((forall name, created name <> NullPtr) ->
     fst (uart_probe_debugfs_init created) = 0).
Proof.
  intros created. unfold uart_probe_debugfs_init, ENOMEM.
  assert (Hnull : forall d, d = NullPtr <-> is_null d = true)
    by (intros []; cbn; split; congruence).
  assert (Hnot : forall d, d <> NullPtr <-> is_null d = false)
    by (intros []; cbn; split; congruence).
  split; [| split; [| split]].
  - destruct (is_null (created "uart_probe"%string)); [now right |].
    destruct (is_null (created "select_dev"%string) ||
              is_null (created "rx_fifo_size"%string) ||
              is_null (created "rx_trig_level"%string)); auto.
  - rewrite !Hnull.
    destruct (is_null (created "uart_probe"%string));
      destruct (is_null (created "select_dev"%string));
      destruct (is_null (created "rx_fifo_size"%string));
      destruct (is_null (created "rx_trig_level"%string));
      cbn [orb fst]; intuition discriminate.
  - rewrite !Hnull.
    destruct (created "uart_probe"%string) eqn:Hdir; cbn [is_null];
      destruct (is_null (created "select_dev"%string));
      destruct (is_null (created "rx_fifo_size"%string));
      destruct (is_null (created "rx_trig_level"%string));
      cbn [orb snd app In];
      intuition (first [discriminate | reflexivity | congruence]).
  - intros Hall.
    rewrite (proj1 (Hnot _) (Hall "uart_probe"%string)),
            (proj1 (Hnot _) (Hall "select_dev"%string)),
            (proj1 (Hnot _) (Hall "rx_fifo_size"%string)),
            (proj1 (Hnot _) (Hall "rx_trig_level"%string)).
    reflexivity.
Qed.

Lemma debugfs_init_checks_three_files_witness :
  fst (uart_probe_debugfs_init (fun _ => ErrPtr (- ENOMEM))) = 0.
Proof.
  apply (proj2 (proj2 (proj2
           (@debugfs_init_checks_three_files (fun _ => ErrPtr (- ENOMEM)))))).
  intros name. discriminate.
Defined.

(** * The round-trip tool *)

Ltac rtt_cases :=
  unfold rtt_main;
  repeat match goal with
         | |- context [?a <? ?b] => destruct (Z.ltb_spec a b)
         | |- context [?a =? ?b] => destruct (Z.eqb_spec a b)
         end; cbn [negb andb fst snd app].

(** X13.  [main] of rtt_test.c closes the descriptor exactly once, as its
    last call, on every path on which [open] succeeded, and makes no call
    at all on the descriptor when it did not or when the device argument
    is missing. *)
Theorem rtt_main_closes_what_it_opened :
  forall (argc : Z) (env : rtt_env),
    (argc < 2 -> fst (rtt_main argc env) = [say "Usage"]) /\
    (2 <= argc -> open_ret env < 0 ->
     fst (rtt_main argc env) = [call_open; say "open"]) /\
    (2 <= argc -> 0 <= open_ret env ->
     exists calls,
       fst (rtt_main argc env) = call_open :: calls ++ [call_close] /\
       filter is_close calls = []).
Proof.
  intros argc env. repeat split.
  - intros H. rtt_cases; try lia; reflexivity.
  - intros H1 H2. rtt_cases; try lia; reflexivity.
  - intros H1 H2. rtt_cases; try lia;
      match goal with
      | |- exists calls, ?t = _ /\ _ => exists (removelast (tl t))
      end; split; reflexivity.
Qed.

Lemma rtt_main_closes_what_it_opened_witness :
  exists calls,
    fst (rtt_main 2 {| open_ret := 3; tcgetattr_ret := -1; tcsetattr_ret := 0;
                       write_ret := 1; select_ret := 1; read_ret := 1;
                       read_byte := 0xA5 |})
    = call_open :: calls ++ [call_close] /\
    filter is_close calls = [].
Proof.
  apply (proj2 (proj2 (@rtt_main_closes_what_it_opened 2
           {| open_ret := 3; tcgetattr_ret := -1; tcsetattr_ret := 0;
              write_ret := 1; select_ret := 1; read_ret := 1;
              read_byte := 0xA5 |}))).
  - lia.
  - cbn. lia.
Defined.


(** X14.  The exit status of rtt_test.c is 0 or 1, and it is 0 exactly when
    every call up to [select] succeeded: what [read] then returns does not
    enter it.  The round-trip line is printed exactly when, on top of that,
    [read] returned one byte and that byte is 0xA5. *)
Theorem rtt_main_exit_status :
  forall (argc : Z) (env : rtt_env),
    (snd (rtt_main argc env) = 0 \/ snd (rtt_main argc env) = 1) /\
    (snd (rtt_main argc env) = 0 <->
     2 <= argc /\ 0 <= open_ret env /\
     tcgetattr_ret env = 0 /\ tcsetattr_ret env = 0 /\
     write_ret env = 1 /\ select_ret env <> -1 /\ select_ret env <> 0) /\
    (In say_rtt (fst (rtt_main argc env)) <->
     snd (rtt_main argc env) = 0 /\
     read_ret env = 1 /\ u8 (read_byte env) = TEST_BYTE).
Proof.
  intros argc env. rtt_cases;
    (split; [auto |]);
    (split; [split; [intros ?; try discriminate; repeat split; lia
                    | intros (? & ? & ? & ? & ? & ? & ?);
                      try reflexivity; lia] |]);
    cbn [In]; split;
    try (intros (? & ? & ?); try discriminate; try lia; auto 20; fail);
    try (intros H'; repeat destruct H' as [H' | H']; try discriminate H';
         try contradiction; auto; fail).
Qed.

Lemma rtt_main_exit_status_witness :
  snd (rtt_main 2 {| open_ret := 3; tcgetattr_ret := 0; tcsetattr_ret := 0;
                     write_ret := 1; select_ret := 1; read_ret := 0;
                     read_byte := 0 |}) = 0 /\
  ~ In say_rtt
       (fst (rtt_main 2 {| open_ret := 3; tcgetattr_ret := 0;
                           tcsetattr_ret := 0; write_ret := 1;
                           select_ret := 1; read_ret := 0;
                           read_byte := 0 |})).
Proof.
  pose proof (@rtt_main_exit_status 2
                {| open_ret := 3; tcgetattr_ret := 0; tcsetattr_ret := 0;
                   write_ret := 1; select_ret := 1; read_ret := 0;
                   read_byte := 0 |}) as (_ & Hexit & Hrtt).
  split.
  - apply Hexit. cbn. repeat split; lia.
  - intros Hin. apply Hrtt in Hin as (_ & Hread & _). cbn in Hread.
    discriminate Hread.
Defined.

(** ** The line settings, bit by bit *)

Lemma testbit_u32 (x n : Z) :
  0 <= n -> Z.testbit (u32 x) n = (n <? 32) && Z.testbit x n.
Proof.
  intros Hn. unfold u32. now rewrite Z.testbit_mod_pow2 by lia.
Qed.

Lemma high_bit_const (c n : Z) :
  (0 <=? c) && (c <? 2 ^ 32) = true -> 32 <= n -> Z.testbit c n = false.
Proof.
  intros Hc Hn. apply andb_prop in Hc as [H0 H1].
  apply Z.leb_le in H0. apply Z.ltb_lt in H1.
  destruct (Z.eq_dec c 0) as [-> | Hnz]; [apply Z.bits_0 |].
  apply Z.bits_above_log2; [lia |].
  assert (Z.log2 c < 32) by (apply Z.log2_lt_pow2; lia). lia.
Qed.

Lemma bit_cases (f : Z -> bool -> bool) :
  forallb (fun n => f n true && f n false) (map Z.of_nat (seq 0 32)) = true ->
  forall n b, 0 <= n < 32 -> f n b = true.
Proof.
  intros H n b Hn. rewrite forallb_forall in H.
  assert (f n true && f n false = true) as H'.
  { apply H. apply in_map_iff. exists (Z.to_nat n).
    split; [lia | apply in_seq; lia]. }
  apply andb_prop in H' as [Ht Hf]. now destruct b.
Qed.

Ltac bit_specs :=
  repeat (rewrite ?Z.land_spec, ?Z.lor_spec, ?testbit_u32, ?Z.lnot_spec
            by lia).

(* A goal [L = R] between bit expressions in the bit [n] of [x]. *)
Ltac low_bits x n :=
  bit_specs;
  generalize (Z.testbit x n); intros b;
  match goal with
  | |- ?L = ?R =>
      let e := constr:(Bool.eqb L R) in
      match eval pattern n, b in e with
      | ?f _ _ =>
          apply Bool.eqb_prop; change (f n b = true);
          apply (bit_cases f); [vm_compute; reflexivity | lia]
      end
  end.

Ltac high_bits n :=
  bit_specs;
  replace (n <? 32) with false by (symmetry; apply Z.ltb_ge; lia);
  cbn [andb];
  repeat match goal with
         | |- context [Z.testbit ?c n] =>
             rewrite (@high_bit_const c n) by (reflexivity || lia)
         end;
  reflexivity.

Ltac by_bits x :=
  apply Z.bits_inj'; intros n Hn;
  destruct (Z.ltb_spec n 32); [low_bits x n | high_bits n].

(** X15.  Whatever [tcgetattr] returned, the structure rtt_test.c hands to
    [tcsetattr] asks for eight data bits, receiver on and modem lines
    ignored, no parity, one stop bit, no hardware or software flow control,
    no break suppression, and has the output flags, the local flags and
    both read thresholds at zero. *)
Theorem configure_line_settings :
  forall tty : termios,
    Z.land (c_cflag (configure tty)) CSIZE = CS8 /\
    Z.land (c_cflag (configure tty)) (Z.lor CLOCAL CREAD)
      = Z.lor CLOCAL CREAD /\
    Z.land (c_cflag (configure tty))
           (Z.lor (Z.lor PARENB PARODD) (Z.lor CSTOPB CRTSCTS)) = 0 /\
    Z.land (c_iflag (configure tty))
           (Z.lor (Z.lor IGNBRK IXON) (Z.lor IXOFF IXANY)) = 0 /\
    c_oflag (configure tty) = 0 /\ c_lflag (configure tty) = 0 /\
    c_cc_VMIN (configure tty) = 0 /\ c_cc_VTIME (configure tty) = 0.
Proof.
  intros tty. unfold configure. cbn [c_cflag c_iflag c_oflag c_lflag
                                     c_cc_VMIN c_cc_VTIME].
  split; [by_bits (c_cflag tty) |].
  split; [by_bits (c_cflag tty) |].
  split; [by_bits (c_cflag tty) |].
  split; [by_bits (c_iflag tty) |].
  repeat split.
Qed.

(* A goal [L = R] that holds at the bits where [mask] is clear. *)
Ltac low_bits_off mask x n H :=
  bit_specs;
  revert H; generalize (Z.testbit x n); intros b H;
  match goal with
  | |- ?L = ?R =>
      let e := constr:(Z.testbit mask n || Bool.eqb L R) in
      match eval pattern n, b in e with
      | ?f _ _ =>
          let K := fresh "K" in
          assert (f n b = true) as K
              by (apply (bit_cases f); [vm_compute; reflexivity | lia]);
          cbv beta in K; rewrite H in K; now apply Bool.eqb_prop
      end
  end.

(** X16.  The line settings of rtt_test.c change no flag other than the
    ones they name, and applying them to their own result changes
    nothing. *)
Theorem configure_keeps_other_flags :
  forall tty : termios,
    (forall n : Z,
        0 <= n < 32 ->
        Z.testbit (Z.lor (Z.lor CSIZE (Z.lor CLOCAL CREAD))
                         (Z.lor (Z.lor PARENB PARODD) (Z.lor CSTOPB CRTSCTS)))
                  n = false ->
        Z.testbit (c_cflag (configure tty)) n = Z.testbit (c_cflag tty) n) /\
    (forall n : Z,
        0 <= n < 32 ->
        Z.testbit (Z.lor (Z.lor IGNBRK IXON) (Z.lor IXOFF IXANY)) n = false ->
        Z.testbit (c_iflag (configure tty)) n = Z.testbit (c_iflag tty) n) /\
    configure (configure tty) = configure tty.
Proof.
  intros tty. split; [| split].
  - intros n Hn Hoff. unfold configure. cbn [c_cflag].
    low_bits_off (Z.lor (Z.lor CSIZE (Z.lor CLOCAL CREAD))
                        (Z.lor (Z.lor PARENB PARODD) (Z.lor CSTOPB CRTSCTS)))
                 (c_cflag tty) n Hoff.
  - intros n Hn Hoff. unfold configure. cbn [c_iflag].
    low_bits_off (Z.lor (Z.lor IGNBRK IXON) (Z.lor IXOFF IXANY))
                 (c_iflag tty) n Hoff.
  - unfold configure. cbn [c_cflag c_iflag]. f_equal.
    + by_bits (c_iflag tty).
    + by_bits (c_cflag tty).
Qed.

Lemma configure_keeps_other_flags_witness :
  Z.testbit (c_cflag (configure {| c_iflag := 0; c_oflag := 0;
                                   c_cflag := 0x0F; c_lflag := 0;
                                   c_cc_VMIN := 1; c_cc_VTIME := 0 |})) 0
  = true.
Proof.
  apply (proj1 (@configure_keeps_other_flags
                  {| c_iflag := 0; c_oflag := 0; c_cflag := 0x0F;
                     c_lflag := 0; c_cc_VMIN := 1; c_cc_VTIME := 0 |}) 0).
  - lia.
  - reflexivity.
Defined.
